(** * ElastAlert rule execution core: a shallow embedding of
      [elastalert/elastalert.py] and the properties of its specification.

    Conventions of the embedding.
    - An instant ([datetime]) and a duration ([timedelta]) are integers
      [Z] counting whole seconds, except in the realert arithmetic, which
      the source does on float seconds and which runs on rationals here,
      with the resolution and the range of [timedelta] and [datetime];
      [ts_now()] is an input of every operation that reads the clock.
    - A Python dict used as a map is a [gmap]; a key that may be [None]
      is an [option string].
    - A rule is a dict in the source; here the keys an operation reads
      are fields of a record, an absent key is [None].
    - Calls to the search backend, to alerters and to enhancements are
      inputs: the response (or the exception raised) is handed to the
      operation, and what the operation does to the outside world is
      returned as a list of effects, in order.
    - An operation that may raise returns a [result]. *)

From Stdlib Require Import ZArith QArith Bool List String Ascii Lia.
From Stdlib Require Qpower.
From Stdlib Require Import Qround Lqa.
From stdpp Require Import base option list gmap strings pretty.
Import ListNotations.

Set Warnings "-register-all".
Close Scope Q_scope.
Local Open Scope Z_scope.

(** ** Exceptions

    The exception classes the core raises or handles, and the outcome of
    a call that may raise. *)

Inductive exn :=
  | KeyError (key : string)
  | IndexError
  | RuntimeError
  | EAException (msg : string)
  | ElasticsearchException (msg : string)
  | OtherException (msg : string).

Inductive result (A : Type) :=
  | Ok (a : A)
  | Raise (e : exn).
Arguments Ok {A} a.
Arguments Raise {A} e.

Definition bind {A B : Type} (m : result A) (k : A -> result B) : result B :=
  match m with
  | Ok a => k a
  | Raise e => Raise e
  end.

Notation "'do' x <- m ; k" := (bind m (fun x => k))
  (at level 10, x pattern, m at level 100, k at level 200).

(** [d[key]] on a key that may be absent. *)
Definition getitem {A : Type} (key : string) (o : option A) : result A :=
  match o with
  | Some a => Ok a
  | None => Raise (KeyError key)
  end.

(** ** Documents

    A JSON-shaped value as the backend returns it and as a match carries
    it. [VTime] is a [datetime] object (a timestamp after [ts_to_dt]). *)
Inductive value :=
  | VNone
  | VBool (b : bool)
  | VInt (z : Z)
  | VStr (s : string)
  | VTime (t : Z)
  | VList (l : list value)
  | VDict (kv : list (string * value)).

(** A dict with string keys: a hit's [_source], an event, a match. *)
Abbreviation doc := (gmap string value).

(** Python truthiness of a value ([not v] is its negation). *)
Definition truthy (v : value) : bool :=
  match v with
  | VNone => false
  | VBool b => b
  | VInt z => negb (z =? 0)
  | VStr s => negb (String.eqb s "")
  | VTime _ => true
  | VList l => match l with [] => false | _ => true end
  | VDict kv => match kv with [] => false | _ => true end
  end.

(** The functions of [elastalert.util] and the builtins that the core
    calls on documents. The module is not among the sources at hand, so
    these operations are an interface: [lookup_es_key] resolves a
    (possibly dotted) field path and gives [VNone] for Python's [None],
    [set_es_key] stores under such a path, [ts_to_dt] turns a timestamp
    into a [datetime], [py_str] is [str], [should_scrolling_continue]
    reads the two keys of the rule that are its arguments here. *)
Class Util := {
  lookup_es_key : doc -> string -> result value;
  set_es_key : doc -> string -> value -> doc;
  ts_to_dt : value -> result value;
  py_str : value -> string;
  should_scrolling_continue : option Z -> Z -> bool; (* max_scrolling_count, scrolling_cycle *)
}.

(** A dict as a value, for a dict stored inside another. *)
Definition of_doc (d : doc) : value := VDict (map_to_list d).

(** ** Writeback and error reporting *)

(** The four kinds of writeback document. The body of an alert document
    is the dict that [get_alert_body] builds. *)
Inductive writeback_doc :=
  | AlertDoc (body : doc)
  | ErrorDoc (message : string) (data : option value)
  | SilenceDoc (key : string) (until : Q) (exponent : Z)
  | StatusDoc (rule : string) (start : option Z) (endtime : Z) (matches : Z) (hits : Z).

(** What the core does to the outside world, in the order it does it. *)
Inductive effect :=
  | EsIndex (doc_type : string) (body : writeback_doc)
  | EsSearchSilence (key : string)
  | EsSearchPendingAggregate (rule : string) (key : option string)
  | EsSearch (index : string) (query : value)
  | EsScroll (scroll_id : string)
  | EsClearScroll (scroll_id : string)
  | AddData (data : list doc)
  | RunQuery (start endtime : Z)
  | AlerterCalled (info : value) (matches : list doc)
  | DebugAlerterCalled (matches : list doc)
  | LogWarning (msg : string)
  | LogError (msg : string)
  | Notify (msg : string).

(** The answer of the backend to an index request. The answers of the
    writeback are a function [wb] of the document sent. *)
Inductive index_response :=
  | Indexed (id : string)
  | IndexRaises (msg : string).

(** The switches of [self] that the operations read. *)
Record engine := mkEngine {
  debug : bool;
  notify_all_errors : bool;
  add_metadata_alert : bool;
}.

(** [writeback(doc_type, body)]: the response (here its [_id]) or [None].
    Nothing is sent in debug mode; an exception of the backend is logged
    and swallowed. *)
Definition writeback (e : engine) (wb : writeback_doc -> index_response)
    (doc_type : string) (body : writeback_doc) : option string * list effect :=
  if debug e then (None, [])
  else
    match wb body with
    | Indexed id => (Some id, [EsIndex doc_type body])
    | IndexRaises msg =>
        (None,
         EsIndex doc_type body
           :: LogError ("Error writing alert info to Elasticsearch: " ++ msg)
           :: (if notify_all_errors e then [Notify msg] else []))
    end.

(** *** Texts

    A Python [str] is a sequence of code points. A [string] holds the
    UTF-8 encoding of the text: a character is a leading byte followed
    by the continuation bytes (of the form 10xxxxxx) of its encoding. *)

Definition is_continuation (c : ascii) : bool :=
  match c with
  | Ascii _ _ _ _ _ _ b6 b7 => b7 && negb b6
  end.

(** [len(text)]: the number of characters. *)
Fixpoint code_points (s : string) : nat :=
  match s with
  | EmptyString => 0
  | String c s' => ((if is_continuation c then 0 else 1) + code_points s')%nat
  end.

(** [text[:n]]: the first [n] characters. *)
Fixpoint take_code_points (n : nat) (s : string) : string :=
  match s with
  | EmptyString => EmptyString
  | String c s' =>
      if is_continuation c then String c (take_code_points n s')
      else match n with
           | O => EmptyString
           | S n' => String c (take_code_points n' s')
           end
  end.


(** The characters that [str.strip()] removes: the ASCII whitespace
    (U+0009 to U+000D, U+001C to U+0020), and U+0085, U+00A0, U+1680,
    U+2000 to U+200A, U+2028, U+2029, U+202F, U+205F and U+3000 by their
    encodings of two and three bytes. *)
Definition space1 (c : ascii) : bool :=
  let n := nat_of_ascii c in
  ((9 <=? n) && (n <=? 13) || (28 <=? n) && (n <=? 32))%nat.

Definition space2 (c1 c2 : ascii) : bool :=
  let n1 := nat_of_ascii c1 in
  let n2 := nat_of_ascii c2 in
  ((n1 =? 194) && ((n2 =? 133) || (n2 =? 160)))%nat.

Definition space3 (c1 c2 c3 : ascii) : bool :=
  let n1 := nat_of_ascii c1 in
  let n2 := nat_of_ascii c2 in
  let n3 := nat_of_ascii c3 in
  ((n1 =? 225) && (n2 =? 154) && (n3 =? 128)
   || (n1 =? 226) && (n2 =? 128)
      && ((128 <=? n3) && (n3 <=? 138) || (n3 =? 168) || (n3 =? 169) || (n3 =? 175))
   || (n1 =? 226) && (n2 =? 129) && (n3 =? 159)
   || (n1 =? 227) && (n2 =? 128) && (n3 =? 128))%nat.

(** Removing the whitespace at the head of a text; [back] reads the
    bytes of a character from its last to its first, for a text that
    has been reversed. *)
Fixpoint strip_head (back : bool) (s : string) : string :=
  match s with
  | String c1 s1 =>
      if space1 c1 then strip_head back s1
      else
        match s1 with
        | String c2 s2 =>
            if (if back then space2 c2 c1 else space2 c1 c2) then strip_head back s2
            else
              match s2 with
              | String c3 s3 =>
                  if (if back then space3 c3 c2 c1 else space3 c1 c2 c3)
                  then strip_head back s3
                  else s
              | EmptyString => s
              end
        | EmptyString => s
        end
  | EmptyString => s
  end.

(** [text.strip()]. *)
Definition strip (s : string) : string :=
  String.rev (strip_head true (String.rev (strip_head false s))).

Definition newline : ascii := "010"%char.

(** [text.split('\n')]: the lines of a text. *)
Fixpoint split_lines (s : string) : list string :=
  match s with
  | EmptyString => [EmptyString]
  | String c s' =>
      if Ascii.eqb c newline then EmptyString :: split_lines s'
      else
        match split_lines s' with
        | line :: lines => String c line :: lines
        | [] => [String c EmptyString]
        end
  end.

(** *** Error documents *)


(** [handle_error(message, data)]: log, write an [elastalert_error]
    document, notify. The document is written as [ErrorDoc], the body
    less its traceback lines ([error_body] has them); [data] is in the
    body when it is truthy. *)
Definition handle_error (e : engine) (wb : writeback_doc -> index_response)
    (message : string) (data : option value) : list effect :=
  let body := ErrorDoc message (match data with
                                | Some d => if truthy d then Some d else None
                                | None => None
                                end) in
  LogError message
    :: snd (writeback e wb "elastalert_error" body)
    ++ (if notify_all_errors e then [Notify message] else []).

(** ** Time cursor logic: [set_starttime] and its helpers *)

(** Global configuration read through [self]. *)
Record conf := mkConf {
  conf_buffer_time : Z;       (* self.buffer_time *)
  conf_run_every : Z;         (* self.run_every *)
  conf_old_query_limit : Z;   (* self.old_query_limit *)
}.

(** The configuration keys of a rule that the time cursor and the
    executor read. A flag is the truthiness of [rule.get(key)]. *)
Record rule := mkRule {
  name : string;
  use_count_query : bool;
  use_terms_query : bool;
  aggregation_query_element : bool;
  scan_entire_timeframe : bool;
  buffer_time : option Z;
  run_every : Z;
  timeframe : option Z;
  allow_buffer_time_overlap : bool;
  use_run_every_query_size : bool;
  bucket_interval : bool;
  bucket_interval_timedelta : positive;
  sync_bucket_interval : bool;
}.

(** The cursor keys of the same dict, the mutable part. *)
Record cursor := mkCursor {
  starttime : option Z;
  minimum_starttime : option Z;
  previous_endtime : option Z;
  original_starttime : option Z;
  bucket_offset_delta : option Z;
}.

Definition with_starttime (s : Z) (k : cursor) : cursor :=
  mkCursor (Some s) (minimum_starttime k) (previous_endtime k)
    (original_starttime k) (bucket_offset_delta k).

Definition with_minimum_starttime (s : Z) (k : cursor) : cursor :=
  mkCursor (starttime k) (Some s) (previous_endtime k)
    (original_starttime k) (bucket_offset_delta k).

Definition with_previous_endtime (s : Z) (k : cursor) : cursor :=
  mkCursor (starttime k) (minimum_starttime k) (Some s)
    (original_starttime k) (bucket_offset_delta k).

Definition with_original_starttime (s : Z) (k : cursor) : cursor :=
  mkCursor (starttime k) (minimum_starttime k) (previous_endtime k)
    (Some s) (bucket_offset_delta k).

Definition with_bucket_offset_delta (s : Z) (k : cursor) : cursor :=
  mkCursor (starttime k) (minimum_starttime k) (previous_endtime k)
    (original_starttime k) (Some s).

(** What the writeback search of [get_starttime] produced: the backend
    raised, or it returned the hits (at most one, the newest status
    document of the rule), each with its [endtime] when the key is
    there. *)
Inductive status_response :=
  | StatusError (msg : string)
  | StatusHits (hits : list (option Z)).

(** [get_starttime]: the end of the last run when it is recent enough.
    An exception of the backend and a missing key are handled there and
    the function falls off its end; an empty result does the same. *)
Definition get_starttime (c : conf) (now : Z) (res : status_response) : option Z :=
  match res with
  | StatusError _ => None
  | StatusHits [] => None
  | StatusHits (None :: _) => None
  | StatusHits (Some endtime :: _) =>
      if now - endtime <? conf_old_query_limit c then Some endtime else None
  end.

Definition adjust_start_time_for_overlapping_agg_query (r : rule) (k : cursor)
    : result cursor :=
  if aggregation_query_element r then
    if allow_buffer_time_overlap r && negb (use_run_every_query_size r) then
      do bt <- getitem "buffer_time" (buffer_time r);
      if run_every r <? bt then
        do s <- getitem "starttime" (starttime k);
        let s' := s - (bt - run_every r) in
        Ok (with_original_starttime s' (with_starttime s' k))
      else Ok k
    else Ok k
  else Ok k.

Definition adjust_start_time_for_interval_sync (r : rule) (k : cursor) (endtime : Z)
    : result cursor :=
  if aggregation_query_element r then
    if bucket_interval r then
      do unix_starttime <- getitem "starttime" (starttime k);
      let offset := unix_starttime mod Z.pos (bucket_interval_timedelta r) in
      if sync_bucket_interval r then Ok (with_starttime (unix_starttime - offset) k)
      else Ok (with_bucket_offset_delta offset k)
    else Ok k
  else Ok k.

(** ['key' in rule and rule[key] > bound], and the same with [<]. *)
Definition present_and_gt (o : option Z) (bound : Z) : bool :=
  match o with Some v => bound <? v | None => false end.

Definition present_and_lt (o : option Z) (bound : Z) : bool :=
  match o with Some v => v <? bound | None => false end.

(** [set_starttime(rule, endtime)]. [last_run] is the response of the
    writeback to the status query, which is issued on a fresh start
    only. *)
Definition set_starttime (c : conf) (now : Z) (last_run : status_response)
    (r : rule) (k : cursor) (endtime : Z) : result cursor :=
  let resumed :=
    match starttime k with
    | None =>
        if negb (scan_entire_timeframe r) then get_starttime c now last_run else None
    | Some _ => None
    end in
  match resumed with
  | Some last_run_end =>
      do k1 <- adjust_start_time_for_overlapping_agg_query r (with_starttime last_run_end k);
      do k2 <- adjust_start_time_for_interval_sync r k1 endtime;
      do s <- getitem "starttime" (starttime k2);
      Ok (with_minimum_starttime s k2)
  | None =>
      if negb (use_count_query r) && negb (use_terms_query r) then
        do buffer_delta <-
          (if negb (scan_entire_timeframe r)
           then Ok (endtime - default (conf_buffer_time c) (buffer_time r))
           else do tf <- getitem "timeframe" (timeframe r); Ok (endtime - tf));
        do k1 <-
          (if present_and_gt (minimum_starttime k) buffer_delta then
             do m <- getitem "minimum_starttime" (minimum_starttime k);
             Ok (with_starttime m k)
           else if present_and_lt (previous_endtime k) buffer_delta then
             do p <- getitem "previous_endtime" (previous_endtime k);
             adjust_start_time_for_overlapping_agg_query r (with_starttime p k)
           else Ok (with_starttime buffer_delta k));
        adjust_start_time_for_interval_sync r k1 endtime
      else
        if negb (scan_entire_timeframe r) then
          Ok (with_starttime (default (endtime - conf_run_every c) (previous_endtime k)) k)
        else
          do tf <- getitem "timeframe" (timeframe r);
          Ok (with_starttime (endtime - tf) k)
  end.

(** ** Silence and realert

    The instants and durations of this component are rationals counting
    seconds, an instant from the Unix epoch. A [timedelta] is a whole
    number of microseconds of at most 999999999 days either way, a
    [datetime] lies in the years 1 to 9999; building a value outside
    these ranges raises [OverflowError]. The source does the arithmetic
    of the backoff on float seconds ([seconds(...)], [2 ** exponent]
    with an exponent that may be negative): the products, differences
    and comparisons of floats are idealised as exact. *)

Definition Qlt_bool (a b : Q) : bool := negb (Qle_bool b a).

Definition OverflowError : exn := OtherException "OverflowError".

(** Rounding to the nearest integer, a tie to the even one. *)
Definition round_half_even (x : Q) : Z :=
  let below := Qfloor x in
  match (x - inject_Z below ?= 1 # 2)%Q with
  | Lt => below
  | Gt => below + 1
  | Eq => if Z.even below then below else below + 1
  end.

(** [timedelta.min] and [timedelta.max], in microseconds. *)
Definition timedelta_min : Z := -86399999913600000000.
Definition timedelta_max : Z := 86399999999999999999.

(** [datetime.timedelta(seconds=x)] for a float [x]: [x] is rounded to
    microseconds, and the days of the result must have a magnitude of
    999999999 at most. *)
Definition timedelta_of_seconds (x : Q) : result Q :=
  let us := round_half_even (x * (1000000 # 1)) in
  if (timedelta_min <=? us) && (us <=? timedelta_max)
  then Ok (Qred (inject_Z us / (1000000 # 1)))
  else Raise OverflowError.

(** [datetime.min] (the start of year 1) and [datetime.max] (the last
    microsecond of year 9999), in seconds from the epoch. *)
Definition datetime_min : Q := (-62135596800 # 1).
Definition datetime_max : Q := (253402300799999999 # 1000000).

(** [t + d] for a [datetime] and a [timedelta]. *)
Definition datetime_add (t d : Q) : result Q :=
  if Qle_bool datetime_min (t + d) && Qle_bool (t + d) datetime_max
  then Ok (t + d)%Q
  else Raise OverflowError.

(** Modelled from the spec: [seconds(td)] of [elastalert.util], the
    number of seconds of a duration. The spec computes on the durations
    themselves ([diff = now - last_until], [realert * 2^exp]). *)
Definition seconds (d : Q) : Q := d.

(** [x * 2 ** exponent] for a float [x]: [2 ** exponent] is an [int]
    when the exponent is not negative, and an [int] of 2^1024 or more
    cannot be converted to a float. *)
Definition scaled (x : Q) (exponent : Z) : result Q :=
  if 1024 <=? exponent then Raise OverflowError else Ok (x * (2 # 1) ^ exponent)%Q.

(** The realert keys of a rule: [rule['realert']] and
    [rule.get('exponential_realert')]. *)
Record silence_rule := mkSilenceRule {
  realert : Q;
  exponential_realert : option Q;
}.

(** Truthiness of [rule.get('exponential_realert')]: an absent key and a
    zero [timedelta] are both falsy. *)
Definition exponential_cap (r : silence_rule) : option Q :=
  match exponential_realert r with
  | Some cap => if Qeq_bool cap 0 then None else Some cap
  | None => None
  end.

(** [self.silence_cache]: key to (until, exponent). *)
Abbreviation silence_cache := (gmap string (Q * Z)).

(** The loop of [next_alert_time]:
    [while diff > realert * 2 ** exponent and exponent > 0]. Each turn
    lowers the exponent, so [Z.to_nat exponent] turns are enough. The
    loop is entered with an exponent below 1024 (the test before it has
    computed the same product), so its products are floats. *)
Fixpoint decrease_exponent (turns : nat) (realert : Q) (diff : Q) (exponent : Z) : Q * Z :=
  match turns with
  | O => (diff, exponent)
  | S turns' =>
      if Qlt_bool (realert * (2 # 1) ^ exponent) diff && (0 <? exponent) then
        decrease_exponent turns' realert (diff - realert * (2 # 1) ^ exponent)%Q (exponent - 1)
      else (diff, exponent)
  end.

(** [next_alert_time(rule, name, timestamp)] *)
Definition next_alert_time (r : silence_rule) (cache : silence_cache) (name : string)
    (timestamp : Q) : result (Q * Z) :=
  match cache !! name with
  | None =>
      do until <- datetime_add timestamp (realert r);
      Ok (until, 0)
  | Some (last_until, exponent) =>
      match exponential_cap r with
      | None =>
          do until <- datetime_add timestamp (realert r);
          Ok (until, 0)
      | Some cap =>
          let diff := seconds (timestamp - last_until) in
          do bound <- scaled (seconds (realert r)) exponent;
          let exponent' :=
            if Qlt_bool diff bound then exponent + 1
            else snd (decrease_exponent (Z.to_nat exponent) (seconds (realert r)) diff
                        exponent) in
          do product <- scaled (seconds (realert r)) exponent';
          do wait <- timedelta_of_seconds product;
          if Qle_bool cap wait then
            do until <- datetime_add timestamp cap;
            Ok (until, exponent' - 1)
          else
            do until <- datetime_add timestamp wait;
            Ok (until, exponent')
      end
  end.

(** [set_realert(key, timestamp, exponent)]: cache and write through. *)
Definition set_realert (e : engine) (wb : writeback_doc -> index_response) (key : string)
    (timestamp : Q) (exponent : Z) (cache : silence_cache)
    : option string * silence_cache * list effect :=
  let '(res, effs) := writeback e wb "silence" (SilenceDoc key timestamp exponent) in
  (res, <[key := (timestamp, exponent)]> cache, effs).

(** A hit of the silence search: the [_source] keys of the document. *)
Record silence_hit := mkSilenceHit {
  hit_until : option Q;
  hit_exponent : option Z;
}.

(** What the writeback answered to the search for the newest silence
    document of a key (sorted by [until], descending, size 1). *)
Inductive silence_response :=
  | SilenceRaises (msg : string)
  | SilenceHits (hits : list silence_hit).

(** [is_silenced(rule_name)]. [now] is the clock at the cache test,
    [now'] the clock at the final comparison; [res] answers the search
    and [wb] the index request of [handle_error], when they are made. *)
Definition is_silenced (e : engine) (now now' : Q) (res : silence_response)
    (wb : writeback_doc -> index_response) (rule_name : string) (cache : silence_cache)
    : result (bool * silence_cache * list effect) :=
  let live :=
    match cache !! rule_name with
    | Some (until, _) => Qlt_bool now until
    | None => false
    end in
  if live then Ok (true, cache, [])
  else
    (* an entry found expired is popped *)
    let cache1 := delete rule_name cache in
    if debug e then Ok (false, cache1, [])
    else
      match res with
      | SilenceRaises msg =>
          Ok (false, cache1,
              EsSearchSilence rule_name
                :: handle_error e wb
                     ("Error while querying for alert silence status: " ++ msg)
                     (Some (VDict [("rule", VStr rule_name)])))
      | SilenceHits [] => Ok (false, cache1, [EsSearchSilence rule_name])
      | SilenceHits (h :: _) =>
          do until_ts <- getitem "until" (hit_until h);
          let exponent := default 0 (hit_exponent h) in
          let cache2 :=
            match cache1 !! rule_name with
            | None => <[rule_name := (until_ts, exponent)]> cache1
            | Some (_, cached) => <[rule_name := (until_ts, cached)]> cache1
            end in
          Ok (Qlt_bool now' until_ts, cache2, [EsSearchSilence rule_name])
      end.

(** ** Alert bodies, the alert dispatcher and the aggregation queue *)

(** What a call of [alerter.alert(matches)] does: it returns, it raises
    the error class of the engine, or it raises an exception of another
    class. *)
Inductive alert_outcome :=
  | Sent
  | RaisesEAException (msg : string)
  | RaisesOther (msg : string).

(** An alerter: the dict of [get_info()], its ['type'] entry, and the
    behaviour of [alert]. *)
Record alerter := mkAlerter {
  get_info : value;
  info_type : string;
  alert : list doc -> alert_outcome;
}.

(** What a call of [enhancement.process(match)] does: it returns, with
    the match as it left it, it drops the match, it raises an
    [EAException], or it raises an exception of another class. *)
Inductive enhancement_outcome :=
  | Processed (m : doc)
  | DropMatchException
  | EnhancementRaises (msg : string)
  | EnhancementFails (msg : string).

(** [rule['aggregation']]: a dict with an optional cron [schedule], or a
    [timedelta]. *)
Inductive aggregation :=
  | AggregationDict (schedule : option string)
  | AggregationDelta (d : Z).

(** The keys of a rule that the dispatcher and the aggregation queue
    read. *)
Record alert_rule := mkAlertRule {
  ar_name : string;
  ar_timestamp_field : string;
  ar_alert : list alerter;
  ar_include_match_in_root : bool;
  ar_metadata : option (value * value * value * value); (* category, description, owner, priority *)
  ar_run_enhancements_first : bool;
  ar_match_enhancements : list (doc -> enhancement_outcome);
  ar_aggregation_key : option string;
  ar_compared_with_timestamp_field : bool; (* aggregation_alert_time_compared_with_timestamp_field *)
  ar_aggregation : aggregation;
  ar_aggregate_by_match_time : bool;
}.

Section Alerts.
Context {U : Util}.

(** [get_alert_body(match, rule, alert_sent, alert_time, alert_exception)] *)
Definition get_alert_body (e : engine) (r : alert_rule) (m : doc) (sent : bool)
    (time : value) (exception : value) : result doc :=
  do info <-
    (if debug e then Ok (VDict [])
     else match ar_alert r with
          | a :: _ => Ok (get_info a)
          | [] => Raise IndexError
          end);
  let body : doc :=
    <["match_body" := of_doc m]> (<["rule_name" := VStr (ar_name r)]>
    (<["alert_info" := info]> (<["alert_sent" := VBool sent]>
    (<["alert_time" := time]> ∅)))) in
  let body : doc :=
    if ar_include_match_in_root r
    then filter (fun kv => String.prefix "_" (fst kv) = false) m ∪ body
    else body in
  do body <-
    (if add_metadata_alert e then
       match ar_metadata r with
       | Some (category, description, owner, priority) =>
           Ok (<["priority" := priority]> (<["owner" := owner]>
               (<["description" := description]> (<["category" := category]> body))))
       | None => Raise (KeyError "category")
       end
     else Ok body);
  do match_time <- lookup_es_key m (ar_timestamp_field r);
  let body : doc :=
    match match_time with
    | VNone => body
    | t => <["match_time" := t]> body
    end in
  Ok (if sent then body else <["alert_exception" := exception]> body).

(** The walk of [send_alert] over [rule['alert']]. The state is
    [(alert_sent, alert_exception, alerts sent)]. An [EAException] is
    reported and the walk goes on; any other exception leaves the walk,
    with the effects made so far. *)
Fixpoint run_alerters (e : engine) (wb : writeback_doc -> index_response)
    (rule : string) (alerters : list alerter) (matches : list doc)
    (st : bool * value * Z) : list effect * result (bool * value * Z) :=
  match alerters with
  | [] => ([], Ok st)
  | a :: rest =>
      let '(sent, exception, count) := st in
      match alert a matches with
      | Sent =>
          let '(effs, out) := run_alerters e wb rule rest matches (true, exception, count + 1) in
          (AlerterCalled (get_info a) matches :: effs, out)
      | RaisesEAException msg =>
          let message := ("Error while running alert " ++ info_type a ++ ": " ++ msg)%string in
          let data := Some (VDict [("rule", VStr rule)]) in
          let report := handle_error e wb message data in
          let '(effs, out) := run_alerters e wb rule rest matches (sent, VStr msg, count) in
          (AlerterCalled (get_info a) matches :: report ++ effs, out)
      | RaisesOther msg =>
          ([AlerterCalled (get_info a) matches], Raise (OtherException msg))
      end
  end.

(** The last loop of [send_alert]: one [elastalert] document per match;
    the first id the writeback returns becomes the [aggregate_id] of the
    documents after it. *)
Fixpoint write_alerts (e : engine) (wb : writeback_doc -> index_response)
    (r : alert_rule) (matches : list doc) (sent : bool) (time : value)
    (exception : value) (agg_id : option string) : list effect * result unit :=
  match matches with
  | [] => ([], Ok tt)
  | m :: rest =>
      match get_alert_body e r m sent time exception with
      | Raise ex => ([], Raise ex)
      | Ok body =>
          let body : doc :=
            match agg_id with
            | Some id => if String.eqb id "" then body else <["aggregate_id" := VStr id]> body
            | None => body
            end in
          let '(res, effs) := writeback e wb "elastalert" (AlertDoc body) in
          let agg_id' :=
            match res, agg_id with
            | Some id, None => Some id
            | Some id, Some "" => Some id
            | _, _ => agg_id
            end in
          let '(effs', out) := write_alerts e wb r rest sent time exception agg_id' in
          (effs ++ effs', out)
      end
  end.

(** One enhancement over the matches: a match is kept when [process]
    returns; a drop and an [EAException] both leave it out, and the
    error is reported; any other exception leaves the loop. *)
Fixpoint enhance_matches (e : engine) (wb : writeback_doc -> index_response)
    (rule : string) (process : doc -> enhancement_outcome) (matches : list doc)
    : list effect * result (list doc) :=
  match matches with
  | [] => ([], Ok [])
  | m :: rest =>
      match process m with
      | Processed m' =>
          let '(effs, out) := enhance_matches e wb rule process rest in
          (effs, do valid <- out; Ok (m' :: valid))
      | DropMatchException => enhance_matches e wb rule process rest
      | EnhancementRaises msg =>
          let message := ("Error running match enhancement: " ++ msg)%string in
          let data := Some (VDict [("rule", VStr rule)]) in
          let '(effs, out) := enhance_matches e wb rule process rest in
          (handle_error e wb message data ++ effs, out)
      | EnhancementFails msg => ([], Raise (OtherException msg))
      end
  end.

(** The enhancement loop of [send_alert]; [None] when an enhancement
    leaves no match. *)
Fixpoint run_enhancements (e : engine) (wb : writeback_doc -> index_response)
    (rule : string) (enhancements : list (doc -> enhancement_outcome))
    (matches : list doc) : list effect * result (option (list doc)) :=
  match enhancements with
  | [] => ([], Ok (Some matches))
  | process :: rest =>
      let '(effs, out) := enhance_matches e wb rule process matches in
      match out with
      | Raise ex => (effs, Raise ex)
      | Ok [] => (effs, Ok None)
      | Ok valid =>
          let '(effs', out') := run_enhancements e wb rule rest valid in
          (effs ++ effs', out')
      end
  end.

(** The enhancement step of [send_alert]: skipped when the enhancements
    ran at match time or the alert is a retry. *)
Definition prepare_matches (e : engine) (wb : writeback_doc -> index_response)
    (r : alert_rule) (matches : list doc) (retried : bool)
    : list effect * result (option (list doc)) :=
  if negb (ar_run_enhancements_first r) && negb retried
  then run_enhancements e wb (ar_name r) (ar_match_enhancements r) matches
  else ([], Ok (Some matches)).

(** [send_alert(matches, rule, alert_time, retried)], from the
    enhancement step on: [matches] are the matches after the top-count,
    discover-URL and rule-parameter steps, which only add keys to them,
    and [alert_time] is the argument or, without one, the clock. The
    result is the number of alerters that succeeded, which the source
    adds to [thread_data.alerts_sent]. *)
Definition send_alert (e : engine) (wb : writeback_doc -> index_response)
    (matches : list doc) (r : alert_rule) (alert_time : value) (retried : bool)
    : list effect * result Z :=
  match matches with
  | [] => ([], Ok 0)
  | _ =>
      let '(effs0, enhanced) := prepare_matches e wb r matches retried in
      match enhanced with
      | Raise ex => (effs0, Raise ex)
      | Ok None => (effs0, Ok 0)
      | Ok (Some matches) =>
          if debug e then (effs0 ++ [DebugAlerterCalled matches], Ok 0)
          else
            let '(effs1, walked) :=
              run_alerters e wb (ar_name r) (ar_alert r) matches (false, VNone, 0) in
            match walked with
            | Raise ex => (effs0 ++ effs1, Raise ex)
            | Ok (sent, exception, count) =>
                let '(effs2, out) :=
                  write_alerts e wb r matches sent alert_time exception None in
                (effs0 ++ effs1 ++ effs2,
                 match out with Ok _ => Ok count | Raise ex => Raise ex end)
            end
      end
  end.

End Alerts.

(** *** The aggregation queue *)

(** The aggregation keys of the rule dict that change: per aggregation
    key (which may be [None]) the id of the open group and its deadline,
    and the matches that could not be written. A deadline is a
    [datetime], or the empty string when it could not be computed. *)
Record agg_state := mkAggState {
  current_aggregate_id : gmap (option string) string;
  aggregate_alert_time : gmap (option string) value;
  agg_matches : list doc;
}.

(** A hit of the search for a pending aggregate. *)
Record pending_hit := mkPendingHit {
  pending_id : string;
  pending_alert_time : option value;
}.

Inductive pending_response :=
  | PendingRaises (msg : string)
  | PendingHits (hits : list pending_hit).

(** [a < b] on two [datetime]s; Python raises [TypeError] otherwise. *)
Definition datetime_lt (a b : value) : result bool :=
  match a, b with
  | VTime x, VTime y => Ok (x <? y)
  | _, _ => Raise (OtherException "TypeError")
  end.

Section Aggregation.
Context {U : Util}.

(** [get_named_key_value(rule, match, key_name)] for the key named by
    [field], the value of [rule[key_name]] when the rule has one. *)
Definition get_named_key_value (field : option string) (m : doc) : result (option string) :=
  match field with
  | Some f =>
      match lookup_es_key m f with
      | Ok VNone => Ok None
      | Ok v => Ok (Some (py_str v))
      | Raise (KeyError _) => Ok (Some "_missing")
      | Raise ex => Raise ex
      end
  | None => Ok None
  end.

Definition get_aggregation_key_value (r : alert_rule) (m : doc) : result (option string) :=
  get_named_key_value (ar_aggregation_key r) m.

(** [find_pending_aggregate_alert(rule, aggregation_key_value)]: the
    newest pending alert of the rule (and key), or [None]; an exception
    of the backend is reported and gives [None]. *)
Definition find_pending_aggregate_alert (e : engine) (wb : writeback_doc -> index_response)
    (res : pending_response) (r : alert_rule) (key : option string)
    : option pending_hit * list effect :=
  match res with
  | PendingHits [] => (None, [EsSearchPendingAggregate (ar_name r) key])
  | PendingHits (hit :: _) => (Some hit, [EsSearchPendingAggregate (ar_name r) key])
  | PendingRaises msg =>
      let message := ("Error searching for pending aggregated matches: " ++ msg)%string in
      let data := Some (VDict [("rule_name", VStr (ar_name r))]) in
      (None,
       EsSearchPendingAggregate (ar_name r) key
         :: handle_error e wb message data)
  end.

(** The deadline of a new group: the next cron fire, the match time plus
    the aggregation period, or the clock plus the period. A failure is
    reported (the message without the text of the exception) and leaves
    the empty string. [cron] is [croniter]'s next fire after the clock,
    [None] when it raises. *)
Definition new_alert_time (e : engine) (wb : writeback_doc -> index_response)
    (cron : string -> Z -> option Z) (now : Z) (r : alert_rule) (m : doc)
    : value * list effect :=
  let failed (message : string) (data : option value) :=
    (VStr "", handle_error e wb message data) in
  match ar_aggregation r with
  | AggregationDict (Some schedule) =>
      if String.eqb schedule "" then
        failed "[add_aggregated_alert]Error parsing aggregate send time format" None
      else
        match cron schedule now with
        | Some next => (VTime next, [])
        | None =>
            failed "Error parsing aggregate send time Cron format" (Some (VStr schedule))
        end
  | AggregationDict None =>
      failed "[add_aggregated_alert]Error parsing aggregate send time format" None
  | AggregationDelta d =>
      if ar_aggregate_by_match_time r then
        match bind (lookup_es_key m (ar_timestamp_field r)) ts_to_dt with
        | Ok (VTime match_time) => (VTime (match_time + d), [])
        | _ =>
            failed "[add_aggregated_alert]Error parsing aggregate send time format"
              (Some (VInt d))
        end
      else (VTime (now + d), [])
  end.

(** [add_aggregated_alert(match, rule)]. [pending] answers the search for
    a pending aggregate, [wb] the index requests. The result is the id
    the writeback returned for the match, or [None]. *)
Definition add_aggregated_alert (e : engine) (wb : writeback_doc -> index_response)
    (pending : pending_response) (cron : string -> Z -> option Z) (now : Z)
    (m : doc) (r : alert_rule) (st : agg_state)
    : result (option string * agg_state * list effect) :=
  do aggregation_key_value <- get_aggregation_key_value r m;
  do compare_dt <-
    (if ar_compared_with_timestamp_field r
     then lookup_es_key m (ar_timestamp_field r)
     else Ok (VTime now));
  let open_group :=
    match current_aggregate_id st !! aggregation_key_value with
    | Some id => negb (String.eqb id "")
    | None => false
    end in
  do expired <-
    (if open_group then
       match aggregate_alert_time st !! aggregation_key_value with
       | Some deadline => do compare <- ts_to_dt compare_dt; datetime_lt deadline compare
       | None => Ok false
       end
     else Ok true);
  do opened <-
    (if expired then
       (* ElastAlert may have restarted while pending alerts exist *)
       let '(pending_alert, effs) :=
         find_pending_aggregate_alert e wb pending r aggregation_key_value in
       match pending_alert with
       | Some hit =>
           do raw <- getitem "alert_time" (pending_alert_time hit);
           do alert_time <- ts_to_dt raw;
           Ok (alert_time, Some (pending_id hit),
               mkAggState {[ aggregation_key_value := pending_id hit ]}
                 (<[aggregation_key_value := alert_time]> (aggregate_alert_time st))
                 (agg_matches st),
               effs)
       | None =>
           let '(alert_time, effs') := new_alert_time e wb cron now r m in
           Ok (alert_time, None,
               mkAggState (current_aggregate_id st)
                 (<[aggregation_key_value := alert_time]> (aggregate_alert_time st))
                 (agg_matches st),
               effs ++ effs')
       end
     else
       (* already pending aggregation, use existing alert_time *)
       Ok (default VNone (aggregate_alert_time st !! aggregation_key_value),
           current_aggregate_id st !! aggregation_key_value, st, []));
  let '(alert_time, agg_id, st1, effs) := opened in
  let agg_id_set := match agg_id with Some id => negb (String.eqb id "") | None => false end in
  do body <- get_alert_body e r m false alert_time VNone;
  let body : doc :=
    match agg_id with
    | Some id => if agg_id_set then <["aggregate_id" := VStr id]> body else body
    | None => body
    end in
  let body : doc :=
    match aggregation_key_value with
    | Some k => if String.eqb k "" then body else <["aggregation_key" := VStr k]> body
    | None => body
    end in
  let '(res, effs') := writeback e wb "elastalert" (AlertDoc body) in
  let st2 :=
    match res with
    | Some id =>
        (* if new aggregation, save _id *)
        if agg_id_set then st1
        else mkAggState (<[aggregation_key_value := id]> (current_aggregate_id st1))
               (aggregate_alert_time st1) (agg_matches st1)
    | None =>
        (* could not write the match, keep it in memory *)
        mkAggState (current_aggregate_id st1) (aggregate_alert_time st1)
          (agg_matches st1 ++ [m])
    end in
  Ok (res, st2, effs ++ effs').

End Aggregation.

(** ** Query builder and query runner (search mode) *)

(** [d.get(key)] on a value that is a dict. *)
Fixpoint assoc (key : string) (kv : list (string * value)) : option value :=
  match kv with
  | [] => None
  | (k, v) :: rest => if String.eqb k key then Some v else assoc key rest
  end.

Definition dict_get (key : string) (d : value) : option value :=
  match d with
  | VDict kv => assoc key kv
  | _ => None
  end.

(** [get_query(filters, starttime, endtime, sort, timestamp_field,
    to_ts_func, desc)]; the two bounds are given as [to_ts_func]
    returned them. *)
Definition get_query (filters : list value) (starttime endtime : value) (sort : bool)
    (timestamp_field : string) (desc : bool) : value :=
  let new_filters :=
    map (fun es_filter =>
           match dict_get "query" es_filter with
           | Some q => if truthy q then q else es_filter
           | None => es_filter
           end) filters in
  let range :=
    VDict [("range", VDict [(timestamp_field, VDict [("gt", starttime); ("lte", endtime)])])] in
  let must := if truthy starttime && truthy endtime then range :: new_filters else new_filters in
  let query := ("query", VDict [("bool", VDict [("filter", VDict [("bool",
                 VDict [("must", VList must)])])])]) in
  if sort then
    VDict [query;
           ("sort", VList [VDict [(timestamp_field,
                      VDict [("order", VStr (if desc then "desc" else "asc"))])]])]
  else VDict [query].

(** The keys of a rule that the query runner reads. *)
Record query_rule := mkQueryRule {
  qr_name : string;
  qr_filter : list value;
  qr_timestamp_field : string;
  qr_dt_to_ts : Z -> value;                 (* rule['dt_to_ts'] *)
  qr_ts_to_dt : value -> result value;      (* rule['ts_to_dt'] *)
  qr_source_enabled : option bool;          (* rule['_source_enabled'] *)
  qr_include : value;
  qr_include_fields : option value;
  qr_max_scrolling_count : option Z;
  qr_query_key : option string;
  qr_compound_query_key : list string;
  qr_aggregation_key : option string;
  qr_compound_aggregation_key : list string;
}.

(** A hit of a search: its [_source] and [fields] when it has them, and
    the other keys ([_id], [_index], [_type], ...). *)
Record hit := mkHit {
  hit_top : doc;
  hit_source : option doc;
  hit_fields : option doc;
}.

(** The text of the error raised when a hit has no timestamp. *)
Definition no_timestamp_message : string :=
  "Error: No timestamp was found for hit. '_source_enabled' is set to false, check your mappings for stored fields".

Fixpoint join (sep : string) (l : list string) : string :=
  match l with
  | [] => ""
  | [s] => s
  | s :: rest => s ++ sep ++ join sep rest
  end.

Section QueryRunner.
Context {U : Util}.

(** Fields are returned as lists; one of length 1 stands for its element. *)
Definition unwrap_field (v : value) : value :=
  match v with
  | VList [x] => x
  | v => v
  end.

(** [hit['_source']] after the merge of [fields]: a key of [_source]
    wins over a field of the same name. *)
Definition merged_source (h : hit) : doc :=
  default ∅ (hit_source h) ∪ (unwrap_field <$> default ∅ (hit_fields h)).

(** [src[key] = ', '.join([str(lookup_es_key(src, k)) for k in keys])]
    when the rule has a compound key. *)
Fixpoint lookup_all (src : doc) (keys : list string) : result (list value) :=
  match keys with
  | [] => Ok []
  | k :: rest =>
      do v <- lookup_es_key src k;
      do vs <- lookup_all src rest;
      Ok (v :: vs)
  end.

Definition set_compound_key (src : doc) (key_name : string) (target : option string)
    (keys : list string) : result doc :=
  match keys with
  | [] => Ok src
  | _ =>
      do values <- lookup_all src keys;
      do key <- getitem key_name target;
      Ok (<[key := VStr (join ", " (map py_str values))]> src)
  end.

(** The body of the loop of [process_hits] after the test of the
    timestamp: the timestamp [ts] is converted and written back, the
    metadata fields are tacked into [_source], and the compound keys
    are set. *)
Definition finish_hit (r : query_rule) (h : hit) (ts : value) : result doc :=
  let src := merged_source h in
  do dt <- qr_ts_to_dt r ts;
  let src := set_es_key src (qr_timestamp_field r) dt in
  do stored <- lookup_es_key src (qr_timestamp_field r);
  let top := set_es_key (hit_top h) (qr_timestamp_field r) stored in
  (* tack the metadata fields into _source *)
  let tack (field : string) (src : doc) : doc :=
    match top !! field with
    | Some v => <[field := v]> src
    | None => src
    end in
  let src := tack "_type" (tack "_index" (tack "_id" src)) in
  do src <- set_compound_key src "query_key" (qr_query_key r) (qr_compound_query_key r);
  do src <- set_compound_key src "aggregation_key" (qr_aggregation_key r)
              (qr_compound_aggregation_key r);
  Ok src.

(** The body of the loop of [process_hits], for one hit:
    [if not ts and not rule["_source_enabled"]: raise EAException(...)],
    where the flag is read only when the timestamp is falsy. *)
Definition process_hit (r : query_rule) (h : hit) : result doc :=
  let src := merged_source h in
  do ts <- lookup_es_key src (qr_timestamp_field r);
  do enabled <- (if truthy ts then Ok true else getitem "_source_enabled" (qr_source_enabled r));
  if negb (truthy ts) && negb enabled then Raise (EAException no_timestamp_message)
  else finish_hit r h ts.

(** [process_hits(rule, hits)]: the processed [_source] of every hit, or
    the first exception. *)
Fixpoint process_hits (r : query_rule) (hits : list hit) : result (list doc) :=
  match hits with
  | [] => Ok []
  | h :: rest =>
      do src <- process_hit r h;
      do srcs <- process_hits r rest;
      Ok (src :: srcs)
  end.

(** What a search or scroll request produced: an exception of the
    client, or a response. Of the shard failures of a response: the
    reason of each when it has one where the code looks for it, and the
    [str] of the whole list. *)
Record search_result := mkSearchResult {
  res_scroll_id : option string;
  res_total : Z;
  res_failures : list (option string);
  res_failures_str : string;
  res_hits : list hit;
}.

Inductive search_outcome :=
  | SearchRaises (text : string)
  | SearchReturns (res : search_result).

Definition contains (needle s : string) : bool :=
  match String.index 0 needle s with Some _ => true | None => false end.

(** The reasons of the failures, [None] when one of them is not where
    the code looks for it (a [TypeError] or [KeyError] in the source). *)
Fixpoint parse_failures (failures : list (option string)) : option (list string) :=
  match failures with
  | [] => Some []
  | None :: _ => None
  | Some reason :: rest =>
      match parse_failures rest with
      | Some errs => Some (if contains "Failed to parse" reason then reason :: errs else errs)
      | None => None
      end
  end.

(** The text of the [ElasticsearchException] that the [try] block of
    [get_hits] ends with, if it does. *)
Definition query_error (out : search_outcome) : option string :=
  match out with
  | SearchRaises text => Some text
  | SearchReturns res =>
      match res_failures res with
      | [] => None
      | failures =>
          match parse_failures failures with
          | Some [] => None
          | Some errs => Some (py_str (VList (map VStr errs)))
          | None => Some (res_failures_str res)
          end
      end
  end.

(** Elasticsearch sometimes gives gigantic error messages: past 1024
    characters ([len(str(e)) > 1024], code points and not bytes) the
    text is cut to [str(e)[:1024]] and the number of characters cut off
    is appended. *)
Definition truncate_error (text : string) : string :=
  if (1024 <? code_points text)%nat then
    (take_code_points 1024 text ++ "... ("
       ++ pretty (code_points text - 1024)%nat ++ " characters removed)")%string
  else text.

(** The per-rule and per-thread state of the query runner. *)
Record query_state := mkQueryState {
  scroll_id : option string;
  scrolling_cycle : Z;
  processed_hits : gmap string value;
  num_hits : Z;
  num_dupes : Z;
  total_hits : Z;
}.

(** The query of [get_hits], with the stored and extra fields. *)
Definition search_query (r : query_rule) (starttime endtime : Z) : value :=
  let query := get_query (qr_filter r) (qr_dt_to_ts r starttime) (qr_dt_to_ts r endtime)
                 true (qr_timestamp_field r) false in
  let add (key : string) (v : value) (q : value) : value :=
    match q with VDict kv => VDict (kv ++ [(key, v)]) | q => q end in
  let query := if default false (qr_source_enabled r) then query
               else add "stored_fields" (qr_include r) query in
  match qr_include_fields r with
  | Some fields => add "fields" fields query
  | None => query
  end.

(** [get_hits(rule, starttime, endtime, index, scroll)]: the processed
    hits, or [None] after an error of the backend, which is reported.
    The state is returned with the outcome, also when the call raises. *)
Definition get_hits (e : engine) (wb : writeback_doc -> index_response)
    (out : search_outcome) (r : query_rule) (starttime endtime : Z) (index : string)
    (scroll : bool) (st : query_state)
    : list effect * query_state * result (option (list doc)) :=
  let query := search_query r starttime endtime in
  let request :=
    if scroll then
      match scroll_id st with
      | Some id => Ok (EsScroll id)
      | None => Raise (KeyError "scroll_id")
      end
    else Ok (EsSearch index query) in
  match request with
  | Raise ex => ([], st, Raise ex)
  | Ok request =>
      (* rule['scroll_id'] and total_hits are set from a first response *)
      let st1 :=
        match out with
        | SearchReturns res =>
            if scroll then st
            else mkQueryState (match res_scroll_id res with
                               | Some id => Some id
                               | None => scroll_id st
                               end)
                   (scrolling_cycle st) (processed_hits st) (num_hits st) (num_dupes st)
                   (res_total res)
        | SearchRaises _ => st
        end in
      match query_error out, out with
      | Some text, _ =>
          let message := ("Error running query: " ++ truncate_error text)%string in
          let data := Some (VDict [("rule", VStr (qr_name r)); ("query", query)]) in
          (request :: handle_error e wb message data,
           st1, Ok None)
      | None, SearchRaises _ => ([request], st1, Ok None)
      | None, SearchReturns res =>
          let hits := res_hits res in
          let st2 := mkQueryState (scroll_id st1) (scrolling_cycle st1) (processed_hits st1)
                       (num_hits st1 + Z.of_nat (length hits)) (num_dupes st1)
                       (total_hits st1) in
          ([request], st2, do data <- process_hits r hits; Ok (Some data))
      end
  end.

(** [event['_id']]: the ids of the backend are strings. *)
Definition event_id (event : doc) : result string :=
  match event !! "_id" with
  | Some (VStr id) => Ok id
  | Some _ => Raise (OtherException "TypeError")
  | None => Raise (KeyError "_id")
  end.

(** [remove_duplicate_events(data, rule)]: the new events, and
    [rule['processed_hits']] after the call. *)
Fixpoint remove_duplicate_events (data : list doc) (timestamp_field : string)
    (processed : gmap string value) : result (list doc * gmap string value) :=
  match data with
  | [] => Ok ([], processed)
  | event :: rest =>
      do id <- event_id event;
      match processed !! id with
      | Some _ => remove_duplicate_events rest timestamp_field processed
      | None =>
          (* remember the new data's IDs *)
          do ts <- lookup_es_key event timestamp_field;
          do kept <- remove_duplicate_events rest timestamp_field (<[id := ts]> processed);
          Ok (event :: fst kept, snd kept)
      end
  end.

(** [cleanup_scroll_id(rule)] *)
Definition cleanup_scroll_id (st : query_state) : list effect * query_state :=
  match scroll_id st with
  | Some id =>
      ([EsClearScroll id],
       mkQueryState None (scrolling_cycle st) (processed_hits st) (num_hits st)
         (num_dupes st) (total_hits st))
  | None => ([], st)
  end.

(** The step of [run_query] between the query and the scroll test: the
    duplicates are removed and counted, and the new events are handed to
    the rule type. *)
Definition feed_new_events (r : query_rule) (data : list doc) (st : query_state)
    : list effect * query_state * result unit :=
  match data with
  | [] => ([], st, Ok tt)
  | _ =>
      match remove_duplicate_events data (qr_timestamp_field r) (processed_hits st) with
      | Raise ex => ([], st, Raise ex)
      | Ok (new_events, processed) =>
          (match new_events with [] => [] | _ => [AddData new_events] end,
           mkQueryState (scroll_id st) (scrolling_cycle st) processed (num_hits st)
             (num_dupes st + (Z.of_nat (length data) - Z.of_nat (length new_events)))
             (total_hits st),
           Ok tt)
      end
  end.

(** [rule.get('scroll_id') and num_hits < total_hits and
    should_scrolling_continue(rule)] *)
Definition scroll_on (r : query_rule) (st : query_state) : bool :=
  match scroll_id st with
  | Some id =>
      negb (String.eqb id "") && (num_hits st <? total_hits st)
      && should_scrolling_continue (qr_max_scrolling_count r) (scrolling_cycle st)
  | None => false
  end.

(** [run_query(rule, start, end, scroll)] for a rule in search mode (no
    count, terms or aggregation query), with both bounds given and no
    [query_timezone]; [index] is what [get_index] returned.
    [backend] answers the request of the call that finds
    [scrolling_cycle] at a given value. [depth] is the number of frames
    the interpreter still allows: a call beyond it raises [RuntimeError],
    which the frame above catches. The state is returned with the
    outcome, also when the call raises. *)
Fixpoint run_query (depth : nat) (e : engine) (wb : writeback_doc -> index_response)
    (backend : Z -> search_outcome) (r : query_rule) (start endtime : Z) (index : string)
    (scroll : bool) (st : query_state) : list effect * query_state * result bool :=
  match depth with
  | O => ([], st, Raise RuntimeError)
  | S depth' =>
      let cycle := scrolling_cycle st + 1 in
      let st0 := mkQueryState (scroll_id st) cycle (processed_hits st) (num_hits st)
                   (num_dupes st) (total_hits st) in
      let '(effs, st1, got) := get_hits e wb (backend cycle) r start endtime index scroll st0 in
      match got with
      | Raise ex => (effs, st1, Raise ex)
      | Ok None => (effs, st1, Ok false)   (* there was an exception while querying *)
      | Ok (Some data) =>
          let '(fed, st2, done) := feed_new_events r data st1 in
          match done with
          | Raise ex => (effs ++ fed, st2, Raise ex)
          | Ok _ =>
              if scroll_on r st2 then
                let '(effs', st3, inner) :=
                  run_query depth' e wb backend r start endtime index true st2 in
                match inner with
                | Ok true =>
                    let '(clean, st4) := cleanup_scroll_id st3 in
                    (effs ++ fed ++ effs' ++ clean, st4, Ok true)
                | Ok false =>
                    let '(clean, st4) := cleanup_scroll_id st3 in
                    let '(clean', st5) := cleanup_scroll_id st4 in
                    (effs ++ fed ++ effs' ++ clean ++ clean', st5, Ok false)
                | Raise RuntimeError =>
                    (* it is possible to scroll far enough to hit max recursive depth *)
                    let '(clean, st4) := cleanup_scroll_id st3 in
                    (effs ++ fed ++ effs' ++ clean, st4, Ok true)
                | Raise ex =>
                    let '(clean, st4) := cleanup_scroll_id st3 in
                    (effs ++ fed ++ effs' ++ clean, st4, Raise ex)
                end
              else
                let '(clean, st3) := cleanup_scroll_id st2 in
                (effs ++ fed ++ clean, st3, Ok true)
          end
      end
  end.

End QueryRunner.

(** ** List enhancement of the filter: [enhance_filter] *)

(** The keys of a rule that [enhance_filter] reads. *)
Record list_rule := mkListRule {
  filter_by_list : option bool;
  blacklist : option (list string);
  whitelist : option (list string);
  compare_key : option string;
  rule_filter : option (list value);
}.

(** The double quote character, as a string. *)
Definition dquote : string := String "034"%char EmptyString.

(** [term.endswith('/')] *)
Fixpoint endswith_slash (term : string) : bool :=
  match term with
  | EmptyString => false
  | String c EmptyString => Ascii.eqb c "/"%char
  | String _ rest => endswith_slash rest
  end.

(** The loop of [enhance_filter] over the terms of the list: a term
    goes in quotes unless it is written between slashes (a regular
    expression). *)
Fixpoint additional_terms (compare_key : option string) (terms : list string)
    (acc : list string) : result (list string) :=
  match terms with
  | [] => Ok acc
  | term :: rest =>
      do key <- getitem "compare_key" compare_key;
      if negb (String.prefix "/" term) || negb (endswith_slash term) then
        additional_terms compare_key rest
          (acc ++ [(key ++ ":" ++ dquote ++ term ++ dquote)%string])
      else
        additional_terms compare_key rest (acc ++ [(key ++ ":" ++ term)%string])
  end.

(** [enhance_filter(rule)]: [rule['filter']] after the call. With a
    blacklist or a whitelist (the blacklist first) and [filter_by_list]
    not switched off, one [query_string] filter is appended. *)
Definition enhance_filter (r : list_rule) : result (option (list value)) :=
  if negb (default true (filter_by_list r)) then Ok (rule_filter r)
  else
    let chosen :=
      match blacklist r, whitelist r with
      | Some terms, _ => Some (false, terms)
      | None, Some terms => Some (true, terms)
      | None, None => None
      end in
    match chosen with
    | None => Ok (rule_filter r)
    | Some (is_whitelist, terms) =>
        do filters <- getitem "filter" (rule_filter r);
        do terms <- additional_terms (compare_key r) terms [];
        let query :=
          if is_whitelist then ("NOT " ++ join " AND NOT " terms)%string
          else join " OR " terms in
        let query_str_filter := VDict [("query_string", VDict [("query", VStr query)])] in
        Ok (Some (filters ++ [query_str_filter]))
    end.

(** ** Rule executor: [run_rule] *)

(** [get_segment_size(rule)] *)
Definition get_segment_size (c : conf) (r : rule) : Z :=
  if negb (use_count_query r) && negb (use_terms_query r)
     && negb (aggregation_query_element r) then
    default (conf_buffer_time c) (buffer_time r)
  else if aggregation_query_element r then
    if use_run_every_query_size r then conf_run_every c
    else default (conf_buffer_time c) (buffer_time r)
  else conf_run_every c.

(** What [run_rule] calls and does not define. [W] is everything these
    calls read and change besides the cursor: the backend, the rule
    type, the caches. A query tells whether it succeeded and how many
    hits it added to [thread_data.num_hits]. *)
Record collaborators (W : Type) := mkCollaborators {
  add_pending_aggregates : W -> W;          (* the loop over rule['agg_matches'] *)
  query : Z -> Z -> W -> bool * Z * W;      (* run_query(rule, start, end) *)
  garbage_collect : Z -> W -> W;            (* rule['type'].garbage_collect(ts) *)
  handle_matches : Z -> W -> Z * W;         (* the loop over rule['type'].matches *)
}.
Arguments mkCollaborators {W}.
Arguments add_pending_aggregates {W}.
Arguments query {W}.
Arguments garbage_collect {W}.
Arguments handle_matches {W}.

(** How the walk over the segments of the window ended. *)
Inductive walk (W : Type) :=
  | QueryFailed (start : Z) (w : W)
  | Walked (start tmp_endtime cumulative_hits : Z) (w : W).
Arguments QueryFailed {W}.
Arguments Walked {W}.

(** The loop [while endtime - rule['starttime'] > segment_size]. [turns]
    bounds the number of turns; [None] when they do not suffice. *)
Fixpoint walk_segments {W : Type} (turns : nat) (C : collaborators W)
    (segment_size endtime start tmp_endtime cumulative_hits : Z) (w : W)
    : option (list effect * walk W) :=
  match turns with
  | O => None
  | S turns' =>
      if segment_size <? endtime - start then
        let tmp_endtime := tmp_endtime + segment_size in
        let '(ok, hits, w) := query C start tmp_endtime w in
        if ok then
          match walk_segments turns' C segment_size endtime tmp_endtime tmp_endtime
                  (cumulative_hits + hits) (garbage_collect C tmp_endtime w) with
          | Some (effs, out) => Some (RunQuery start tmp_endtime :: effs, out)
          | None => None
          end
        else Some ([RunQuery start tmp_endtime], QueryFailed start w)
      else Some ([], Walked start tmp_endtime cumulative_hits w)
  end.

(** The text logged when the start of the window is not in the past
    (the source puts the [starttime] argument in the middle of it). *)
Definition future_start_warning : string :=
  "Attempted to use query start time in the future, sleeping instead".

(** The outcome of [run_rule]: its effects, the cursor and the world it
    leaves, and what it returns. *)
Record run_result (W : Type) := mkRunResult {
  run_effects : list effect;
  run_cursor : cursor;
  run_world : W;
  run_return : result Z;
}.
Arguments mkRunResult {W}.
Arguments run_effects {W}.
Arguments run_cursor {W}.
Arguments run_world {W}.
Arguments run_return {W}.

(** The start of the window: the one given, or the one that
    [set_starttime] computes. *)
Definition start_cursor (c : conf) (now0 : Z) (last_run : status_response) (r : rule)
    (k : cursor) (endtime : Z) (initial_start : option Z) : result (cursor * Z) :=
  do k <-
    match initial_start with
    | Some s => Ok (with_starttime s k)
    | None => set_starttime c now0 last_run r k endtime
    end;
  do s <- getitem "starttime" (starttime k);
  Ok (k, s).

(** [run_rule(rule, endtime, starttime)]. [now0] and [last_run] are the
    clock and the answer of the writeback for [set_starttime], [now] is
    the clock at the test of the start time, [wb] answers the status
    document. When [set_starttime] raises, the exception leaves
    [run_rule]; the keys that [set_starttime] had written before it
    raised are not tracked, and the cursor of that outcome is the one
    the call was given, which says nothing of [starttime] after it. *)
Definition run_rule {W : Type} (turns : nat) (c : conf) (e : engine) (C : collaborators W)
    (now0 : Z) (last_run : status_response) (now : Z) (wb : writeback_doc -> index_response)
    (r : rule) (k : cursor) (endtime : Z) (initial_start : option Z) (w : W)
    : option (run_result W) :=
  (* if there are pending aggregate matches, try processing them *)
  let w := add_pending_aggregates C w in
  match start_cursor c now0 last_run r k endtime initial_start with
  | Raise ex => Some (mkRunResult [] k w (Raise ex))
  | Ok (k, s) =>
      let k := with_original_starttime s k in
      (* don't run if starttime was set to the future *)
      if now <=? s then Some (mkRunResult [LogWarning future_start_warning] k w (Ok 0))
      else
        let segment_size := get_segment_size c r in
        match walk_segments turns C segment_size endtime s s 0 w with
        | None => None
        | Some (effs, QueryFailed start w) =>
            Some (mkRunResult effs (with_starttime start k) w (Ok 0))
        | Some (effs, Walked start tmp_endtime cumulative_hits w) =>
            let k := with_starttime start k in
            let finish (effs : list effect) (k : cursor) (endtime num_hits cumulative_hits : Z)
                (w : W) : run_result W :=
              let '(num_matches, w) := handle_matches C cumulative_hits w in
              (* mark this endtime for next run's start *)
              let k := with_previous_endtime endtime k in
              let body := StatusDoc (name r) (original_starttime k) endtime num_matches
                            (Z.max num_hits cumulative_hits) in
              mkRunResult (effs ++ snd (writeback e wb "elastalert_status" body))
                k w (Ok num_matches) in
            if aggregation_query_element r then
              if Z.eqb (endtime - tmp_endtime) segment_size then
                let '(ok, hits, w) := query C tmp_endtime endtime w in
                if ok then
                  Some (finish (effs ++ [RunQuery tmp_endtime endtime]) k endtime hits
                          (cumulative_hits + hits) w)
                else Some (mkRunResult (effs ++ [RunQuery tmp_endtime endtime]) k w (Ok 0))
              else if Z.eqb (s - tmp_endtime) 0 then
                Some (mkRunResult effs (with_starttime s k) w (Ok 0))
              else Some (finish effs k tmp_endtime 0 cumulative_hits w)
            else
              let '(ok, hits, w) := query C start endtime w in
              if ok then
                Some (finish (effs ++ [RunQuery start endtime]) k endtime hits
                        (cumulative_hits + hits) (garbage_collect C endtime w))
              else Some (mkRunResult (effs ++ [RunQuery start endtime]) k w (Ok 0))
        end
  end.

(** ** Memory cleanup *)

(** [for key in keys: d.pop(key, None)], and [list(map(d.pop, keys))]
    for keys taken from [d] itself. *)
Definition pop_all {K : Type} `{Countable K} {A : Type} (keys : list K) (d : gmap K A)
    : gmap K A :=
  foldl (fun d key => delete key d) d keys.

(** [cleanup_silence_cache()]: [now] is the clock. An entry is expired
    when [now >= until_time]. *)
Definition cleanup_silence_cache (now : Q) (cache : silence_cache) : silence_cache :=
  let expired_keys :=
    map fst (List.filter (fun item => Qle_bool (fst (snd item)) now) (map_to_list cache)) in
  pop_all expired_keys cache.

(** [cleanup_es_clients_cache()]: [rules] and [disabled_rules] are the
    names of the rules of the two lists of the engine. *)
Definition cleanup_es_clients_cache {A : Type} (rules disabled_rules : list string)
    (es_clients : gmap string A) : gmap string A :=
  let active_rule_names : gset string := list_to_set rules ∪ list_to_set disabled_rules in
  let stale_clients :=
    List.filter (fun client_key => negb (bool_decide (client_key ∈ active_rule_names)))
      (map fst (map_to_list es_clients)) in
  pop_all stale_clients es_clients.

(** [now - timestamp > limit] for a stored timestamp: the difference of
    a [datetime] and a value of another type raises [TypeError]. *)
Definition older_than (limit now : Z) (timestamp : value) : result bool :=
  match timestamp with
  | VTime t => Ok (limit <? now - t)
  | _ => Raise (OtherException "TypeError")
  end.

(** A loop that collects the keys of the items that pass a test; the
    test may raise. *)
Fixpoint collect_keys {K : Type} (test : value -> result bool) (items : list (K * value))
    : result (list K) :=
  match items with
  | [] => Ok []
  | (key, v) :: rest =>
      do hit <- test v;
      do keys <- collect_keys test rest;
      Ok (if hit then key :: keys else keys)
  end.

(** The limit of [remove_old_events]: the buffer time of the rule, or
    that of the engine, plus the query delay of the rule when it has
    one (a delay of zero is falsy). Both are durations here, so the
    addition cannot raise. *)
Definition memory_limit (c : conf) (r : rule) (query_delay : option Z) : Z :=
  let buffer_time := default (conf_buffer_time c) (buffer_time r) in
  match query_delay with
  | Some delay => if delay =? 0 then buffer_time else buffer_time + delay
  | None => buffer_time
  end.

(** [remove_old_events(rule)]: [rule['processed_hits']] after the call.
    The ids to forget are collected first, so a call that raises has
    removed nothing. *)
Definition remove_old_events (c : conf) (now : Z) (r : rule) (query_delay : option Z)
    (processed : gmap string value) : result (gmap string value) :=
  do remove <- collect_keys (older_than (memory_limit c r query_delay) now)
                 (map_to_list processed);
  Ok (pop_all remove processed).

(** The block that [cleanup_rule_memory] and
    [cleanup_expired_aggregates] share: the keys whose deadline has
    passed ([now > alert_time]) leave [aggregate_alert_time] and
    [current_aggregate_id]. With the state, the number of keys found
    expired. *)
Definition expire_aggregates (now : Z) (st : agg_state) : result (agg_state * nat) :=
  do expired_keys <- collect_keys (fun alert_time => datetime_lt alert_time (VTime now))
                       (map_to_list (aggregate_alert_time st));
  Ok (mkAggState (pop_all expired_keys (current_aggregate_id st))
        (pop_all expired_keys (aggregate_alert_time st)) (agg_matches st),
      length expired_keys).

(** [cleanup_expired_aggregates()] over the aggregation state of the
    rules, each of which has the keys that [init_rule] gives it: the
    states after the call, and the number of entries cleaned or the
    exception that ended the loop. *)
Fixpoint cleanup_expired_aggregates (now : Z) (rules : list agg_state)
    : list agg_state * result Z :=
  match rules with
  | [] => ([], Ok 0)
  | st :: rest =>
      match expire_aggregates now st with
      | Raise ex => (st :: rest, Raise ex)
      | Ok (st', cleaned) =>
          let '(rest', out) := cleanup_expired_aggregates now rest in
          (st' :: rest', do count <- out; Ok (Z.of_nat cleaned + count))
      end
  end.

(** The memory of a rule that the cleanup works on. A rule that lacks
    the key [aggregate_alert_time] has no aggregation state. *)
Record rule_memory := mkRuleMemory {
  rm_processed_hits : gmap string value;
  rm_aggregation : option agg_state;
}.

(** [cleanup_rule_memory(rule)]. [now] is the clock of
    [remove_old_events], [now'] the one read for the aggregates;
    [has_garbage_collect] tells whether the rule type has the method,
    and [describe] is [str] on exceptions. An exception ends the
    cleanup where it is raised and is logged. The name [now] is bound
    only when the rule has [aggregate_alert_time], so the garbage
    collection of a rule without it raises [NameError]. *)
Definition cleanup_rule_memory {W : Type} (C : collaborators W) (describe : exn -> string)
    (c : conf) (now now' : Z) (r : rule) (query_delay : option Z) (has_garbage_collect : bool)
    (m : rule_memory) (w : W) : rule_memory * W * list effect :=
  let failed (m : rule_memory) (ex : exn) :=
    (m, w,
     [LogError ("Error cleaning up memory for rule " ++ name r ++ ": " ++ describe ex)]) in
  match remove_old_events c now r query_delay (rm_processed_hits m) with
  | Raise ex => failed m ex
  | Ok processed =>
      let m1 := mkRuleMemory processed (rm_aggregation m) in
      match rm_aggregation m with
      | Some st =>
          match expire_aggregates now' st with
          | Raise ex => failed m1 ex
          | Ok (st', _) =>
              let m2 := mkRuleMemory processed (Some st') in
              if has_garbage_collect then (m2, garbage_collect C now' w, []) else (m2, w, [])
          end
      | None =>
          if has_garbage_collect then failed m1 (OtherException "NameError") else (m1, w, [])
      end
  end.

(** ** Terms and aggregation queries, and the top counts of an alert *)

(** [d[key] = v] and [d.pop(key)] on the pairs of a dict. *)
Fixpoint assoc_set (key : string) (v : value) (kv : list (string * value))
    : list (string * value) :=
  match kv with
  | [] => [(key, v)]
  | (k, x) :: rest => if String.eqb k key then (k, v) :: rest else (k, x) :: assoc_set key v rest
  end.

Fixpoint assoc_remove (key : string) (kv : list (string * value)) : list (string * value) :=
  match kv with
  | [] => []
  | (k, x) :: rest => if String.eqb k key then rest else (k, x) :: assoc_remove key rest
  end.

(** [if 'sort' in query_element: query_element.pop('sort')]. On a list
    the test looks for the element ['sort'] and [pop] wants an index; on
    a string it looks for the substring and there is no [pop]; the other
    values are no containers. *)
Definition pop_sort (query_element : value) : result value :=
  match query_element with
  | VDict kv => Ok (VDict (assoc_remove "sort" kv))
  | VList l =>
      if existsb (fun x => match x with VStr s => String.eqb s "sort" | _ => false end) l
      then Raise (OtherException "TypeError")
      else Ok query_element
  | VStr s =>
      if contains "sort" s then Raise (OtherException "AttributeError") else Ok query_element
  | _ => Raise (OtherException "TypeError")
  end.

(** The common start of the two builders: [query['query']] without its
    key [sort], and the query with that element in its place (the
    element is changed in place). *)
Definition without_sort (query : value) : result (list (string * value)) :=
  match query with
  | VDict kv =>
      do query_element <- getitem "query" (assoc "query" kv);
      do query_element <- pop_sort query_element;
      Ok (assoc_set "query" query_element kv)
  | _ => Raise (OtherException "TypeError")
  end.

(** The [terms] element of an aggregation. *)
Definition terms_element (field : string) (size : value) (min_doc_count : option value)
    : value :=
  VDict [("field", VStr field); ("size", size);
         ("min_doc_count", default (VInt 1) min_doc_count)].

(** [get_terms_query(query, rule, size, field)]; [min_doc_count] is
    [rule.get('min_doc_count')] when the rule has the key. *)
Definition get_terms_query (query : value) (min_doc_count : option value) (size : value)
    (field : string) : result value :=
  do kv <- without_sort query;
  Ok (VDict (assoc_set "aggs"
               (VDict [("counts",
                        VDict [("terms", terms_element field size min_doc_count)])]) kv)).

(** [s.split(sep)] for a separator of one character; [piece] is the
    part read since the last separator. *)
Fixpoint split_on (sep : ascii) (piece : string) (s : string) : list string :=
  match s with
  | EmptyString => [piece]
  | String ch rest =>
      if Ascii.eqb ch sep then piece :: split_on sep "" rest
      else split_on sep (piece ++ String ch "") rest
  end.

(** The keys of a rule that the aggregation query reads. *)
Record aggregation_rule := mkAggregationRule {
  metric_agg_element : value;               (* rule['aggregation_query_element'] *)
  bucket_interval_period : option value;
  agr_bucket_offset_delta : option Z;
  agr_min_doc_count : option value;
}.

(** [get_aggregation_query(query, rule, query_key, terms_size,
    timestamp_field)] *)
Definition get_aggregation_query (query : value) (r : aggregation_rule)
    (query_key : option string) (terms_size : value) (timestamp_field : string)
    : result value :=
  do kv <- without_sort query;
  let aggs_element :=
    match bucket_interval_period r with
    | Some period =>
        let date_histogram := [("field", VStr timestamp_field); ("fixed_interval", period)] in
        let date_histogram :=
          match agr_bucket_offset_delta r with
          | Some delta =>
              if delta =? 0 then date_histogram
              else date_histogram ++ [("offset", VStr ("+" ++ pretty delta ++ "s"))]
          | None => date_histogram
          end in
        VDict [("interval_aggs",
                VDict [("date_histogram", VDict date_histogram);
                       ("aggs", metric_agg_element r)])]
    | None => metric_agg_element r
    end in
  let aggs_element :=
    match query_key with
    | Some keys =>
        foldr (fun key inner =>
                 VDict [("bucket_aggs",
                         VDict [("terms", terms_element key terms_size (agr_min_doc_count r));
                                ("aggs", inner)])])
          aggs_element (split_on "," "" keys)
    | None => aggs_element
    end in
  Ok (VDict (assoc_set "aggs" aggs_element kv)).

(** The characters that [\s] matches in a pattern on text, among the
    code points below 256. *)
Definition is_space (ch : ascii) : bool :=
  let n := nat_of_ascii ch in
  ((9 <=? n) && (n <=? 13) || (28 <=? n) && (n <=? 32) || (n =? 133) || (n =? 160))%nat.

(** [re.split(r',\s*', s)]: the text is cut at every comma, and the
    white space that follows a comma goes with it. [after_comma] tells
    that nothing but white space was read since the last comma. *)
Fixpoint split_commas (after_comma : bool) (piece : string) (s : string) : list string :=
  match s with
  | EmptyString => [piece]
  | String ch rest =>
      if Ascii.eqb ch "," then piece :: split_commas true "" rest
      else if after_comma && is_space ch then split_commas true piece rest
      else split_commas false (piece ++ String ch "") rest
  end.

(** [s.endswith(suffix)] *)
Definition endswith (s suffix : string) : bool :=
  (String.length suffix <=? String.length s)%nat
  && String.eqb (String.substring (String.length s - String.length suffix)
                   (String.length suffix) s) suffix.

(** The keys of a rule that the terms queries read. *)
Record terms_rule := mkTermsRule {
  tr_name : string;
  tr_filter : list value;
  tr_timestamp_field : string;
  tr_dt_to_ts : Z -> value;
  tr_compound_query_key : option (list string);
  tr_query_key : option string;
  tr_raw_count_keys : option bool;
  tr_terms_size : option Z;
  tr_min_doc_count : option value;
  tr_top_count_number : option Z;
}.

(** The warning of [query_key_filters] when the values and the keys
    differ in number. *)
Definition key_count_warning (values keys : nat) (qk_value_csv : string) : string :=
  "Received " ++ pretty values ++ " value(s) for " ++ pretty keys ++ " key(s)."
    ++ " Did '" ++ qk_value_csv ++ "' have a value with a comma?"
    ++ " See https://github.com/jertel/elastalert2/pull/1330#issuecomment-1849962106".

(** The key of a term filter: with [raw_count_keys] (the default) the
    key gets the suffix [.keyword] unless it ends with it. *)
Definition term_key (r : terms_rule) (key : string) : string :=
  if default true (tr_raw_count_keys r) then
    if endswith key ".keyword" then key else (key ++ ".keyword")%string
  else key.

(** [query_key_filters(rule, qk_value_csv)], run to its end: the
    filters it yields, and the warning it logs. *)
Definition query_key_filters (r : terms_rule) (qk_value_csv : option string)
    : list effect * list value :=
  match qk_value_csv with
  | None => ([], [])
  | Some csv =>
      let qk_values := split_commas false "" csv in
      let query_keys :=
        match tr_compound_query_key r with
        | Some keys => keys
        | None => match tr_query_key r with Some key => [key] | None => [] end
        end in
      (if (length qk_values =? length query_keys)%nat then []
       else [LogWarning (key_count_warning (length qk_values) (length query_keys) csv)],
       zip_with (fun key v => VDict [("term", VDict [(term_key r key, VStr v)])])
         query_keys qk_values)
  end.

(** A bucket of a terms aggregation, and the answer of the backend to a
    terms query: an exception of the client, or a response, with the
    buckets of [aggregations.counts] when it has aggregations. *)
Record bucket := mkBucket {
  bucket_key : string;
  doc_count : Z;
}.

Inductive terms_outcome :=
  | TermsRaises (text : string)
  | TermsReturns (aggregations : option (list bucket)).

(** What [get_hits_terms] returns besides [None]: the empty dict, or
    the buckets under the end of the window. *)
Inductive terms_data :=
  | NoAggregations
  | Buckets (endtime : Z) (buckets : list bucket).

(** The query of [get_hits_terms]. *)
Definition terms_query (r : terms_rule) (starttime endtime : Z) (key : string)
    (qk : option string) (size : option Z) : list effect * result value :=
  let '(warned, filters) := query_key_filters r qk in
  let rule_filter := tr_filter r ++ filters in
  let base_query := get_query rule_filter (tr_dt_to_ts r starttime) (tr_dt_to_ts r endtime)
                      false (tr_timestamp_field r) false in
  let size := match size with Some n => n | None => default 50 (tr_terms_size r) end in
  (warned, get_terms_query base_query (tr_min_doc_count r) (VInt size) key).

(** [get_hits_terms(rule, starttime, endtime, index, key, qk, size)]:
    the effects, [thread_data.num_hits] after the call, and what the
    call returns. *)
Definition get_hits_terms (e : engine) (wb : writeback_doc -> index_response)
    (out : terms_outcome) (r : terms_rule) (starttime endtime : Z) (index : string)
    (key : string) (qk : option string) (size : option Z) (num_hits : Z)
    : list effect * Z * result (option terms_data) :=
  let '(warned, built) := terms_query r starttime endtime key qk size in
  match built with
  | Raise ex => (warned, num_hits, Raise ex)
  | Ok query =>
      match out with
      | TermsRaises text =>
          let message := ("Error running terms query: " ++ truncate_error text)%string in
          let data := Some (VDict [("rule", VStr (tr_name r)); ("query", query)]) in
          (warned ++ EsSearch index query :: handle_error e wb message data,
           num_hits, Ok None)
      | TermsReturns None => (warned ++ [EsSearch index query], num_hits, Ok (Some NoAggregations))
      | TermsReturns (Some buckets) =>
          (warned ++ [EsSearch index query], num_hits + Z.of_nat (length buckets),
           Ok (Some (Buckets endtime buckets)))
      end
  end.

(** [terms[key] = count] on the items of a dict, in the order of their
    first insertion. *)
Fixpoint count_set (key : string) (count : Z) (items : list (string * Z))
    : list (string * Z) :=
  match items with
  | [] => [(key, count)]
  | (k, x) :: rest =>
      if String.eqb k key then (k, count) :: rest else (k, x) :: count_set key count rest
  end.

(** [counts.sort(key=lambda x: x[1], reverse=True)]: a stable sort, the
    larger counts first; items of the same count keep their order. *)
Fixpoint insert_by_count (x : string * Z) (sorted : list (string * Z)) : list (string * Z) :=
  match sorted with
  | [] => [x]
  | y :: rest => if snd x <? snd y then y :: insert_by_count x rest else x :: sorted
  end.

Definition sort_by_count (counts : list (string * Z)) : list (string * Z) :=
  foldr insert_by_count [] counts.

(** [l[:n]] *)
Definition slice_to {A : Type} (n : Z) (l : list A) : list A :=
  if 0 <=? n then take (Z.to_nat n) l
  else take (Z.to_nat (Z.of_nat (length l) + n)) l.

(** The top counts for the buckets of one key:
    [dict(counts[:number])]. *)
Definition top_events (number : Z) (buckets : list bucket) : list (string * Z) :=
  let terms := foldl (fun terms b => count_set (bucket_key b) (doc_count b) terms) [] buckets in
  slice_to number (sort_by_count terms).

(** The loop of [get_top_counts] over the keys; [backend] answers the
    terms query of the key at a position of the list, [index] is what
    [get_index] returned. *)
Fixpoint top_counts_loop (e : engine) (wb : writeback_doc -> index_response)
    (backend : nat -> terms_outcome) (r : terms_rule) (starttime endtime : Z)
    (index : string) (number : Z) (qk : option string) (position : nat)
    (keys : list string) (all_counts : gmap string (list (string * Z))) (num_hits : Z)
    : list effect * Z * result (gmap string (list (string * Z))) :=
  match keys with
  | [] => ([], num_hits, Ok all_counts)
  | key :: rest =>
      let '(effs, num_hits, got) :=
        get_hits_terms e wb (backend position) r starttime endtime index key qk (Some number)
          num_hits in
      let continue (num_hits : Z) (top_events_count : list (string * Z)) :=
        let '(effs', num_hits, out) :=
          top_counts_loop e wb backend r starttime endtime index number qk (S position) rest
            (<[("top_events_" ++ key)%string := top_events_count]> all_counts) num_hits in
        (effs ++ effs', num_hits, out) in
      match got with
      | Raise ex => (effs, num_hits, Raise ex)
      | Ok None => continue num_hits []
      | Ok (Some NoAggregations) =>
          (* list(hits_terms.values())[0] on the empty dict *)
          (effs, num_hits, Raise IndexError)
      | Ok (Some (Buckets _ buckets)) =>
          (* get_hits_terms adds to num_hits, but these are not counted *)
          continue (num_hits - Z.of_nat (length buckets)) (top_events number buckets)
      end
  end.

(** [get_top_counts(rule, starttime, endtime, keys, number, qk)] *)
Definition get_top_counts (e : engine) (wb : writeback_doc -> index_response)
    (backend : nat -> terms_outcome) (r : terms_rule) (starttime endtime : Z)
    (index : string) (keys : list string) (number : option Z) (qk : option string)
    (num_hits : Z) : list effect * Z * result (gmap string (list (string * Z))) :=
  let number :=
    match number with
    | Some n => if n =? 0 then default 5 (tr_top_count_number r) else n
    | None => default 5 (tr_top_count_number r)
    end in
  top_counts_loop e wb backend r starttime endtime index number qk 0 keys ∅ num_hits.

(** ** The tick of a rule: schedule, exceptions, rule parameters *)

(** What the engine asks of the scheduler. *)
Inductive job_action :=
  | ModifyJob (job_id : string) (next_run_time : Z)
  | PauseJob (job_id : string).

(** The schedule keys of a rule. [next_starttime] and
    [next_min_starttime] are absent until a tick of a rule with
    [limit_execution] sets them, to [None] or to an instant. *)
Record schedule := mkSchedule {
  limit_execution : option string;
  limit_execution_coverage : bool;
  next_starttime : option (option Z);
  next_min_starttime : option (option Z);
  has_run_once : bool;
}.

(** [rule.get('limit_execution')], a cron expression, as a condition. *)
Definition limited (sch : schedule) : bool :=
  match limit_execution sch with
  | Some expression => negb (String.eqb expression "")
  | None => false
  end.

(** The block of [handle_rule_execution] that applies the execution
    time limit. [exec_next] is the next fire of the cron expression, in
    seconds. With the schedule keys, whether the tick ends here: a rule
    that has not run once and is outside its schedule is paused before
    it runs. *)
Definition apply_execution_limit (exec_next : Z) (r : rule) (endtime : Z) (sch : schedule)
    : schedule * bool :=
  if limited sch then
    (* if the estimated next endtime is not at least a minute past the
       next exec time, execution pauses after this run *)
    if endtime + run_every r <? exec_next - 59 then
      (mkSchedule (limit_execution sch) (limit_execution_coverage sch) (Some (Some exec_next))
         (Some (if limit_execution_coverage sch then Some exec_next else None))
         (has_run_once sch),
       negb (has_run_once sch))
    else
      (mkSchedule (limit_execution sch) (limit_execution_coverage sch) (Some None) (Some None)
         (has_run_once sch),
       false)
  else (sch, false).

(** [reset_rule_schedule(rule)]: the cursor after the call and what the
    scheduler is asked. *)
Definition reset_rule_schedule (r : rule) (sch : schedule) (k : cursor)
    : result (cursor * list job_action) :=
  if limited sch then
    do next <- getitem "next_starttime" (next_starttime sch);
    match next with
    | Some next_run =>
        do next_min <- getitem "next_min_starttime" (next_min_starttime sch);
        Ok (match next_min with
            | Some t => with_previous_endtime t (with_minimum_starttime t k)
            | None => k
            end,
            [ModifyJob (name r) next_run])
    | None => Ok (k, [])
    end
  else Ok (k, []).

(** [include_rule_params_in_matches(matches, rule)]: the matches after
    the call. [params] is [rule.get('include_rule_params_in_matches')],
    [rule_get] is [rule.get]. *)
Definition include_rule_params_in_matches (params : option (list string))
    (first_match_only : bool) (rule_get : string -> option value) (matches : list doc)
    : result (list doc) :=
  match default [] params with
  | [] => Ok matches
  | params =>
      let add (m : doc) : doc :=
        foldl (fun m param =>
                 <[("rule_param_" ++ param)%string := default VNone (rule_get param)]> m)
          m params in
      if first_match_only then
        match matches with
        | [] => Raise IndexError
        | m :: rest => Ok (add m :: rest)
        end
      else Ok (map add matches)
  end.

(** [self.rules] and [self.disabled_rules], each rule by its name. *)
Record rule_lists := mkRuleLists {
  el_rules : list string;
  el_disabled_rules : list string;
}.

(** [handle_uncaught_exception(exception, rule)]. [traceback] is the
    text of [traceback.format_exc()], [describe] is [str] on
    exceptions; the other arguments are those of [cleanup_rule_memory],
    which runs when the rule is disabled. *)
Definition handle_uncaught_exception {W : Type} (C : collaborators W)
    (describe : exn -> string) (traceback : string) (disable_rules_on_error : bool)
    (e : engine) (wb : writeback_doc -> index_response) (c : conf) (now now' : Z) (r : rule)
    (query_delay : option Z) (has_garbage_collect : bool) (exception : exn)
    (lists : rule_lists) (m : rule_memory) (w : W)
    : rule_lists * rule_memory * W * list effect * list job_action :=
  let msg := ("Uncaught exception running rule " ++ name r ++ ": " ++ describe exception)%string in
  let report :=
    LogError traceback :: handle_error e wb msg (Some (VDict [("rule", VStr (name r))])) in
  if disable_rules_on_error then
    let lists' :=
      mkRuleLists
        (List.filter (fun running_rule => negb (String.eqb running_rule (name r)))
           (el_rules lists))
        (el_disabled_rules lists ++ [name r]) in
    let '(m', w', cleaned) :=
      cleanup_rule_memory C describe c now now' r query_delay has_garbage_collect m w in
    (lists', m', w', report ++ cleaned ++ [Notify msg], [PauseJob (name r)])
  else (lists, m, w, report ++ [Notify msg], []).

Module ElastAlerter.
Section Alert.
Context {U : Util} {W : Type}.

(** [alert(matches, rule, alert_time, retried)]: [send_alert] inside an
    exception handler. The result is what [send_alert] returned, or
    [None]. *)
Definition alert (C : collaborators W) (describe : exn -> string) (traceback : string)
    (disable_rules_on_error : bool) (e : engine) (wb : writeback_doc -> index_response)
    (c : conf) (now now' : Z) (r : rule) (query_delay : option Z) (has_garbage_collect : bool)
    (matches : list doc) (ar : alert_rule) (alert_time : value) (retried : bool)
    (lists : rule_lists) (m : rule_memory) (w : W)
    : rule_lists * rule_memory * W * list effect * list job_action * option Z :=
  match send_alert e wb matches ar alert_time retried with
  | (effs, Ok sent) => (lists, m, w, effs, [], Some sent)
  | (effs, Raise exception) =>
      let '(lists', m', w', handled, jobs) :=
        handle_uncaught_exception C describe traceback disable_rules_on_error e wb c now now' r
          query_delay has_garbage_collect exception lists m w in
      (lists', m', w', effs ++ handled, jobs, None)
  end.

End Alert.
End ElastAlerter.

(** ** The index of a rule *)

(** [s.find(ch)] and [s.rfind(ch)]: the index of the first and of the
    last occurrence, -1 when there is none. *)
Fixpoint find (ch : ascii) (s : string) : Z :=
  match s with
  | EmptyString => -1
  | String c rest =>
      if Ascii.eqb c ch then 0
      else let i := find ch rest in if i <? 0 then -1 else i + 1
  end.

Fixpoint rfind (ch : ascii) (s : string) : Z :=
  match s with
  | EmptyString => -1
  | String c rest =>
      let i := rfind ch rest in
      if 0 <=? i then i + 1 else if Ascii.eqb c ch then 0 else -1
  end.

(** The position a slice bound stands for in a text of length [len]:
    a negative bound counts from the end, and the result is kept
    within the text. *)
Definition slice_bound (i : Z) (len : nat) : nat :=
  Z.to_nat (Z.min (Z.of_nat len) (Z.max 0 (if i <? 0 then Z.of_nat len + i else i))).

(** [s[:stop]] and [s[start:]]. *)
Definition string_until (stop : Z) (s : string) : string :=
  String.substring 0 (slice_bound stop (String.length s)) s.

Definition string_from (start : Z) (s : string) : string :=
  let n := slice_bound start (String.length s) in
  String.substring n (String.length s - n) s.

(** [get_index(rule, starttime, endtime)]. [format_index] is the
    function of [elastalert.util]; [index], [search_extra_index] and
    [use_strftime_index] are the keys of the rule. *)
Definition get_index (format_index : string -> Z -> Z -> bool -> string)
    (index : string) (search_extra_index use_strftime_index : bool)
    (starttime endtime : option Z) : string :=
  if use_strftime_index then
    match starttime, endtime with
    | Some s, Some e => format_index index s e search_extra_index
    | _, _ =>
        (* replace the substring containing format characters with a * *)
        let format_start := find "%" index in
        let format_end := rfind "%" index + 2 in
        (string_until format_start index ++ "*" ++ string_from format_end index)%string
    end
  else index.

(** ** Matches kept in memory for another try *)

(** [l.pop()]: the list without its last element, and that element. *)
Fixpoint pop {A : Type} (l : list A) : result (list A * A) :=
  match l with
  | [] => Raise IndexError
  | [x] => Ok ([], x)
  | x :: rest => do popped <- pop rest; Ok (x :: fst popped, snd popped)
  end.

Section Retry.
Context {U : Util}.

(** The loop at the head of [run_rule] over [rule['agg_matches']]: each
    turn pops the last match and hands it to [add_aggregated_alert].
    [turns] is the length of the list when the loop starts, [x] the
    turn; [pending] and [now] give the answer of the writeback to the
    search for a pending aggregate and the clock in each turn. *)
Fixpoint retry_agg_matches (e : engine) (wb : writeback_doc -> index_response)
    (pending : nat -> pending_response) (cron : string -> Z -> option Z) (now : nat -> Z)
    (r : alert_rule) (turns x : nat) (st : agg_state) : result (agg_state * list effect) :=
  match turns with
  | O => Ok (st, [])
  | S turns' =>
      do popped <- pop (agg_matches st);
      do added <-
        add_aggregated_alert e wb (pending x) cron (now x) (snd popped) r
          (mkAggState (current_aggregate_id st) (aggregate_alert_time st) (fst popped));
      let '(_, st1, effs) := added in
      do rest <- retry_agg_matches e wb pending cron now r turns' (S x) st1;
      Ok (fst rest, effs ++ snd rest)
  end.

Definition retry_pending_matches (e : engine) (wb : writeback_doc -> index_response)
    (pending : nat -> pending_response) (cron : string -> Z -> option Z) (now : nat -> Z)
    (r : alert_rule) (st : agg_state) : result (agg_state * list effect) :=
  retry_agg_matches e wb pending cron now r (length (agg_matches st)) 0 st.

End Retry.

(** ** Count queries *)

(** The answer of the backend to a count request: an
    [ElasticsearchException] or the count. *)
Inductive count_outcome :=
  | CountRaises (text : string)
  | CountReturns (count : Z).

(** What a rule with [use_count_query] does to the outside world: the
    count request, the call of [add_count_data] with [{endtime: count}],
    and the effects it shares with the other modes. *)
Inductive count_effect :=
  | EsCount (index : string) (query : value)
  | AddCountData (endtime count : Z)
  | Core (ef : effect).

Section CountRunner.
Context {U : Util}.

(** [get_hits_count(rule, starttime, endtime, index)]: the dict
    [{endtime: count}] as a pair, or [None] after an error of the
    backend, which is reported. *)
Definition get_hits_count (e : engine) (wb : writeback_doc -> index_response)
    (out : count_outcome) (r : query_rule) (starttime endtime : Z) (index : string)
    (st : query_state) : list count_effect * query_state * option (Z * Z) :=
  let query := get_query (qr_filter r) (qr_dt_to_ts r starttime) (qr_dt_to_ts r endtime)
                 false (qr_timestamp_field r) false in
  match out with
  | CountRaises text =>
      let message := ("Error running count query: " ++ truncate_error text)%string in
      let data := Some (VDict [("rule", VStr (qr_name r)); ("query", query)]) in
      (EsCount index query :: map Core (handle_error e wb message data), st, None)
  | CountReturns count =>
      ([EsCount index query],
       mkQueryState (scroll_id st) (scrolling_cycle st) (processed_hits st)
         (num_hits st + count) (num_dupes st) (total_hits st),
       Some (endtime, count))
  end.

(** [run_query(rule, start, end, scroll)] for a rule with
    [use_count_query], with both bounds given and no [query_timezone];
    [index] is what [get_index] returned. [backend] and [depth] are
    those of [run_query]. *)
Fixpoint run_query_count (depth : nat) (e : engine) (wb : writeback_doc -> index_response)
    (backend : Z -> count_outcome) (r : query_rule) (start endtime : Z) (index : string)
    (st : query_state) : list count_effect * query_state * result bool :=
  match depth with
  | O => ([], st, Raise RuntimeError)
  | S depth' =>
      let cycle := scrolling_cycle st + 1 in
      let st0 := mkQueryState (scroll_id st) cycle (processed_hits st) (num_hits st)
                   (num_dupes st) (total_hits st) in
      let '(effs, st1, data) := get_hits_count e wb (backend cycle) r start endtime index st0 in
      match data with
      | None => (effs, st1, Ok false)   (* there was an exception while querying *)
      | Some (timestamp, count) =>
          (* a dict with one key is never empty: the count is handed on also when it is 0 *)
          let fed := [AddCountData timestamp count] in
          if scroll_on r st1 then
            let '(effs', st2, inner) :=
              run_query_count depth' e wb backend r start endtime index st1 in
            match inner with
            | Ok true =>
                let '(clean, st3) := cleanup_scroll_id st2 in
                (effs ++ fed ++ effs' ++ map Core clean, st3, Ok true)
            | Ok false =>
                let '(clean, st3) := cleanup_scroll_id st2 in
                let '(clean', st4) := cleanup_scroll_id st3 in
                (effs ++ fed ++ effs' ++ map Core (clean ++ clean'), st4, Ok false)
            | Raise RuntimeError =>
                let '(clean, st3) := cleanup_scroll_id st2 in
                (effs ++ fed ++ effs' ++ map Core clean, st3, Ok true)
            | Raise ex =>
                let '(clean, st3) := cleanup_scroll_id st2 in
                (effs ++ fed ++ effs' ++ map Core clean, st3, Raise ex)
            end
          else
            let '(clean, st2) := cleanup_scroll_id st1 in
            (effs ++ fed ++ map Core clean, st2, Ok true)
      end
  end.

End CountRunner.

(** * Definitions used to state the properties *)

(** ** Time cursor *)

(** Plain-search mode: no count, terms or aggregation query, and
    [scan_entire_timeframe] unset. *)
Definition plain_search (r : rule) : Prop :=
  use_count_query r = false /\ use_terms_query r = false /\
  aggregation_query_element r = false /\ scan_entire_timeframe r = false.

(** The start the cursor logic picks in plain-search mode when both
    bounds are present: the resume point when the buffer would reach
    behind it, else the earlier of the previous end and the buffer. *)
Definition search_start (m p buffer_delta : Z) : Z :=
  if buffer_delta <? m then m else Z.min p buffer_delta.

(** A tick that does not resume from a status document: the start time
    is already in the rule, or the writeback has no recent run. *)
Definition no_resume (c : conf) (now : Z) (last_run : status_response) (k : cursor) : Prop :=
  is_Some (starttime k) \/ get_starttime c now last_run = None.

(** A search rule with a five minute buffer, one minute after a run that
    ended at 300: the resume point is 0, the previous end 300. *)
Definition five_minute_conf : conf := mkConf 300 60 3600.
Definition plain_rule : rule :=
  mkRule "r" false false false false None 60 None false false false 1%positive false.
Definition second_tick : cursor := mkCursor (Some 240) (Some 0) (Some 300) (Some 240) None.


(** ** Silence and realert *)

(** The loop of the realert backoff as the specification words it:
    while [diff > realert * 2^exp] and [exp > 0], subtract that amount
    from [diff] and decrement [exp]. [while_decreasing r diff e diff' e']
    holds when the loop started at [(diff, e)] stops at [(diff', e')]. *)
Inductive while_decreasing (realert : Q) : Q -> Z -> Q -> Z -> Prop :=
  | while_exit diff e :
      ~ ((realert * (2 # 1) ^ e < diff)%Q /\ 0 < e) ->
      while_decreasing realert diff e diff e
  | while_turn diff e diff' e' :
      (realert * (2 # 1) ^ e < diff)%Q ->
      0 < e ->
      while_decreasing realert (diff - realert * (2 # 1) ^ e)%Q (e - 1) diff' e' ->
      while_decreasing realert diff e diff' e'.

(** The scenario of the specification: realert one minute, cap one
    hour. *)
Definition backoff_rule : silence_rule := mkSilenceRule (60 # 1) (Some (3600 # 1)%Q).

(** The cache does not decide for a key: no entry, or an expired one. *)
Definition cache_undecided (cache : silence_cache) (key : string) (now : Q) : Prop :=
  cache !! key = None \/
  exists until exp, cache !! key = Some (until, exp) /\ ~ (now < until)%Q.

Definition live_engine : engine := mkEngine false false false.
Definition debug_engine : engine := mkEngine true false false.

(** A silence document that lasts until 100, with exponent 2. *)
Definition stored_silence : silence_hit := mkSilenceHit (Some (100 # 1)%Q) (Some 2).

(** ** Utilities for the examples *)

(** Modelled from the spec: [lookup_es_key], [set_es_key] and [ts_to_dt]
    of [elastalert.util], which is not among the sources. The examples
    need them on flat (undotted) keys and on timestamps that are numbers
    of seconds only, and that is what these definitions cover. *)
Definition flat_lookup (d : doc) (key : string) : result value :=
  Ok (default VNone (d !! key)).

Definition flat_ts_to_dt (v : value) : result value :=
  match v with
  | VInt z => Ok (VTime z)
  | v => Ok v
  end.

Definition flat_str (v : value) : string :=
  match v with
  | VStr s => s
  | VInt z => pretty z
  | _ => ""
  end.

Definition flat_util : Util :=
  {| lookup_es_key := flat_lookup;
     set_es_key := fun d k v => <[k := v]> d;
     ts_to_dt := flat_ts_to_dt;
     py_str := flat_str;
     should_scrolling_continue := fun _ _ => true |}.

(** ** Aggregation queue *)

Definition email : alerter := mkAlerter (VDict [("type", VStr "email")]) "email" (fun _ => Sent).

(** A rule that aggregates by the field [host] for ten minutes. *)
Definition host_rule : alert_rule :=
  mkAlertRule "R" "@timestamp" [email] false None false [] (Some "host") false
    (AggregationDelta 600) false.

(** Group "A" is open with id "id1"; nothing is known of group "B". *)
Definition group_a_open : agg_state :=
  mkAggState {[ Some "A" := "id1" ]} {[ Some "A" := VTime 1600 ]} [].

(** A match of host "B", and the pending aggregate of "B" that a run
    before the restart left in the writeback. *)
Definition match_of_b : doc := {[ "host" := VStr "B"; "@timestamp" := VTime 1000 ]}.
Definition pending_b : pending_response :=
  PendingHits [mkPendingHit "id2" (Some (VTime 1500))].

(** ** Alert dispatcher *)

(** The alerters called, in the order of the calls, each by its info. *)
Definition alerter_calls (effs : list effect) : list value :=
  omap (fun ef => match ef with AlerterCalled info _ => Some info | _ => None end) effs.

(** The [elastalert] documents handed to the writeback, in order. *)
Definition alert_documents (effs : list effect) : list doc :=
  omap (fun ef => match ef with EsIndex _ (AlertDoc body) => Some body | _ => None end) effs.

Definition ran_without_raising (ms : list doc) (a : alerter) : bool :=
  match alert a ms with Sent => true | _ => false end.

(** An alerter that raises on these matches raises an [EAException]. *)
Definition raises_only_EAException (ms : list doc) (a : alerter) : Prop :=
  forall msg, alert a ms <> RaisesOther msg.

(** An alerter whose transport fails with an exception that is not an
    [EAException], followed by one that works. *)
Definition broken : alerter :=
  mkAlerter (VDict [("type", VStr "slack")]) "slack"
    (fun _ => RaisesOther "ConnectionResetError").
Definition refused : alerter :=
  mkAlerter (VDict [("type", VStr "jira")]) "jira"
    (fun _ => RaisesEAException "Error posting to jira").

Definition rule_alerting (alerters : list alerter) : alert_rule :=
  mkAlertRule "R" "@timestamp" alerters false None false [] None false
    (AggregationDelta 0) false.
Definition one_match : doc := {[ "@timestamp" := VTime 1000 ]}.

(** The text of the last [EAException] raised in a walk over the
    alerters, [init] when none raised. *)
Definition last_exception (ms : list doc) (alerters : list alerter) (init : value) : value :=
  fold_left
    (fun acc a => match alert a ms with RaisesEAException msg => VStr msg | _ => acc end)
    alerters init.

(** No match field can take the place of the body's [alert_sent]. *)
Definition keeps_alert_sent (r : alert_rule) (ms : list doc) : Prop :=
  ar_include_match_in_root r = false \/ Forall (fun m : doc => m !! "alert_sent" = None) ms.

(** ** Query runner *)

(** The rule with another value of [_source_enabled]. *)
Definition with_source_enabled (flag : option bool) (r : query_rule) : query_rule :=
  mkQueryRule (qr_name r) (qr_filter r) (qr_timestamp_field r) (qr_dt_to_ts r)
    (qr_ts_to_dt r) flag (qr_include r) (qr_include_fields r) (qr_max_scrolling_count r)
    (qr_query_key r) (qr_compound_query_key r) (qr_aggregation_key r)
    (qr_compound_aggregation_key r).

(** The metadata fields [_id], [_index] and [_type] of a hit, tacked
    into its [_source]. *)
Definition with_metadata (top src : doc) : doc :=
  foldr (fun field src => match top !! field with
                          | Some v => <[field := v]> src
                          | None => src
                          end) src ["_type"; "_index"; "_id"].

(** The value that [process_hits] finds for the timestamp of a hit. *)
Definition found_timestamp {U : Util} (r : query_rule) (h : hit) (ts : value) : Prop :=
  lookup_es_key (merged_source h) (qr_timestamp_field r) = Ok ts.

(** The events handed to the rule type, in order. *)
Definition fed_events (effs : list effect) : list doc :=
  concat (omap (fun ef => match ef with AddData data => Some data | _ => None end) effs).

(** A search rule on [@timestamp] whose hits come from stored fields. *)
Definition stored_fields_rule : query_rule :=
  mkQueryRule "R" [] "@timestamp" VInt flat_ts_to_dt (Some false) (VList []) None None
    None [] None [].

Definition hit_at (id : string) (t : Z) : hit :=
  mkHit {[ "_id" := VStr id ]} (Some {[ "@timestamp" := VInt t ]}) None.
Definition hit_without_timestamp (id : string) : hit :=
  mkHit {[ "_id" := VStr id ]} None (Some {[ "host" := VList [VStr "a"] ]}).

Definition fresh_state : query_state := mkQueryState None 0 ∅ 0 0 0.

(** The message that [get_hits] reports for an error text of more than
    1024 characters. *)
Definition truncated_message (text : string) : string :=
  ("Error running query: " ++ take_code_points 1024 text ++ "... ("
     ++ pretty (code_points text - 1024)%nat ++ " characters removed)")%string.

(** An error text of 1030 characters. *)
Definition long_text : string :=
  String.concat "" (repeat "gigantic error messa" 51) ++ "..........".

(** The search rule of the scenarios, hits with a [_source]. *)
Definition search_rule : query_rule := with_source_enabled (Some true) stored_fields_rule.



(** ** List enhancement of the filter *)

(** The text of one term in the query: [c:"t"], or [c:/re/] for a term
    between slashes. *)
Definition term_text (c : string) (term : string) : string :=
  if String.prefix "/" term && endswith_slash term then (c ++ ":" ++ term)%string
  else (c ++ ":" ++ dquote ++ term ++ dquote)%string.

(** The filter appended for a query text. *)
Definition query_string_filter (query : string) : value :=
  VDict [("query_string", VDict [("query", VStr query)])].

(** The rule of the scenario: whitelist alice, bob on the key [user]. *)
Definition whitelist_rule : list_rule :=
  mkListRule None None (Some ["alice"; "bob"]) (Some "user") (Some []).

(** ** Rule executor *)

(** Collaborators that do nothing; every query succeeds with one hit. *)
Definition idle : collaborators unit :=
  mkCollaborators (fun w => w) (fun _ _ w => (true, 1, w)) (fun _ w => w) (fun _ w => (0, w)).

(** The call of [run_rule] did not take the early exit and made a query
    that starts at [s]. *)
Definition queries_from {W : Type} (s : Z) (res : run_result W) : Prop :=
  ~ In (LogWarning future_start_warning) (run_effects res) /\
  exists e' rest, run_effects res = RunQuery s e' :: rest.

(** ** Vocabulary of the further properties *)


(** The status documents handed to the writeback. *)
Definition status_documents (effs : list effect) : list writeback_doc :=
  omap (fun ef =>
          match ef with
          | EsIndex doc_type body =>
              if String.eqb doc_type "elastalert_status" then Some body else None
          | _ => None
          end) effs.


(** Every query of the collaborators succeeds. *)
Definition queries_succeed {W : Type} (C : collaborators W) : Prop :=
  forall a b w, fst (fst (query C a b w)) = true.


(** An aggregation rule with buckets of one minute, synchronised or
    not. *)
Definition bucket_rule (sync : bool) : rule :=
  mkRule "a" false false true false (Some 300) 60 None false false true 60%positive sync.

(** Two outcomes of [is_silenced] that agree on the answer, on what was
    asked of the writeback, and on the entry that the cache holds for
    the key afterwards. *)
Definition same_silence (key : string)
    (a b : result (bool * silence_cache * list effect)) : Prop :=
  match a, b with
  | Ok (silenced, cache, effs), Ok (silenced', cache', effs') =>
      silenced = silenced' /\ effs = effs' /\ cache' !! key = cache !! key
  | Raise ex, Raise ex' => ex = ex'
  | _, _ => False
  end.

(** The event of hit "H1" at 10, as [process_hits] leaves it. *)
Definition event_h1 : doc := {[ "_id" := VStr "H1"; "@timestamp" := VTime 10 ]}.

(** Every deadline of the aggregation state is a [datetime]. *)
Definition deadlines_are_datetimes (st : agg_state) : Prop :=
  forall K v, aggregate_alert_time st !! K = Some v -> exists t, v = VTime t.

(** [st'] is [st] without the groups whose deadline is before [now]:
    such a group has lost its deadline and its id, every other group
    has kept both, and the matches held in memory are the same. *)
Definition expired_dropped (now : Z) (st st' : agg_state) : Prop :=
  agg_matches st' = agg_matches st /\
  forall K,
    match aggregate_alert_time st !! K with
    | Some (VTime t) =>
        if t <? now
        then aggregate_alert_time st' !! K = None /\ current_aggregate_id st' !! K = None
        else aggregate_alert_time st' !! K = Some (VTime t) /\
             current_aggregate_id st' !! K = current_aggregate_id st !! K
    | _ =>
        aggregate_alert_time st' !! K = None /\
        current_aggregate_id st' !! K = current_aggregate_id st !! K
    end.

(** The aggregation state of the rule of the cleanup test, at the clock
    1000: two groups an hour late, one due in an hour. *)
Definition test_rule1 : agg_state :=
  mkAggState
    {[ Some "expired_key1" := "id1"; Some "expired_key2" := "id2"; Some "active_key" := "id3" ]}
    {[ Some "expired_key1" := VTime (-2600); Some "expired_key2" := VTime (-2600);
       Some "active_key" := VTime 4600 ]}
    [].

(** The searches for a pending aggregate among the effects. *)
Definition pending_searches (effs : list effect) : list (string * option string) :=
  omap (fun ef =>
          match ef with
          | EsSearchPendingAggregate rule key => Some (rule, key)
          | _ => None
          end) effs.

(** The key of a group as [add_aggregated_alert] writes it into the
    body of a document: a key that is [None] or empty is not written. *)
Definition with_aggregation_key (K : option string) (body : doc) : doc :=
  match K with
  | Some k => if String.eqb k "" then body else <["aggregation_key" := VStr k]> body
  | None => body
  end.

(** A match of host "B", three minutes after [match_of_b]. *)
Definition second_match_of_b : doc := {[ "host" := VStr "B"; "@timestamp" := VTime 1180 ]}.

(** The body of the document of a match of [host_rule] whose alert is
    due at [t]. *)
Definition host_alert_body (m : doc) (t : Z) : doc :=
  match get_alert_body (U := flat_util) live_engine host_rule m false (VTime t) VNone with
  | Ok body => body
  | Raise _ => ∅
  end.

(** What a search for the silence documents of a key returns for a
    stored document: the hit with its [until] and [exponent]. *)
Definition silence_hit_of (d : writeback_doc) : option silence_hit :=
  match d with
  | SilenceDoc _ until exponent => Some (mkSilenceHit (Some until) (Some exponent))
  | _ => None
  end.

(** The silence documents handed to the writeback. *)
Definition silence_documents (effs : list effect) : list writeback_doc :=
  omap (fun ef =>
          match ef with
          | EsIndex doc_type body => if String.eqb doc_type "silence" then Some body else None
          | _ => None
          end) effs.

(** A text without a given character. *)
Fixpoint free_of (ch : ascii) (s : string) : Prop :=
  match s with
  | EmptyString => True
  | String c rest => c <> ch /\ free_of ch rest
  end.



(** A terms rule on the compound key [host, user]. *)
Definition host_user_rule : terms_rule :=
  mkTermsRule "T" [] "@timestamp" VInt (Some ["host"; "user.keyword"]) (Some "host,user.keyword")
    None None None None.


(** The aggregation that [get_terms_query] asks for. *)
Definition counts_aggregation (field : string) (size : value) (min_doc_count : option value)
    : value :=
  VDict [("counts", VDict [("terms", terms_element field size min_doc_count)])].

(** The aggregation inside the bucket aggregations of an aggregation
    query: the metric of the rule, within a date histogram when the
    rule has a bucket interval. *)
Definition innermost_aggregation (r : aggregation_rule) (timestamp_field : string) : value :=
  match bucket_interval_period r with
  | Some period =>
      let date_histogram := [("field", VStr timestamp_field); ("fixed_interval", period)] in
      let date_histogram :=
        match agr_bucket_offset_delta r with
        | Some delta =>
            if delta =? 0 then date_histogram
            else date_histogram ++ [("offset", VStr ("+" ++ pretty delta ++ "s"))]
        | None => date_histogram
        end in
      VDict [("interval_aggs",
              VDict [("date_histogram", VDict date_histogram);
                     ("aggs", metric_agg_element r)])]
  | None => metric_agg_element r
  end.

(** The fields of the bucket aggregations that an aggregation is nested
    in, from the outside in, down to a depth, and the aggregation found
    there. *)
Fixpoint bucket_fields (depth : nat) (aggs : value) : list string * value :=
  match depth with
  | O => ([], aggs)
  | S depth' =>
      match dict_get "bucket_aggs" aggs with
      | Some bucket =>
          match dict_get "terms" bucket, dict_get "aggs" bucket with
          | Some terms, Some inner =>
              match dict_get "field" terms with
              | Some (VStr field) =>
                  let '(fields, base) := bucket_fields depth' inner in (field :: fields, base)
              | _ => ([], aggs)
              end
          | _, _ => ([], aggs)
          end
      | None => ([], aggs)
      end
  end.

(** An aggregation rule that averages a field, in buckets of an hour
    that start 90 seconds off the grid. *)
Definition average_rule : aggregation_rule :=
  mkAggregationRule (VDict [("metric", VDict [("avg", VDict [("field", VStr "cpu")])])])
    (Some (VStr "1h")) (Some 90) None.



(** The number of top counts that [get_top_counts] asks for. *)
Definition top_count_number (r : terms_rule) (number : option Z) : Z :=
  match number with
  | Some n => if n =? 0 then default 5 (tr_top_count_number r) else n
  | None => default 5 (tr_top_count_number r)
  end.

(** The top counts that an answer of the backend gives: those of its
    buckets, none for a query that failed. *)
Definition top_events_of (number : Z) (out : terms_outcome) : list (string * Z) :=
  match out with
  | TermsReturns (Some buckets) => top_events number buckets
  | _ => []
  end.

(** Three buckets of a terms aggregation. *)
Definition three_buckets : list bucket :=
  [mkBucket "web1" 7; mkBucket "web2" 12; mkBucket "web3" 7].

(** The documents of every kind handed to the writeback. *)
Definition writes (effs : list effect) : list (string * writeback_doc) :=
  omap (fun ef => match ef with EsIndex doc_type body => Some (doc_type, body) | _ => None end)
    effs.

(** The matches handed to the debug alerter. *)
Definition debug_alerts (effs : list effect) : list (list doc) :=
  omap (fun ef => match ef with DebugAlerterCalled ms => Some ms | _ => None end) effs.



(** An enhancement that tags a match, and one that drops the matches of
    host "B". *)
Definition tag_match (m : doc) : enhancement_outcome :=
  Processed (<["tagged" := VBool true]> m).
Definition drop_host_b (m : doc) : enhancement_outcome :=
  match m !! "host" with
  | Some (VStr host) => if String.eqb host "B" then DropMatchException else Processed m
  | _ => Processed m
  end.

Definition match_of_a : doc := {[ "host" := VStr "A"; "@timestamp" := VTime 1000 ]}.

(** The search rule with enhancements. *)
Definition enhancing_rule (enhancements : list (doc -> enhancement_outcome)) : alert_rule :=
  mkAlertRule "R" "@timestamp" [email] false None false enhancements None false
    (AggregationDelta 0) false.

(** The writeback did not take a document. *)
Definition rejected (wb : writeback_doc -> index_response) (body : doc) : Prop :=
  exists msg, wb (AlertDoc body) = IndexRaises msg.

(** The document carries the id of a group. *)
Definition in_group (id : string) (body : doc) : Prop :=
  body !! "aggregate_id" = Some (VStr id).

(** The body of the document of a match whose alert was sent or not. *)
Definition rule_alert_body (r : alert_rule) (m : doc) (sent : bool) (time : value) : doc :=
  match get_alert_body (U := flat_util) live_engine r m sent time VNone with
  | Ok body => body
  | Raise _ => ∅
  end.

(** ** The tick of a rule *)

(** The message that reports an exception no handler of the rule
    caught. *)
Definition uncaught_message (describe : exn -> string) (r : rule) (ex : exn) : string :=
  "Uncaught exception running rule " ++ name r ++ ": " ++ describe ex.

(** The rules still running once [rule_name] is taken out. *)
Definition without_rule (rule_name : string) (running : list string) : list string :=
  List.filter (fun running_rule => negb (String.eqb running_rule rule_name)) running.

(** A rule limited to a cron schedule, with coverage of the time
    outside the schedule prevented, that has run before. *)
Definition office_hours : schedule :=
  mkSchedule (Some "* 9-17 * * *") true None None true.

(** The key under which a rule parameter is copied into a match. *)
Definition rule_param (param : string) : string := "rule_param_" ++ param.

Definition describe_class (ex : exn) : string :=
  match ex with
  | OtherException text => text
  | _ => "error"
  end.

(** The rule "r" with three alerters, the second of which fails with an
    exception that is not an [EAException]; its memory; and the rules of
    the engine. *)
Definition failing_alert_rule : alert_rule :=
  mkAlertRule "r" "@timestamp" [refused; broken; email] false None false [] None false
    (AggregationDelta 0) false.
Definition empty_memory : rule_memory := mkRuleMemory ∅ None.
Definition two_running : rule_lists := mkRuleLists ["q"; "r"] [].

(** [m'] is [m] with the parameters [params] of the rule copied into
    it, and nothing else changed. *)
Definition carries_rule_params (rule_get : string -> option value) (params : list string)
    (m m' : doc) : Prop :=
  (forall param, In param params ->
     m' !! rule_param param = Some (default VNone (rule_get param))) /\
  (forall key, (forall param, In param params -> key <> rule_param param) ->
     m' !! key = m !! key).

(** A rule whose owner is set and whose priority is not. *)
Definition owned_rule (key : string) : option value :=
  if String.eqb key "owner" then Some (VStr "ops") else None.

(** ** The index of a rule *)


Definition no_format_index (index : string) (s e : Z) (add_extra : bool) : string := index.

(** ** Matches kept in memory *)

(** The writeback takes no document, or every document. *)
Definition writeback_down (wb : writeback_doc -> index_response) : Prop :=
  forall body, exists msg, wb body = IndexRaises msg.
Definition writeback_up (wb : writeback_doc -> index_response) : Prop :=
  forall body, exists id, wb body = Indexed id.

(** Two matches of [host_rule] wait in memory. *)
Definition two_waiting : agg_state := mkAggState ∅ ∅ [match_of_a; second_match_of_b].

(** The loop over the two matches with a writeback that takes every
    document, and with one that takes none; the clock is at 1200 in the
    first turn. *)
Definition retry_two (wb : writeback_doc -> index_response) : result (agg_state * list effect) :=
  retry_pending_matches (U := flat_util) live_engine wb (fun _ => PendingHits [])
    (fun _ _ => None) (fun x => 1200 + Z.of_nat x) host_rule two_waiting.

Definition state_after (run : result (agg_state * list effect)) : agg_state :=
  match run with
  | Ok (st, _) => st
  | Raise _ => mkAggState ∅ ∅ []
  end.

Definition effects_of (run : result (agg_state * list effect)) : list effect :=
  match run with
  | Ok (_, effs) => effs
  | Raise _ => []
  end.

(** The match that each alert document handed to the writeback is made
    from. *)
Definition matches_offered (effs : list effect) : list (option value) :=
  map (fun body : doc => body !! "match_body") (alert_documents effs).

(** ** Count queries *)

(** The counts handed to the rule type, and the count requests made,
    in order. *)
Definition counts_fed (effs : list count_effect) : list (Z * Z) :=
  omap (fun ef => match ef with AddCountData t n => Some (t, n) | _ => None end) effs.

Definition count_requests (effs : list count_effect) : list (string * value) :=
  omap (fun ef => match ef with EsCount index q => Some (index, q) | _ => None end) effs.

Definition total (counts : list (Z * Z)) : Z := foldr (fun p acc => snd p + acc) 0 counts.

(** The query of a count request: the filters of the rule within
    (start, end], without a sort. *)
Definition count_query (r : query_rule) (start endtime : Z) : value :=
  get_query (qr_filter r) (qr_dt_to_ts r start) (qr_dt_to_ts r endtime) false
    (qr_timestamp_field r) false.

(** ** Alerters that all fail *)

(** A second alerter that raises an [EAException], with another text,
    and a rule whose two alerters both fail. *)
Definition declined : alerter :=
  mkAlerter (VDict [("type", VStr "email")]) "email"
    (fun _ => RaisesEAException "Error connecting to SMTP host").
Definition failing_rule : alert_rule := rule_alerting [refused; declined].

(** ** A rule with both lists *)

(** The rule of the scenario with a blacklist beside its whitelist. *)
Definition both_lists_rule : list_rule :=
  mkListRule None (Some ["root"]) (Some ["alice"; "bob"]) (Some "user") (Some []).

(** ** The pages of a run of [run_query] *)

Section Pages.
Context {U : Util}.






End Pages.



(** ** Error texts *)




(** * Properties *)

(** ** Time cursor *)

(** The two helpers leave the cursor alone outside aggregation mode. *)
Lemma adjust_overlap_no_aggregation r k :
  aggregation_query_element r = false ->
  adjust_start_time_for_overlapping_agg_query r k = Ok k.
Proof. intros H. unfold adjust_start_time_for_overlapping_agg_query. now rewrite H. Qed.

Lemma adjust_sync_no_aggregation r k endtime :
  aggregation_query_element r = false ->
  adjust_start_time_for_interval_sync r k endtime = Ok k.
Proof. intros H. unfold adjust_start_time_for_interval_sync. now rewrite H. Qed.

Lemma set_starttime_plain_search c now last_run r k endtime m p :
  plain_search r ->
  no_resume c now last_run k ->
  minimum_starttime k = Some m ->
  previous_endtime k = Some p ->
  set_starttime c now last_run r k endtime =
    Ok (with_starttime
          (search_start m p (endtime - default (conf_buffer_time c) (buffer_time r))) k).
Proof.
  intros (Hc & Ht & Ha & Hs) Hres Hm Hp.
  unfold set_starttime.
  assert (Hno : match starttime k with
                | None => if negb (scan_entire_timeframe r)
                          then get_starttime c now last_run else None
                | Some _ => None
                end = None).
  { destruct Hres as [[s Hk] | Hg].
    - now rewrite Hk.
    - destruct (starttime k); [reflexivity |]. now rewrite Hs. }
  rewrite Hno, Hc, Ht, Hs, Hm, Hp. cbn.
  set (bd := endtime - default (conf_buffer_time c) (buffer_time r)).
  unfold search_start.
  destruct (bd <? m) eqn:E1; cbn.
  - now apply adjust_sync_no_aggregation.
  - destruct (p <? bd) eqn:E2; cbn.
    + rewrite adjust_overlap_no_aggregation by assumption. cbn.
      rewrite adjust_sync_no_aggregation by assumption.
      replace (Z.min p bd) with p by lia. reflexivity.
    + rewrite adjust_sync_no_aggregation by assumption.
      replace (Z.min p bd) with bd by lia. reflexivity.
Qed.

(** C1 (counterexample): with buffer_time = 300, resume point 0 and
    previous end 300, the tick ending at 360 starts at 60, inside the
    previous window: the start is below max(0, 300) = 300. *)
Lemma set_starttime_overlaps_previous_window :
  exists k' s,
    plain_search plain_rule /\
    minimum_starttime second_tick = Some 0 /\
    previous_endtime second_tick = Some 300 /\
    set_starttime five_minute_conf 360 (StatusHits []) plain_rule second_tick 360 = Ok k' /\
    starttime k' = Some s /\
    s < Z.max 0 300.
Proof.
  exists (with_starttime 60 second_tick), 60.
  repeat split; reflexivity.
Qed.

(** C1 (amended): in plain-search mode, for a rule that carries
    minimum_starttime = m and previous_endtime = p and does not resume
    from a status document, set_starttime returns and the start s it
    sets is m when m > endtime - buffer_time and min(p, endtime -
    buffer_time) otherwise. So min(m, p) <= s <= max(m, p); and when
    m <= p, s = max(m, min(p, endtime - buffer_time)), which is at least
    the resume point m and at most the previous end p: no gap is left,
    and the windows overlap when s < p. The other cursor keys are
    unchanged. *)
Theorem set_starttime_search_window c now last_run r k endtime m p :
  plain_search r ->
  no_resume c now last_run k ->
  minimum_starttime k = Some m ->
  previous_endtime k = Some p ->
  exists k' s,
    set_starttime c now last_run r k endtime = Ok k' /\
    starttime k' = Some s /\
    s = search_start m p (endtime - default (conf_buffer_time c) (buffer_time r)) /\
    Z.min m p <= s <= Z.max m p /\
    (m <= p ->
     s = Z.max m (Z.min p (endtime - default (conf_buffer_time c) (buffer_time r))) /\
     m <= s <= p) /\
    minimum_starttime k' = Some m /\ previous_endtime k' = Some p.
Proof.
  intros Hplain Hres Hm Hp.
  set (bd := endtime - default (conf_buffer_time c) (buffer_time r)).
  exists (with_starttime (search_start m p bd) k), (search_start m p bd).
  split; [apply set_starttime_plain_search; assumption |].
  cbn. repeat split; try assumption; unfold search_start;
    destruct (Z.ltb_spec bd m); lia.
Qed.

Lemma set_starttime_search_window_witness :
  exists k' s,
    set_starttime five_minute_conf 360 (StatusHits []) plain_rule second_tick 360 = Ok k' /\
    starttime k' = Some s /\
    s = search_start 0 300 (360 - default (conf_buffer_time five_minute_conf) (buffer_time plain_rule)) /\
    Z.min 0 300 <= s <= Z.max 0 300 /\
    (0 <= 300 ->
     s = Z.max 0 (Z.min 300 (360 - default (conf_buffer_time five_minute_conf) (buffer_time plain_rule))) /\
     0 <= s <= 300) /\
    minimum_starttime k' = Some 0 /\ previous_endtime k' = Some 300.
Proof.
  apply (set_starttime_search_window five_minute_conf 360 (StatusHits []) plain_rule second_tick 360 0 300).
  - repeat split; reflexivity.
  - left. eexists. reflexivity.
  - reflexivity.
  - reflexivity.
Defined.

(** *** Resuming, and the bucket grid of aggregation rules *)

(** X1: on a fresh start (no starttime in the rule) of a rule that is
    not an aggregation query and does not scan its whole timeframe, a
    status document of the last run whose endtime t is younger than
    old_query_limit makes set_starttime resume: starttime and
    minimum_starttime both become t, whatever buffer_time is, and no
    other cursor key changes. A status document that is older counts as
    none: the start is the one computed without any status document. *)
Theorem set_starttime_resumes_last_run c now r k endtime t rest :
  starttime k = None ->
  scan_entire_timeframe r = false ->
  aggregation_query_element r = false ->
  (now - t < conf_old_query_limit c ->
   set_starttime c now (StatusHits (Some t :: rest)) r k endtime
   = Ok (mkCursor (Some t) (Some t) (previous_endtime k) (original_starttime k)
           (bucket_offset_delta k))) /\
  (conf_old_query_limit c <= now - t ->
   set_starttime c now (StatusHits (Some t :: rest)) r k endtime
   = set_starttime c now (StatusHits []) r k endtime).
Proof.
  intros Hfresh Hscan Hagg. unfold set_starttime. rewrite Hfresh, Hscan. cbn [negb get_starttime].
  split; intros Hage.
  - apply Z.ltb_lt in Hage. rewrite Hage.
    rewrite adjust_overlap_no_aggregation by assumption. cbn [bind].
    rewrite adjust_sync_no_aggregation by assumption. reflexivity.
  - apply Z.ltb_ge in Hage. now rewrite Hage.
Qed.

(** A restart at 1000 of the search rule, whose last run ended at 900. *)
Lemma set_starttime_resumes_last_run_witness :
  (1000 - 900 < conf_old_query_limit five_minute_conf ->
   set_starttime five_minute_conf 1000 (StatusHits [Some 900]) plain_rule
     (mkCursor None None None None None) 1000
   = Ok (mkCursor (Some 900) (Some 900) None None None)) /\
  (conf_old_query_limit five_minute_conf <= 1000 - 900 ->
   set_starttime five_minute_conf 1000 (StatusHits [Some 900]) plain_rule
     (mkCursor None None None None None) 1000
   = set_starttime five_minute_conf 1000 (StatusHits []) plain_rule
       (mkCursor None None None None None) 1000).
Proof.
  apply (set_starttime_resumes_last_run five_minute_conf 1000 plain_rule
           (mkCursor None None None None None) 1000 900 []); reflexivity.
Defined.

(** The start that the interval synchronisation leaves: the last
    multiple of the bucket interval that is not above the start. *)
Lemma adjust_sync_on_grid r k endtime s :
  aggregation_query_element r = true ->
  bucket_interval r = true ->
  starttime k = Some s ->
  adjust_start_time_for_interval_sync r k endtime
  = Ok (if sync_bucket_interval r
        then with_starttime (s - s mod Z.pos (bucket_interval_timedelta r)) k
        else with_bucket_offset_delta (s mod Z.pos (bucket_interval_timedelta r)) k).
Proof.
  intros Hagg Hbucket Hs. unfold adjust_start_time_for_interval_sync.
  rewrite Hagg, Hbucket, Hs. cbn [getitem bind]. now destruct (sync_bucket_interval r).
Qed.

(** The overlap adjustment leaves a start in the cursor. *)
Lemma adjust_overlap_keeps_start r k k' :
  adjust_start_time_for_overlapping_agg_query r k = Ok k' ->
  is_Some (starttime k) -> is_Some (starttime k').
Proof.
  unfold adjust_start_time_for_overlapping_agg_query. intros Hrun Hs.
  destruct (aggregation_query_element r); [| now inversion Hrun; subst].
  destruct (allow_buffer_time_overlap r && negb (use_run_every_query_size r));
    [| now inversion Hrun; subst].
  destruct (buffer_time r) as [bt |]; cbn [getitem bind] in Hrun; [| discriminate].
  destruct (run_every r <? bt); [| now inversion Hrun; subst].
  destruct (starttime k) as [s |]; cbn [getitem bind] in Hrun; [| discriminate].
  inversion Hrun; subst. cbn. eauto.
Qed.

(** X2: for an aggregation rule with a bucket interval I (not run as a
    count or terms query), every start that set_starttime computes, on
    a resume and on a later tick alike, lies on the bucket grid when
    sync_bucket_interval is set (starttime mod I = 0); without it the
    start is left alone and bucket_offset_delta records its distance to
    the grid, starttime mod I, a value from 0 to I - 1. *)
Theorem set_starttime_bucket_grid c now last_run r k endtime k' :
  aggregation_query_element r = true ->
  bucket_interval r = true ->
  use_count_query r = false ->
  use_terms_query r = false ->
  set_starttime c now last_run r k endtime = Ok k' ->
  exists s,
    starttime k' = Some s /\
    (sync_bucket_interval r = true -> s mod Z.pos (bucket_interval_timedelta r) = 0) /\
    (sync_bucket_interval r = false ->
     bucket_offset_delta k' = Some (s mod Z.pos (bucket_interval_timedelta r)) /\
     0 <= s mod Z.pos (bucket_interval_timedelta r) < Z.pos (bucket_interval_timedelta r)).
Proof.
  intros Hagg Hbucket Hcount Hterms Hrun.
  set (I := Z.pos (bucket_interval_timedelta r)).
  assert (Hgrid : forall k1 k2,
            is_Some (starttime k1) ->
            adjust_start_time_for_interval_sync r k1 endtime = Ok k2 ->
            exists s,
              starttime k2 = Some s /\
              (sync_bucket_interval r = true -> s mod I = 0) /\
              (sync_bucket_interval r = false ->
               bucket_offset_delta k2 = Some (s mod I) /\ 0 <= s mod I < I)).
  { intros k1 k2 [s Hs] Hsync.
    rewrite (adjust_sync_on_grid r k1 endtime s Hagg Hbucket Hs) in Hsync.
    fold I in Hsync.
    destruct (sync_bucket_interval r); inversion Hsync; subst k2; cbn.
    - exists (s - s mod I). split; [reflexivity |]. split; [| discriminate].
      intros _. rewrite Zminus_mod, Zmod_mod, Z.sub_diag. apply Zmod_0_l.
    - exists s. split; [assumption |]. split; [discriminate |].
      intros _. split; [reflexivity |]. apply Z.mod_pos_bound. subst I. lia. }
  unfold set_starttime in Hrun.
  destruct (match starttime k with
            | None => if negb (scan_entire_timeframe r)
                      then get_starttime c now last_run else None
            | Some _ => None
            end) as [last_run_end |].
  - (* resumed from the last run *)
    destruct (adjust_start_time_for_overlapping_agg_query r (with_starttime last_run_end k))
      as [k1 |] eqn:H1; cbn [bind] in Hrun; [| discriminate].
    destruct (adjust_start_time_for_interval_sync r k1 endtime) as [k2 |] eqn:H2;
      cbn [bind] in Hrun; [| discriminate].
    destruct (Hgrid k1 k2) as (s & Hs & Hon & Hoff);
      [apply (adjust_overlap_keeps_start _ _ _ H1); cbn; eauto | assumption |].
    rewrite Hs in Hrun. cbn [getitem bind] in Hrun. inversion Hrun; subst k'.
    exists s. cbn. split; [assumption |]. split; assumption.
  - rewrite Hcount, Hterms in Hrun. cbn [negb andb] in Hrun.
    destruct (if negb (scan_entire_timeframe r) then _ else _) as [buffer_delta |];
      cbn [bind] in Hrun; [| discriminate].
    destruct (if present_and_gt (minimum_starttime k) buffer_delta then _ else _)
      as [k1 |] eqn:H1; cbn [bind] in Hrun; [| discriminate].
    apply (Hgrid k1 k'); [| assumption].
    destruct (present_and_gt (minimum_starttime k) buffer_delta).
    + destruct (minimum_starttime k) as [m |]; cbn [getitem bind] in H1; [| discriminate].
      inversion H1; subst k1. cbn. eauto.
    + destruct (present_and_lt (previous_endtime k) buffer_delta).
      * destruct (previous_endtime k) as [p |]; cbn [getitem bind] in H1; [| discriminate].
        apply (adjust_overlap_keeps_start _ _ _ H1). cbn. eauto.
      * inversion H1; subst k1. cbn. eauto.
Qed.

(** A tick at 1000 of an aggregation rule with buckets of one minute and
    a buffer of 300: the start 700 becomes 660 when synchronised. *)
Lemma set_starttime_bucket_grid_witness :
  exists s,
    starttime (mkCursor (Some 660) None None None None) = Some s /\
    (sync_bucket_interval (bucket_rule true) = true ->
     s mod Z.pos (bucket_interval_timedelta (bucket_rule true)) = 0) /\
    (sync_bucket_interval (bucket_rule true) = false ->
     bucket_offset_delta (mkCursor (Some 660) None None None None)
     = Some (s mod Z.pos (bucket_interval_timedelta (bucket_rule true))) /\
     0 <= s mod Z.pos (bucket_interval_timedelta (bucket_rule true))
       < Z.pos (bucket_interval_timedelta (bucket_rule true))).
Proof.
  apply (set_starttime_bucket_grid five_minute_conf 1000 (StatusHits []) (bucket_rule true)
           (mkCursor (Some 0) None None None None) 1000
           (mkCursor (Some 660) None None None None)); reflexivity.
Defined.

(** ** Silence and realert *)

Lemma Qlt_bool_iff (a b : Q) : Qlt_bool a b = true <-> (a < b)%Q.
Proof.
  unfold Qlt_bool. rewrite negb_true_iff.
  split.
  - intros H. apply Qnot_le_lt. intros Hle.
    apply Qle_bool_iff in Hle. congruence.
  - intros H. destruct (Qle_bool b a) eqn:E; [| reflexivity].
    apply Qle_bool_iff in E. exfalso. exact (Qlt_not_le _ _ H E).
Qed.

Lemma Qlt_bool_false_iff (a b : Q) : Qlt_bool a b = false <-> ~ (a < b)%Q.
Proof.
  rewrite <- Qlt_bool_iff. destruct (Qlt_bool a b); split; intros H; congruence.
Qed.


(** The loop of the specification has one outcome. *)
Lemma while_decreasing_functional r diff e d1 e1 d2 e2 :
  while_decreasing r diff e d1 e1 ->
  while_decreasing r diff e d2 e2 ->
  d1 = d2 /\ e1 = e2.
Proof.
  intros H1. revert d2 e2.
  induction H1 as [diff e Hstop | diff e d1 e1 Hlt Hpos _ IH]; intros d2 e2 H2.
  - inversion H2; subst; [split; reflexivity |]. exfalso. apply Hstop. now split.
  - inversion H2; subst.
    + exfalso. match goal with H : ~ _ |- _ => apply H end. now split.
    + now apply IH.
Qed.

(** The loop stops with an exponent that is not above the one it
    started with, and that leaves the loop condition false. *)
Lemma while_decreasing_stops r diff e diff' e' :
  while_decreasing r diff e diff' e' ->
  e' <= e /\ ~ ((r * (2 # 1) ^ e' < diff')%Q /\ 0 < e').
Proof.
  induction 1 as [diff e Hstop | diff e d1 e1 Hlt Hpos _ IH].
  - split; [lia | assumption].
  - destruct IH as [Hle Hstop]. split; [lia | assumption].
Qed.

(** *** Microseconds and ranges *)


(** A whole number is left as it is. *)
Lemma round_half_even_whole (x : Q) (n : Z) : (x == inject_Z n)%Q -> round_half_even x = n.
Proof.
  intros Hx. unfold round_half_even.
  rewrite (Qfloor_comp _ _ Hx), Qfloor_Z.
  destruct (Qcompare_spec (x - inject_Z n) (1 # 2)) as [He | Hl | Hg];
    [lra | reflexivity | lra].
Qed.

Lemma timedelta_of_seconds_range (x : Q) :
  (timedelta_min <= round_half_even (x * (1000000 # 1)) <= timedelta_max ->
   exists wait,
     timedelta_of_seconds x = Ok wait /\
     (wait == inject_Z (round_half_even (x * (1000000 # 1))) / (1000000 # 1))%Q) /\
  (round_half_even (x * (1000000 # 1)) < timedelta_min \/
   timedelta_max < round_half_even (x * (1000000 # 1)) ->
   timedelta_of_seconds x = Raise OverflowError).
Proof.
  unfold timedelta_of_seconds.
  destruct (Z.leb_spec timedelta_min (round_half_even (x * (1000000 # 1))));
    destruct (Z.leb_spec (round_half_even (x * (1000000 # 1))) timedelta_max);
    cbn [andb]; (split; [intros ? | intros [? | ?]]); try lia; try reflexivity.
  eexists. split; [reflexivity | apply Qred_correct].
Qed.

Lemma datetime_add_range (t d : Q) :
  ((datetime_min <= t + d)%Q /\ (t + d <= datetime_max)%Q ->
   datetime_add t d = Ok (t + d)%Q) /\
  ((t + d < datetime_min)%Q \/ (datetime_max < t + d)%Q ->
   datetime_add t d = Raise OverflowError).
Proof.
  unfold datetime_add. split.
  - intros [Hlo Hhi]. apply Qle_bool_iff in Hlo, Hhi. now rewrite Hlo, Hhi.
  - intros Hout.
    destruct (Qle_bool datetime_min (t + d)) eqn:Hlo; [| reflexivity].
    destruct (Qle_bool (t + d) datetime_max) eqn:Hhi; [| reflexivity].
    apply Qle_bool_iff in Hlo, Hhi. exfalso.
    destruct Hout as [Hout | Hout]; [exact (Qlt_not_le _ _ Hout Hlo) |
                                     exact (Qlt_not_le _ _ Hout Hhi)].
Qed.

Lemma decrease_exponent_le turns r :
  forall diff e, snd (decrease_exponent turns r diff e) <= e.
Proof.
  induction turns as [| turns IH]; intros diff e; cbn [decrease_exponent]; [cbn; lia |].
  destruct (Qlt_bool _ _ && (0 <? e)); [| cbn; lia].
  specialize (IH (diff - r * (2 # 1) ^ e)%Q (e - 1)). lia.
Qed.





(** The scenario of the specification, run on the source's function:
    alerts at 0 s, 30 s, 70 s and 3 h give the deadlines +1 min, +2 min,
    +4 min and, after the long gap, +1 min again. *)
Example next_alert_time_scenario :
  next_alert_time backoff_rule ∅ "k" 0%Q = Ok ((0 + (60 # 1))%Q, 0) /\
  next_alert_time backoff_rule {[ "k" := ((60 # 1)%Q, 0) ]} "k" (30 # 1)%Q
    = Ok (((30 # 1) + (120 # 1))%Q, 1) /\
  next_alert_time backoff_rule {[ "k" := ((150 # 1)%Q, 1) ]} "k" (70 # 1)%Q
    = Ok (((70 # 1) + (240 # 1))%Q, 2) /\
  next_alert_time backoff_rule {[ "k" := ((310 # 1)%Q, 2) ]} "k" (10800 # 1)%Q
    = Ok (((10800 # 1) + (60 # 1))%Q, 0).
Proof. repeat split; vm_compute; reflexivity. Qed.

(** A deadline beyond the year 9999 is no datetime: a realert of 9000
    years on the first alert of a key. *)
Example next_alert_time_date_out_of_range :
  next_alert_time (mkSilenceRule (284012568000 # 1) None) ∅ "k" (1700000000 # 1)%Q
  = Raise OverflowError.
Proof. vm_compute. reflexivity. Qed.

(** C3 (counterexample): in debug mode a cache miss is not taken to the
    writeback. The newest silence document for the key lasts until 100
    and the clock is at 0, yet [is_silenced] issues no search, caches
    nothing and answers false. *)
Lemma is_silenced_debug_skips_storage :
  cache_undecided ∅ "k" 0%Q /\
  (0 < (100 # 1))%Q /\
  is_silenced debug_engine 0%Q 0%Q (SilenceHits [stored_silence]) (fun _ => Indexed "e1") "k" ∅
    = Ok (false, ∅, []).
Proof.
  split; [left; reflexivity |]. split; reflexivity.
Qed.

Lemma is_silenced_undecided_not_live cache key now :
  cache_undecided cache key now ->
  match cache !! key with
  | Some (until, _) => Qlt_bool now until
  | None => false
  end = false.
Proof.
  intros [-> | (u & exp & -> & Hexp)]; [reflexivity |].
  now apply Qlt_bool_false_iff.
Qed.

(** C3 (amended): is_silenced(k) returns true, touching nothing, when a
    cached entry (until, exponent) has now < until. When the cache does
    not decide (miss, or an expired entry, which is evicted): in debug
    mode it returns false without any query; outside debug mode it
    searches the writeback for the newest silence document of k, and if
    there is one, caches (until, exponent) of it (exponent 0 when the
    document has none) and returns whether now < until; if there is
    none, or the search raises, it returns false and caches nothing (on
    an exception the error is reported). *)
Theorem is_silenced_cache_then_storage (e : engine) (now now' : Q)
    (res : silence_response) (wb : writeback_doc -> index_response) (key : string)
    (cache : silence_cache) :
  (forall until exp,
     cache !! key = Some (until, exp) -> (now < until)%Q ->
     is_silenced e now now' res wb key cache = Ok (true, cache, [])) /\
  (cache_undecided cache key now ->
   (debug e = true ->
    is_silenced e now now' res wb key cache = Ok (false, delete key cache, [])) /\
   (debug e = false ->
    (forall until exp hits,
       res = SilenceHits (mkSilenceHit (Some until) exp :: hits) ->
       exists silenced,
         is_silenced e now now' res wb key cache
         = Ok (silenced, <[key := (until, default 0 exp)]> cache, [EsSearchSilence key]) /\
         (silenced = true <-> (now' < until)%Q)) /\
    (res = SilenceHits [] ->
     is_silenced e now now' res wb key cache
     = Ok (false, delete key cache, [EsSearchSilence key])) /\
    (forall msg,
       res = SilenceRaises msg ->
       exists report,
         is_silenced e now now' res wb key cache
         = Ok (false, delete key cache, EsSearchSilence key :: report) /\
         In (EsIndex "elastalert_error"
               (ErrorDoc ("Error while querying for alert silence status: " ++ msg)
                         (Some (VDict [("rule", VStr key)])))) report))).
Proof.
  split.
  - intros u exp Hc Hlt. unfold is_silenced. rewrite Hc.
    apply Qlt_bool_iff in Hlt. now rewrite Hlt.
  - intros Hund. unfold is_silenced.
    rewrite (is_silenced_undecided_not_live _ _ _ Hund).
    split; intros Hdbg; rewrite Hdbg; [reflexivity |].
    split; [| split].
    + intros u exp hits ->. cbn.
      rewrite lookup_delete_eq, insert_delete_eq.
      exists (Qlt_bool now' u). split; [reflexivity | apply Qlt_bool_iff].
    + intros ->. reflexivity.
    + intros msg ->. eexists. split; [reflexivity |].
      unfold handle_error, writeback. rewrite Hdbg.
      right. destruct (wb _); left; reflexivity.
Qed.

(** Outside debug mode, an expired entry for "k" and a stored silence
    that lasts until 100: the document is fetched and cached. *)
Lemma is_silenced_cache_then_storage_witness :
  exists silenced,
    is_silenced live_engine (50 # 1)%Q (51 # 1)%Q (SilenceHits [stored_silence])
      (fun _ => Indexed "e1") "k" {[ "k" := ((10 # 1)%Q, 0) ]}
    = Ok (silenced, <["k" := ((100 # 1)%Q, default 0 (Some 2))]> {[ "k" := ((10 # 1)%Q, 0) ]},
          [EsSearchSilence "k"]) /\
    (silenced = true <-> ((51 # 1) < (100 # 1))%Q).
Proof.
  apply (proj1 (proj2 (proj2 (is_silenced_cache_then_storage live_engine (50 # 1)%Q (51 # 1)%Q
           (SilenceHits [stored_silence]) (fun _ => Indexed "e1") "k"
           {[ "k" := ((10 # 1)%Q, 0) ]})
           (or_intror (ex_intro _ (10 # 1)%Q (ex_intro _ 0
              (conj eq_refl (fun H : ((50 # 1) < (10 # 1))%Q => Qlt_not_le _ _ H ltac:(discriminate)))))))
           eq_refl) (100 # 1)%Q (Some 2) []).
  reflexivity.
Defined.

(** *** The silence that an alert leaves *)

(** The loop of the backoff never takes the exponent below zero. *)
Lemma decrease_exponent_nonneg turns r :
  forall diff e, 0 <= e -> 0 <= snd (decrease_exponent turns r diff e).
Proof.
  induction turns as [| turns IH]; intros diff e He; [assumption |].
  cbn [decrease_exponent].
  destruct (Qlt_bool (r * (2 # 1) ^ e) diff); cbn [andb]; [| assumption].
  destruct (Z.ltb_spec 0 e); [apply IH; lia | assumption].
Qed.

Lemma realert_wait_lower (R : Q) (e : Z) :
  (0 < R)%Q -> 0 <= e -> (R <= R * (2 # 1) ^ e)%Q.
Proof.
  intros HR He.
  apply Qle_trans with (R * 1)%Q; [rewrite Qmult_1_r; apply Qle_refl |].
  apply Qmult_le_l; [assumption |].
  apply Qpower.Qpower_1_le; [discriminate | assumption].
Qed.

Lemma realert_wait_upper (R : Q) (e e' : Z) :
  (0 < R)%Q -> e <= e' -> (R * (2 # 1) ^ e <= R * (2 # 1) ^ e')%Q.
Proof.
  intros HR He. apply Qmult_le_l; [assumption |].
  apply Qpower.Qpower_le_compat_l; [assumption | discriminate].
Qed.

(** A whole number of microseconds, doubled any number of times, is a
    whole number of microseconds. *)
Lemma whole_microseconds_scaled (R : Q) (n e : Z) :
  (R * (1000000 # 1) == inject_Z n)%Q -> 0 <= e ->
  (R * (2 # 1) ^ e * (1000000 # 1) == inject_Z (n * 2 ^ e))%Q.
Proof.
  intros Hn He. rewrite inject_Z_mult, Qpower.Zpower_Qpower by assumption.
  rewrite <- Hn. change (inject_Z 2) with (2 # 1)%Q. ring.
Qed.

(** X6: with a cap on the backoff that is above realert (and realert a
    positive whole number of microseconds), for a key that is not
    cached, or cached with an exponent that is not negative and so small
    that realert * 2^(exponent + 1) is within the range of timedelta,
    and with timestamp + realert and timestamp + exponential_realert
    within the range of datetime, next_alert_time returns, the exponent
    it returns is not negative, and the deadline it returns lies between
    timestamp + realert and timestamp + exponential_realert. *)
Theorem next_alert_time_within_cap (r : silence_rule) (cache : silence_cache) (key : string)
    (timestamp cap : Q) (n : Z) :
  (0 < realert r)%Q ->
  (realert r * (1000000 # 1) == inject_Z n)%Q ->
  exponential_realert r = Some cap ->
  (realert r < cap)%Q ->
  (datetime_min <= timestamp + realert r)%Q ->
  (timestamp + cap <= datetime_max)%Q ->
  (forall last_until exp,
     cache !! key = Some (last_until, exp) ->
     0 <= exp < 1023 /\ n * 2 ^ (exp + 1) <= timedelta_max) ->
  exists until exponent,
    next_alert_time r cache key timestamp = Ok (until, exponent) /\
    0 <= exponent /\
    (timestamp + realert r <= until)%Q /\
    (until <= timestamp + cap)%Q.
Proof.
  intros HR Hn Hcap Hlt Hlo Hhi Hexp. unfold next_alert_time, seconds.
  assert (Hplain : (timestamp + realert r <= timestamp + cap)%Q).
  { apply Qplus_le_r. now apply Qlt_le_weak. }
  assert (Hfirst : datetime_add timestamp (realert r) = Ok (timestamp + realert r)%Q).
  { apply datetime_add_range. split; [assumption | lra]. }
  destruct (cache !! key) as [[last_until exp] |] eqn:Hc.
  2: { rewrite Hfirst. cbn [bind]. eexists _, _. split; [reflexivity |].
       repeat split; [lia | apply Qle_refl | assumption]. }
  destruct (Hexp _ _ eq_refl) as [[Hexp0 Hexp1] Hmax].
  unfold exponential_cap. rewrite Hcap.
  destruct (Qeq_bool cap 0) eqn:Hz.
  { apply Qeq_bool_iff in Hz. rewrite Hz in Hlt.
    exfalso. exact (Qlt_irrefl 0 (Qlt_trans _ _ _ HR Hlt)). }
  unfold scaled at 1. destruct (Z.leb_spec 1024 exp) as [? | _]; [lia |]. cbn [bind].
  set (diff := (timestamp - last_until)%Q).
  set (exponent :=
         if Qlt_bool diff (realert r * (2 # 1) ^ exp) then exp + 1
         else snd (decrease_exponent (Z.to_nat exp) (realert r) diff exp)).
  assert (Hnonneg : 0 <= exponent <= exp + 1).
  { subst exponent. destruct (Qlt_bool diff _); [lia |].
    pose proof (decrease_exponent_nonneg (Z.to_nat exp) (realert r) diff exp Hexp0).
    pose proof (decrease_exponent_le (Z.to_nat exp) (realert r) diff exp). lia. }
  destruct Hnonneg as [Hnonneg Hbound].
  unfold scaled. destruct (Z.leb_spec 1024 exponent) as [? | _]; [lia |]. cbn [bind].
  pose proof (whole_microseconds_scaled (realert r) n exponent Hn Hnonneg) as Hwhole.
  pose proof (round_half_even_whole _ _ Hwhole) as Hus.
  assert (Hn0 : 0 < n).
  { apply Z.lt_nge. intros Hneg. rewrite Zle_Qle in Hneg.
    assert (realert r * (1000000 # 1) <= 0)%Q by (rewrite Hn; exact Hneg). lra. }
  assert (Hrange : timedelta_min <= n * 2 ^ exponent <= timedelta_max).
  { split.
    - transitivity 0; [discriminate |]. apply Z.mul_nonneg_nonneg; [lia |].
      apply Z.pow_nonneg. lia.
    - transitivity (n * 2 ^ (exp + 1)); [| assumption].
      apply Z.mul_le_mono_nonneg_l; [lia |]. apply Z.pow_le_mono_r; lia. }
  rewrite <- Hus in Hrange.
  destruct (proj1 (timedelta_of_seconds_range (realert r * (2 # 1) ^ exponent)) Hrange)
    as (wait & -> & Hwait).
  rewrite Hus in Hwait. cbn [bind].
  assert (Hw : (wait == realert r * (2 # 1) ^ exponent)%Q).
  { rewrite Hwait, <- Hwhole. field. }
  pose proof (realert_wait_lower (realert r) exponent HR Hnonneg) as Hlower.
  destruct (Qle_bool cap wait) eqn:Hreached.
  - apply Qle_bool_iff in Hreached.
    assert (Hsecond : datetime_add timestamp cap = Ok (timestamp + cap)%Q).
    { apply datetime_add_range. split; [lra | assumption]. }
    rewrite Hsecond. cbn [bind]. eexists _, _. split; [reflexivity |].
    repeat split; [| assumption | apply Qle_refl].
    destruct (Z.eq_dec exponent 0) as [H0 | Hn0']; [| lia].
    exfalso. rewrite H0 in Hw. cbn in Hw. lra.
  - assert (Hbelow : (wait < cap)%Q).
    { apply Qlt_bool_iff. unfold Qlt_bool. now rewrite Hreached. }
    assert (Hsecond : datetime_add timestamp wait = Ok (timestamp + wait)%Q).
    { apply datetime_add_range. split; lra. }
    rewrite Hsecond. cbn [bind]. eexists _, _. split; [reflexivity |].
    repeat split; [assumption | lra | lra].
Qed.

(** The second alert of the scenario: cached (60, 0), now = 30. *)
Lemma next_alert_time_within_cap_witness :
  exists until exponent,
    next_alert_time backoff_rule {[ "k" := ((60 # 1)%Q, 0%Z) ]} "k" (30 # 1)%Q
    = Ok (until, exponent) /\
    0 <= exponent /\
    ((30 # 1) + realert backoff_rule <= until)%Q /\
    (until <= (30 # 1) + (3600 # 1))%Q.
Proof.
  apply (next_alert_time_within_cap backoff_rule {[ "k" := ((60 # 1)%Q, 0%Z) ]} "k"
           (30 # 1)%Q (3600 # 1)%Q 60000000).
  - reflexivity.
  - reflexivity.
  - reflexivity.
  - reflexivity.
  - vm_compute. discriminate.
  - vm_compute. discriminate.
  - intros last_until exp H.
    apply lookup_singleton_Some in H as [_ H]. inversion H. vm_compute.
    repeat split; discriminate.
Defined.

(** With a cap that is not above realert the exponent does go below
    zero: realert 10 s, cap 5 s, an entry with exponent 0 that expired
    20 s ago. *)
Example next_alert_time_below_zero :
  next_alert_time (mkSilenceRule (10 # 1) (Some (5 # 1)%Q)) {[ "k" := ((0 # 1)%Q, 0) ]} "k" (20 # 1)%Q
  = Ok (((20 # 1) + (5 # 1))%Q, -1).
Proof. vm_compute. reflexivity. Qed.

(** X16: set_realert writes through the cache. Whatever the writeback
    does (also in debug mode, where nothing is written), the entry
    (until, exponent) is cached for the key, and until the deadline
    is_silenced answers true for the key from the cache alone, without
    a search. Outside debug mode exactly one silence document is handed
    to the writeback, and an engine that starts with an empty cache and
    finds that document gets the same entry back from is_silenced. *)
Theorem set_realert_round_trip e wb key (deadline : Q) exponent (cache : silence_cache) :
  exists res effs,
    set_realert e wb key deadline exponent cache
    = (res, <[key := (deadline, exponent)]> cache, effs) /\
    (forall e' now now' res' wb',
       (now < deadline)%Q ->
       is_silenced e' now now' res' wb' key (<[key := (deadline, exponent)]> cache)
       = Ok (true, <[key := (deadline, exponent)]> cache, [])) /\
    (debug e = false ->
     silence_documents effs = [SilenceDoc key deadline exponent] /\
     forall e' now now' wb' hits,
       debug e' = false ->
       is_silenced e' now now'
         (SilenceHits (omap silence_hit_of (silence_documents effs) ++ hits)) wb' key ∅
       = Ok (Qlt_bool now' deadline, {[ key := (deadline, exponent) ]},
             [EsSearchSilence key])).
Proof.
  unfold set_realert.
  destruct (writeback e wb "silence" (SilenceDoc key deadline exponent)) as [res effs] eqn:Hwb.
  exists res, effs. split; [reflexivity |]. split.
  - intros e' now now' res' wb' Hlive. unfold is_silenced.
    rewrite lookup_insert_eq. apply Qlt_bool_iff in Hlive. now rewrite Hlive.
  - intros Hdbg.
    assert (Hdocs : silence_documents effs = [SilenceDoc key deadline exponent]).
    { unfold writeback in Hwb. rewrite Hdbg in Hwb.
      destruct (wb _); inversion Hwb; subst; [reflexivity |].
      now destruct (notify_all_errors e). }
    split; [exact Hdocs |].
    intros e' now now' wb' hits Hdbg'. rewrite Hdocs. unfold is_silenced.
    rewrite lookup_empty, Hdbg'. cbn.
    now rewrite lookup_delete_eq, delete_empty.
Qed.

(** ** Aggregation queue *)

(** Adopting a pending aggregate for key [K] installs the one-entry map
    [{K: id}] as [current_aggregate_id]: whatever the map held for
    another key is gone after the call. *)
Lemma add_aggregated_alert_adopt {U : Util} e wb cron now m r st K hit hits time res st' effs :
  get_aggregation_key_value r m = Ok K ->
  current_aggregate_id st !! K = None ->
  ar_compared_with_timestamp_field r = false ->
  pending_alert_time hit = Some time ->
  pending_id hit <> "" ->
  add_aggregated_alert e wb (PendingHits (hit :: hits)) cron now m r st = Ok (res, st', effs) ->
  forall K', K' <> K -> current_aggregate_id st' !! K' = None.
Proof.
  intros HK Hnone Hcmp Htime Hid Hrun K' Hne.
  unfold add_aggregated_alert in Hrun.
  rewrite HK in Hrun. cbn [bind] in Hrun.
  rewrite Hcmp in Hrun. cbn [bind] in Hrun.
  rewrite Hnone in Hrun. cbn [bind find_pending_aggregate_alert] in Hrun.
  rewrite Htime in Hrun. cbn [bind getitem] in Hrun.
  destruct (ts_to_dt time) as [alert_time |]; cbn [bind] in Hrun; [| discriminate].
  assert (Hset : negb (String.eqb (pending_id hit) "") = true).
  { apply negb_true_iff. now apply String.eqb_neq. }
  rewrite Hset in Hrun.
  destruct (get_alert_body _ _ _ _ _ _) as [body |]; cbn [bind] in Hrun; [| discriminate].
  match type of Hrun with
  | context [writeback ?a ?b ?c ?d] => destruct (writeback a b c d) as [[id |] effs']
  end; inversion Hrun; subst; cbn; now apply lookup_singleton_ne.
Qed.

(** C4 (failing input): the rule holds the open group "A" with id "id1";
    a match of key "B" arrives and the writeback holds a pending
    aggregate "id2" for "B". After the call the map is [{B: id2}]: the
    entry of "A", present before the call, is lost. *)
Theorem add_aggregated_alert_drops_other_keys :
  current_aggregate_id group_a_open !! Some "A" = Some "id1" /\
  exists res st' effs,
    add_aggregated_alert (U := flat_util) live_engine (fun _ => Indexed "id3") pending_b
      (fun _ _ => None) 1000 match_of_b host_rule group_a_open = Ok (res, st', effs) /\
    current_aggregate_id st' !! Some "B" = Some "id2" /\
    current_aggregate_id st' !! Some "A" = None /\
    aggregate_alert_time st' !! Some "A" = Some (VTime 1600).
Proof.
  split; [reflexivity |].
  eexists _, _, _. split; [vm_compute; reflexivity |].
  repeat split; reflexivity.
Qed.

(** *** Opening a group and joining it *)

Lemma writeback_no_pending_search e wb doc_type body :
  pending_searches (snd (writeback e wb doc_type body)) = [].
Proof.
  unfold writeback. destruct (debug e); [reflexivity |].
  destruct (wb body); [reflexivity |]. now destruct (notify_all_errors e).
Qed.

(** A match whose group is open and not yet due joins it: no search is
    made, the document carries the id of the group and its deadline, and
    the two maps of the rule stay as they are. *)
Lemma add_aggregated_alert_join {U : Util} e wb pending cron now m r st K id t body :
  get_aggregation_key_value r m = Ok K ->
  ar_compared_with_timestamp_field r = false ->
  current_aggregate_id st !! K = Some id ->
  id <> "" ->
  aggregate_alert_time st !! K = Some (VTime t) ->
  ts_to_dt (VTime now) = Ok (VTime now) ->
  now <= t ->
  get_alert_body e r m false (VTime t) VNone = Ok body ->
  let written := with_aggregation_key K (<["aggregate_id" := VStr id]> body) in
  let answer := writeback e wb "elastalert" (AlertDoc written) in
  add_aggregated_alert e wb pending cron now m r st
  = Ok (fst answer,
        match fst answer with
        | Some _ => st
        | None =>
            mkAggState (current_aggregate_id st) (aggregate_alert_time st)
              (agg_matches st ++ [m])
        end,
        snd answer).
Proof.
  intros HK Hcmp Hid Hne Htime Hdt Hdue Hbody. cbn zeta.
  unfold add_aggregated_alert.
  rewrite HK. cbn [bind]. rewrite Hcmp. cbn [bind]. rewrite Hid.
  assert (Hset : negb (String.eqb id "") = true).
  { apply negb_true_iff. now apply String.eqb_neq. }
  rewrite Hset, Htime, Hdt. cbn [bind datetime_lt].
  assert (Hlate : (t <? now) = false) by now apply Z.ltb_ge.
  rewrite Hlate. cbn [bind]. change (default VNone (Some (VTime t))) with (VTime t).
  rewrite Hset, Hbody. cbn [bind].
  unfold with_aggregation_key.
  destruct (writeback e wb "elastalert" _) as [[res |] effs]; reflexivity.
Qed.

(** X14: the aggregation protocol. The first match of a key K, for a
    rule that aggregates over a period d (counted from the clock) and
    with no group open or pending for K, opens a group: one search for
    a pending aggregate, a document without the id of a group, and the
    id that the writeback returns, with the deadline now + d, recorded
    for K. A second match of K that arrives by the deadline joins the
    group: no search is made, and its document carries that id as
    aggregate_id and has the deadline of the group as alert_time; the
    id and the deadline recorded for K stay. *)
Theorem add_aggregated_alert_groups_matches {U : Util} e wb cron now now2 m m2 r st K d
    body body2 id :
  debug e = false ->
  ar_compared_with_timestamp_field r = false ->
  ar_aggregation r = AggregationDelta d ->
  ar_aggregate_by_match_time r = false ->
  get_aggregation_key_value r m = Ok K ->
  get_aggregation_key_value r m2 = Ok K ->
  current_aggregate_id st !! K = None ->
  get_alert_body e r m false (VTime (now + d)) VNone = Ok body ->
  wb (AlertDoc (with_aggregation_key K body)) = Indexed id ->
  id <> "" ->
  ts_to_dt (VTime now2) = Ok (VTime now2) ->
  now2 <= now + d ->
  get_alert_body e r m2 false (VTime (now + d)) VNone = Ok body2 ->
  exists st1 res2 st2 effs2,
    add_aggregated_alert e wb (PendingHits []) cron now m r st
    = Ok (Some id, st1,
          [EsSearchPendingAggregate (ar_name r) K;
           EsIndex "elastalert" (AlertDoc (with_aggregation_key K body))]) /\
    current_aggregate_id st1 !! K = Some id /\
    aggregate_alert_time st1 !! K = Some (VTime (now + d)) /\
    (forall pending,
       add_aggregated_alert e wb pending cron now2 m2 r st1 = Ok (res2, st2, effs2)) /\
    pending_searches effs2 = [] /\
    alert_documents effs2
    = [with_aggregation_key K (<["aggregate_id" := VStr id]> body2)] /\
    current_aggregate_id st2 !! K = Some id /\
    aggregate_alert_time st2 !! K = Some (VTime (now + d)).
Proof.
  intros Hdbg Hcmp Hagg Hby HK HK2 Hnone Hbody Hwb Hne Hdt Hdue Hbody2.
  set (st1 := mkAggState (<[K := id]> (current_aggregate_id st))
                (<[K := VTime (now + d)]> (aggregate_alert_time st)) (agg_matches st)).
  assert (Hfirst : add_aggregated_alert e wb (PendingHits []) cron now m r st
                   = Ok (Some id, st1,
                         [EsSearchPendingAggregate (ar_name r) K;
                          EsIndex "elastalert" (AlertDoc (with_aggregation_key K body))])).
  { unfold add_aggregated_alert.
    rewrite HK. cbn [bind]. rewrite Hcmp. cbn [bind]. rewrite Hnone.
    cbn [bind find_pending_aggregate_alert]. unfold new_alert_time.
    rewrite Hagg, Hby. cbn [bind]. rewrite Hbody. cbn [bind].
    fold (with_aggregation_key K body).
    unfold writeback. rewrite Hdbg, Hwb. reflexivity. }
  assert (Hjoin := fun pending =>
            add_aggregated_alert_join e wb pending cron now2 m2 r st1 K id (now + d) body2
              HK2 Hcmp (lookup_insert_eq _ _ _) Hne (lookup_insert_eq _ _ _) Hdt Hdue Hbody2).
  cbn zeta in Hjoin.
  set (written := with_aggregation_key K (<["aggregate_id" := VStr id]> body2)) in *.
  set (answer := writeback e wb "elastalert" (AlertDoc written)) in *.
  exists st1, (fst answer),
    (match fst answer with
     | Some _ => st1
     | None => mkAggState (current_aggregate_id st1) (aggregate_alert_time st1)
                 (agg_matches st1 ++ [m2])
     end), (snd answer).
  split; [exact Hfirst |].
  split; [apply lookup_insert_eq |]. split; [apply lookup_insert_eq |].
  split; [exact Hjoin |].
  split; [apply writeback_no_pending_search |].
  split.
  - subst answer. unfold writeback. rewrite Hdbg.
    destruct (wb (AlertDoc written)); [reflexivity |]. now destruct (notify_all_errors e).
  - destruct (fst answer); split; apply lookup_insert_eq.
Qed.

(** Two matches of host "B", at 1000 and at 1180, for a rule that
    aggregates over ten minutes: the second joins the group "id1" that
    the first opened. *)
Lemma add_aggregated_alert_groups_matches_witness :
  exists st1 res2 st2 effs2,
    add_aggregated_alert (U := flat_util) live_engine (fun _ => Indexed "id1") (PendingHits [])
      (fun _ _ => None) 1000 match_of_b host_rule (mkAggState ∅ ∅ [])
    = Ok (Some "id1", st1,
          [EsSearchPendingAggregate (ar_name host_rule) (Some "B");
           EsIndex "elastalert"
             (AlertDoc (with_aggregation_key (Some "B") (host_alert_body match_of_b 1600)))]) /\
    current_aggregate_id st1 !! Some "B" = Some "id1" /\
    aggregate_alert_time st1 !! Some "B" = Some (VTime (1000 + 600)) /\
    (forall pending,
       add_aggregated_alert (U := flat_util) live_engine (fun _ => Indexed "id1") pending
         (fun _ _ => None) 1180 second_match_of_b host_rule st1 = Ok (res2, st2, effs2)) /\
    pending_searches effs2 = [] /\
    alert_documents effs2
    = [with_aggregation_key (Some "B")
         (<["aggregate_id" := VStr "id1"]> (host_alert_body second_match_of_b 1600))] /\
    current_aggregate_id st2 !! Some "B" = Some "id1" /\
    aggregate_alert_time st2 !! Some "B" = Some (VTime (1000 + 600)).
Proof.
  apply (add_aggregated_alert_groups_matches (U := flat_util) live_engine
           (fun _ => Indexed "id1") (fun _ _ => None) 1000 1180 match_of_b second_match_of_b
           host_rule (mkAggState ∅ ∅ []) (Some "B") 600
           (host_alert_body match_of_b 1600) (host_alert_body second_match_of_b 1600) "id1");
    try reflexivity.
  - discriminate.
  - lia.
Defined.

(** ** Alert dispatcher *)

(** C5 (counterexample): the first alerter raises an exception that is
    not an [EAException]. [send_alert] leaves with that exception after
    the first call: the second alerter is never invoked and no
    [elastalert] document is written. *)
Lemma send_alert_stops_at_other_exception :
  send_alert (U := flat_util) live_engine (fun _ => Indexed "id1") [one_match]
    (rule_alerting [broken; email]) (VTime 1000) true
  = ([AlerterCalled (get_info broken) [one_match]],
     Raise (OtherException "ConnectionResetError")).
Proof. reflexivity. Qed.

Lemma alerter_calls_app effs effs' :
  alerter_calls (effs ++ effs') = alerter_calls effs ++ alerter_calls effs'.
Proof. apply omap_app. Qed.

Lemma alert_documents_app effs effs' :
  alert_documents (effs ++ effs') = alert_documents effs ++ alert_documents effs'.
Proof. apply omap_app. Qed.

(** Reporting an error calls no alerter and writes no alert document. *)
Lemma handle_error_quiet e wb message data :
  alerter_calls (handle_error e wb message data) = [] /\
  alert_documents (handle_error e wb message data) = [].
Proof.
  unfold handle_error, writeback.
  destruct (debug e); [destruct (notify_all_errors e); split; reflexivity |].
  destruct (wb _), (notify_all_errors e); split; reflexivity.
Qed.

Lemma enhance_matches_quiet {U : Util} e wb rule process ms :
  alerter_calls (fst (enhance_matches e wb rule process ms)) = [] /\
  alert_documents (fst (enhance_matches e wb rule process ms)) = [].
Proof.
  induction ms as [| m ms IH]; [split; reflexivity |].
  cbn [enhance_matches].
  destruct (process m); try assumption.
  - destruct (enhance_matches e wb rule process ms) as [effs out]. exact IH.
  - destruct (enhance_matches e wb rule process ms) as [effs out]. cbn [fst] in *.
    rewrite alerter_calls_app, alert_documents_app.
    destruct IH as [-> ->].
    destruct (handle_error_quiet e wb ("Error running match enhancement: " ++ msg)
                (Some (VDict [("rule", VStr rule)]))) as [-> ->].
    split; reflexivity.
  - split; reflexivity.
Qed.

Lemma run_enhancements_quiet {U : Util} e wb rule enhancements :
  forall ms,
    alerter_calls (fst (run_enhancements e wb rule enhancements ms)) = [] /\
    alert_documents (fst (run_enhancements e wb rule enhancements ms)) = [].
Proof.
  induction enhancements as [| process rest IH]; intros ms; [split; reflexivity |].
  cbn [run_enhancements].
  pose proof (enhance_matches_quiet e wb rule process ms) as Hq.
  destruct (enhance_matches e wb rule process ms) as [effs [valid | ex]]; cbn [fst] in Hq;
    [| exact Hq].
  destruct valid as [| v valid]; [exact Hq |].
  specialize (IH (v :: valid)).
  destruct (run_enhancements e wb rule rest (v :: valid)) as [effs' out]. cbn [fst] in *.
  rewrite alerter_calls_app, alert_documents_app.
  destruct Hq as [-> ->], IH as [-> ->]. split; reflexivity.
Qed.

Lemma prepare_matches_quiet {U : Util} e wb r ms retried :
  alerter_calls (fst (prepare_matches e wb r ms retried)) = [] /\
  alert_documents (fst (prepare_matches e wb r ms retried)) = [].
Proof.
  unfold prepare_matches.
  destruct (negb (ar_run_enhancements_first r) && negb retried);
    [apply run_enhancements_quiet | split; reflexivity].
Qed.

(** The walk over the alerters when none raises anything but an
    [EAException]: every alerter is called, in the order of the list. *)
Lemma run_alerters_all_called e wb rule ms alerters :
  Forall (raises_only_EAException ms) alerters ->
  forall sent exception count,
  exists effs count',
    run_alerters e wb rule alerters ms (sent, exception, count)
    = (effs, Ok (sent || existsb (ran_without_raising ms) alerters,
                 last_exception ms alerters exception, count')) /\
    alerter_calls effs = map get_info alerters /\
    alert_documents effs = [].
Proof.
  induction 1 as [| a rest Ha _ IH]; intros sent exception count.
  - exists [], count. cbn. rewrite orb_false_r. repeat split; reflexivity.
  - cbn [run_alerters existsb last_exception fold_left map].
    unfold ran_without_raising at 1. unfold raises_only_EAException in Ha.
    destruct (alert a ms) as [| msg | ex] eqn:Hout.
    + destruct (IH true exception (count + 1)) as (effs & count' & -> & Hcalls & Hdocs).
      exists (AlerterCalled (get_info a) ms :: effs), count'.
      rewrite orb_true_r. cbn [orb]. unfold last_exception.
      repeat split; [| exact Hdocs].
      unfold alerter_calls in *. cbn. now rewrite Hcalls.
    + destruct (IH sent (VStr msg) count) as (effs & count' & -> & Hcalls & Hdocs).
      eexists _, count'. cbn [orb]. unfold last_exception.
      split; [reflexivity |].
      change (AlerterCalled (get_info a) ms :: ?l ++ effs)
        with ([AlerterCalled (get_info a) ms] ++ l ++ effs).
      rewrite !alerter_calls_app, !alert_documents_app, Hcalls, Hdocs.
      match goal with
      | |- context [handle_error ?x ?y ?z ?w] =>
          destruct (handle_error_quiet x y z w) as [-> ->]
      end.
      split; reflexivity.
    + exfalso. exact (Ha ex eq_refl).
Qed.

(** When no alerter of a non-empty list ran without raising, every
    alerter raised, and the exception kept is the text that the last
    alerter of the list raised. *)
Lemma last_exception_of_last ms alerters :
  Forall (raises_only_EAException ms) alerters ->
  existsb (ran_without_raising ms) alerters = false ->
  alerters <> [] ->
  forall init,
  exists earlier a msg,
    alerters = earlier ++ [a] /\ alert a ms = RaisesEAException msg /\
    last_exception ms alerters init = VStr msg.
Proof.
  intros Hraise Hnone Hne init.
  destruct (exists_last Hne) as (earlier & a & ->).
  apply Forall_app in Hraise as [_ Ha]. inversion Ha as [| ? ? Ha' _]; subst.
  rewrite existsb_app in Hnone. apply orb_false_elim in Hnone as [_ Hnone].
  cbn [existsb] in Hnone. rewrite orb_false_r in Hnone.
  unfold ran_without_raising in Hnone. unfold raises_only_EAException in Ha'.
  destruct (alert a ms) as [| msg | ex] eqn:Hout;
    [discriminate | | exfalso; exact (Ha' ex eq_refl)].
  exists earlier, a, msg. split; [reflexivity |]. split; [assumption |].
  unfold last_exception. rewrite fold_left_app. cbn [fold_left]. now rewrite Hout.
Qed.

(** The fields of an alert body that record the outcome. *)
Lemma get_alert_body_outcome {U : Util} e r m sent time exception body :
  get_alert_body e r m sent time exception = Ok body ->
  ar_include_match_in_root r = false \/ m !! "alert_sent" = None ->
  body !! "alert_sent" = Some (VBool sent) /\
  (sent = false -> body !! "alert_exception" = Some exception) /\
  (debug e = false -> ar_alert r <> []).
Proof.
  unfold get_alert_body. intros Hbody Hroot.
  destruct (if debug e then Ok (VDict []) else _) as [info |] eqn:Hinfo;
    cbn [bind] in Hbody; [| discriminate].
  set (body0 := <["match_body" := of_doc m]> _) in Hbody.
  set (body1 := if ar_include_match_in_root r then _ else body0) in Hbody.
  assert (H1 : body1 !! "alert_sent" = Some (VBool sent)).
  { subst body1. destruct (ar_include_match_in_root r) eqn:Hinc.
    - destruct Hroot as [? | Hm]; [discriminate |].
      rewrite lookup_union_r; [reflexivity |].
      apply map_lookup_filter_None. now left.
    - reflexivity. }
  destruct (if add_metadata_alert e then _ else Ok body1) as [body2 |] eqn:Hmeta;
    cbn [bind] in Hbody; [| discriminate].
  assert (H2 : body2 !! "alert_sent" = Some (VBool sent)).
  { destruct (add_metadata_alert e).
    - destruct (ar_metadata r) as [[[[c d] o] p] |]; [| discriminate].
      inversion Hmeta; subst body2. now rewrite !lookup_insert_ne by discriminate.
    - now inversion Hmeta; subst. }
  destruct (lookup_es_key m (ar_timestamp_field r)) as [match_time |];
    cbn [bind] in Hbody; [| discriminate].
  set (body3 := match match_time with VNone => body2 | _ => _ end) in Hbody.
  assert (H3 : body3 !! "alert_sent" = Some (VBool sent)).
  { subst body3. destruct match_time; try assumption;
      now rewrite lookup_insert_ne by discriminate. }
  inversion Hbody; subst body. split; [| split].
  - destruct sent; [assumption |]. now rewrite lookup_insert_ne by discriminate.
  - intros ->. apply lookup_insert_eq.
  - intros Hdbg. rewrite Hdbg in Hinfo. now destruct (ar_alert r).
Qed.

(** Every document of the last loop of [send_alert] carries the outcome
    of the walk. *)
Lemma write_alerts_documents {U : Util} e wb r sent time exception :
  forall ms agg_id body,
    Forall (fun m : doc => ar_include_match_in_root r = false \/ m !! "alert_sent" = None) ms ->
    In body (alert_documents (fst (write_alerts e wb r ms sent time exception agg_id))) ->
    body !! "alert_sent" = Some (VBool sent) /\
    (sent = false -> body !! "alert_exception" = Some exception) /\
    (debug e = false -> ar_alert r <> []).
Proof.
  induction ms as [| m ms IH]; intros agg_id body Hroot Hin; [contradiction |].
  cbn [write_alerts] in Hin.
  inversion Hroot as [| ? ? Hm Hms]; subst.
  destruct (get_alert_body e r m sent time exception) as [b |] eqn:Hb; [| contradiction].
  destruct (get_alert_body_outcome _ _ _ _ _ _ _ Hb Hm) as (Hsent & Hexc & Hne).
  set (b' := match agg_id with Some _ => _ | None => b end) in Hin.
  assert (Hb' : b' !! "alert_sent" = Some (VBool sent) /\
                (sent = false -> b' !! "alert_exception" = Some exception)).
  { subst b'. destruct agg_id as [id |]; [| now split].
    destruct (String.eqb id ""); [now split |].
    rewrite !lookup_insert_ne by discriminate. now split. }
  destruct (writeback e wb "elastalert" (AlertDoc b')) as [res effs] eqn:Hwb.
  match type of Hin with
  | context [write_alerts e wb r ms sent time exception ?id] =>
      specialize (IH id body Hms);
      destruct (write_alerts e wb r ms sent time exception id) as [effs' out]
  end.
  cbn [fst] in *. rewrite alert_documents_app in Hin.
  apply in_app_or in Hin as [Hin | Hin]; [| now apply IH].
  assert (body = b') as ->; [| destruct Hb'; now repeat split].
  unfold writeback in Hwb.
  destruct (debug e); [inversion Hwb; subst; contradiction |].
  destruct (wb (AlertDoc b')); inversion Hwb; subst; cbn in Hin.
  - now destruct Hin.
  - destruct (notify_all_errors e); cbn in Hin; now destruct Hin.
Qed.

(** Outside debug mode the last loop hands one document per match to the
    writeback, unless building a body raises. *)
Lemma write_alerts_one_per_match {U : Util} e wb r sent time exception :
  debug e = false ->
  forall ms agg_id,
    snd (write_alerts e wb r ms sent time exception agg_id) = Ok tt ->
    length (alert_documents (fst (write_alerts e wb r ms sent time exception agg_id)))
    = length ms.
Proof.
  intros Hdbg. induction ms as [| m ms IH]; intros agg_id Hok; [reflexivity |].
  cbn [write_alerts] in *.
  destruct (get_alert_body e r m sent time exception) as [b |]; [| discriminate].
  set (b' := match agg_id with Some _ => _ | None => b end) in *.
  destruct (writeback e wb "elastalert" (AlertDoc b')) as [res effs] eqn:Hwb.
  match type of Hok with
  | context [write_alerts e wb r ms sent time exception ?id] =>
      specialize (IH id);
      destruct (write_alerts e wb r ms sent time exception id) as [effs' out]
  end.
  cbn [fst snd] in *. rewrite alert_documents_app, length_app, (IH Hok).
  unfold writeback in Hwb. rewrite Hdbg in Hwb.
  destruct (wb (AlertDoc b')); inversion Hwb; subst; [reflexivity |].
  now destruct (notify_all_errors e).
Qed.

(** The last loop calls no alerter. *)
Lemma write_alerts_no_calls {U : Util} e wb r sent time exception :
  forall ms agg_id,
    alerter_calls (fst (write_alerts e wb r ms sent time exception agg_id)) = [].
Proof.
  induction ms as [| m ms IH]; intros agg_id; [reflexivity |].
  cbn [write_alerts].
  destruct (get_alert_body e r m sent time exception) as [b |]; [| reflexivity].
  set (b' := match agg_id with Some _ => _ | None => b end).
  destruct (writeback e wb "elastalert" (AlertDoc b')) as [res effs] eqn:Hwb.
  match goal with
  | |- context [write_alerts e wb r ms sent time exception ?id] =>
      specialize (IH id);
      destruct (write_alerts e wb r ms sent time exception id) as [effs' out]
  end.
  cbn [fst] in *. rewrite alerter_calls_app, IH, app_nil_r.
  unfold writeback in Hwb.
  destruct (debug e); [now inversion Hwb |].
  destruct (wb (AlertDoc b')); inversion Hwb; subst; [reflexivity |].
  now destruct (notify_all_errors e).
Qed.

(** C5 (amended): in send_alert outside debug mode, when the alerters
    raise nothing but EAException, every alerter of rule['alert'] is
    called, in list order, also after earlier ones raised (an exception
    of another class leaves send_alert at once: the later alerters do
    not run and nothing is written). Every elastalert document then
    written has alert_sent true exactly when at least one alerter ran
    without raising, provided no match field copied to the root by
    include_match_in_root is itself named alert_sent; when no alerter
    succeeded its alert_exception is the text of the exception raised
    last, that of the last alerter of the list; and when send_alert
    returns, one such document per match was handed to the
    writeback. *)
Theorem send_alert_outcome {U : Util} e wb matches r alert_time retried ms :
  debug e = false ->
  matches <> [] ->
  snd (prepare_matches e wb r matches retried) = Ok (Some ms) ->
  Forall (raises_only_EAException ms) (ar_alert r) ->
  keeps_alert_sent r ms ->
  let effs := fst (send_alert e wb matches r alert_time retried) in
  let sent := existsb (ran_without_raising ms) (ar_alert r) in
  alerter_calls effs = map get_info (ar_alert r) /\
  (forall body,
     In body (alert_documents effs) ->
     body !! "alert_sent" = Some (VBool sent) /\
     (sent = false ->
      exists earlier a msg,
        ar_alert r = earlier ++ [a] /\ alert a ms = RaisesEAException msg /\
        body !! "alert_exception" = Some (VStr msg))) /\
  (forall n,
     snd (send_alert e wb matches r alert_time retried) = Ok n ->
     length (alert_documents effs) = length ms).
Proof.
  intros Hdbg Hne Hprep Hraise Hkeep effs sent. subst effs.
  unfold send_alert.
  destruct matches as [| m0 matches]; [congruence |].
  pose proof (prepare_matches_quiet e wb r (m0 :: matches) retried) as [Hq1 Hq2].
  destruct (prepare_matches e wb r (m0 :: matches) retried) as [effs0 enhanced].
  cbn [fst snd] in *. subst enhanced. rewrite Hdbg.
  destruct (run_alerters_all_called e wb (ar_name r) ms (ar_alert r) Hraise false VNone 0)
    as (effs1 & count & -> & Hcalls & Hdocs).
  cbn [orb]. fold sent.
  assert (Hroot : Forall (fun m : doc =>
                    ar_include_match_in_root r = false \/ m !! "alert_sent" = None) ms).
  { destruct Hkeep as [Hoff | Hall].
    - apply Forall_forall. intros; now left.
    - eapply Forall_impl; [exact Hall |]. intros; now right. }
  pose proof (write_alerts_documents e wb r sent alert_time
                (last_exception ms (ar_alert r) VNone) ms None) as Hw.
  pose proof (write_alerts_one_per_match e wb r sent alert_time
                (last_exception ms (ar_alert r) VNone) Hdbg ms None) as Hn.
  pose proof (write_alerts_no_calls e wb r sent alert_time
                (last_exception ms (ar_alert r) VNone) ms None) as Hc.
  destruct (write_alerts e wb r ms sent alert_time
              (last_exception ms (ar_alert r) VNone) None) as [effs2 out].
  cbn [fst snd] in *.
  rewrite !alerter_calls_app, !alert_documents_app, Hq1, Hq2, Hcalls, Hdocs. cbn [app].
  split; [| split].
  - rewrite Hc. apply app_nil_r.
  - intros body Hin. destruct (Hw body Hroot Hin) as (Hs & He & Halerters).
    split; [assumption |]. intros Hnone.
    destruct (last_exception_of_last ms (ar_alert r) Hraise Hnone (Halerters Hdbg) VNone)
      as (earlier & a & msg & Ha & Hmsg & Hlast).
    exists earlier, a, msg. rewrite <- Hlast. auto.
  - intros n Hok. apply Hn. destruct out as [[] |]; [reflexivity | discriminate].
Qed.

(** Both alerters raise an EAException: both are called, and the
    document of the match records that the alert was not sent and the
    text of the second. *)
Lemma send_alert_outcome_witness :
  alerter_calls
    (fst (send_alert (U := flat_util) live_engine (fun _ => Indexed "id1") [one_match]
            failing_rule (VTime 1000) true))
  = map get_info (ar_alert failing_rule) /\
  (forall body,
     In body
       (alert_documents
          (fst (send_alert (U := flat_util) live_engine (fun _ => Indexed "id1") [one_match]
                  failing_rule (VTime 1000) true))) ->
     body !! "alert_sent"
     = Some (VBool (existsb (ran_without_raising [one_match]) (ar_alert failing_rule))) /\
     (existsb (ran_without_raising [one_match]) (ar_alert failing_rule) = false ->
      exists earlier a msg,
        ar_alert failing_rule = earlier ++ [a] /\
        alert a [one_match] = RaisesEAException msg /\
        body !! "alert_exception" = Some (VStr msg))) /\
  (forall n,
     snd (send_alert (U := flat_util) live_engine (fun _ => Indexed "id1") [one_match]
            failing_rule (VTime 1000) true) = Ok n ->
     length
       (alert_documents
          (fst (send_alert (U := flat_util) live_engine (fun _ => Indexed "id1") [one_match]
                  failing_rule (VTime 1000) true)))
     = length [one_match]).
Proof.
  apply (send_alert_outcome (U := flat_util) live_engine (fun _ => Indexed "id1") [one_match]
           failing_rule (VTime 1000) true [one_match]).
  - reflexivity.
  - discriminate.
  - reflexivity.
  - repeat constructor; intros ex; discriminate.
  - left. reflexivity.
Defined.

(** The same call: the one document written has [alert_sent] false and
    carries the text of the second alerter, not that of the first. *)
Example send_alert_records_last_exception :
  map (fun body : doc => (body !! "alert_sent", body !! "alert_exception"))
    (alert_documents
       (fst (send_alert (U := flat_util) live_engine (fun _ => Indexed "id1") [one_match]
               failing_rule (VTime 1000) true)))
  = [(Some (VBool false), Some (VStr "Error connecting to SMTP host"))].
Proof. vm_compute. reflexivity. Qed.

(** The same rule run: both alerters are called, the error of the first
    is reported, and one document with [alert_sent] true is written. *)
Example send_alert_second_alerter_runs :
  alerter_calls
    (fst (send_alert (U := flat_util) live_engine (fun _ => Indexed "id1") [one_match]
            (rule_alerting [refused; email]) (VTime 1000) true))
  = [get_info refused; get_info email] /\
  snd (send_alert (U := flat_util) live_engine (fun _ => Indexed "id1") [one_match]
         (rule_alerting [refused; email]) (VTime 1000) true) = Ok 1.
Proof. split; vm_compute; reflexivity. Qed.

(** *** The enhancements, debug mode, and the documents of one alert *)




(** The enhancement step does nothing but report errors: it does not
    call the debug alerter, and in debug mode it writes nothing. *)
Lemma prepare_matches_reports_only {U : Util} e wb r ms retried :
  debug_alerts (fst (prepare_matches e wb r ms retried)) = [] /\
  (debug e = true -> writes (fst (prepare_matches e wb r ms retried)) = []).
Proof.
  assert (Herr : forall message data,
            debug_alerts (handle_error e wb message data) = [] /\
            (debug e = true -> writes (handle_error e wb message data) = [])).
  { intros. unfold handle_error, writeback.
    destruct (debug e); [now destruct (notify_all_errors e) |].
    destruct (wb _), (notify_all_errors e); split; (reflexivity || discriminate). }
  assert (Hone : forall process ms,
            debug_alerts (fst (enhance_matches e wb (ar_name r) process ms)) = [] /\
            (debug e = true ->
             writes (fst (enhance_matches e wb (ar_name r) process ms)) = [])).
  { intros process. induction ms0 as [| m ms0 IH]; [now split |].
    cbn [enhance_matches]. destruct (process m); try assumption; try (now split).
    - now destruct (enhance_matches e wb (ar_name r) process ms0).
    - destruct (enhance_matches e wb (ar_name r) process ms0) as [effs out]. cbn [fst] in *.
      destruct (Herr ("Error running match enhancement: " ++ msg)%string
                  (Some (VDict [("rule", VStr (ar_name r))]))) as [Hd Hw].
      destruct IH as [IHd IHw]. unfold debug_alerts, writes in *. rewrite !omap_app.
      split; [now rewrite Hd, IHd | intros Hdbg; now rewrite (Hw Hdbg), (IHw Hdbg)]. }
  unfold prepare_matches.
  destruct (negb (ar_run_enhancements_first r) && negb retried); [| now split].
  revert ms. induction (ar_match_enhancements r) as [| process rest IH]; intros ms; [now split |].
  cbn [run_enhancements]. specialize (Hone process ms).
  destruct (enhance_matches e wb (ar_name r) process ms) as [effs [valid | ex]];
    [| exact Hone].
  destruct valid as [| v valid]; [exact Hone |].
  specialize (IH (v :: valid)).
  destruct (run_enhancements e wb (ar_name r) rest (v :: valid)) as [effs' out'].
  cbn [fst] in *. destruct Hone as [Hd Hw], IH as [IHd IHw].
  unfold debug_alerts, writes in *. rewrite !omap_app.
  split; [now rewrite Hd, IHd | intros Hdbg; now rewrite (Hw Hdbg), (IHw Hdbg)].
Qed.



(** The two matches run: the match of host "A" reaches the alerter,
    tagged; the match of host "B" does not. *)
Example send_alert_drops_host_b :
  alerter_calls
    (fst (send_alert (U := flat_util) live_engine (fun _ => Indexed "id1")
            [match_of_a; match_of_b] (enhancing_rule [tag_match; drop_host_b]) (VTime 1000)
            false))
  = [get_info email] /\
  snd (prepare_matches live_engine (fun _ => Indexed "id1")
         (enhancing_rule [tag_match; drop_host_b]) [match_of_a; match_of_b] false)
  = Ok (Some [<["tagged" := VBool true]> match_of_a]).
Proof. split; vm_compute; reflexivity. Qed.

(** X23: debug mode sends and writes nothing. In debug mode send_alert
    calls none of the alerters of the rule and hands no document of any
    kind to the writeback, also not for the errors of the enhancements;
    the matches that the enhancements leave go to the debug alerter,
    once, and nothing is counted as sent. *)
Theorem send_alert_debug_quiet {U : Util} e wb matches r alert_time retried :
  debug e = true ->
  writes (fst (send_alert e wb matches r alert_time retried)) = [] /\
  alerter_calls (fst (send_alert e wb matches r alert_time retried)) = [] /\
  (forall ms,
     matches <> [] ->
     snd (prepare_matches e wb r matches retried) = Ok (Some ms) ->
     debug_alerts (fst (send_alert e wb matches r alert_time retried)) = [ms] /\
     snd (send_alert e wb matches r alert_time retried) = Ok 0).
Proof.
  intros Hdbg. unfold send_alert.
  destruct matches as [| m0 matches]; [repeat split; intros; contradiction |].
  destruct (prepare_matches_reports_only e wb r (m0 :: matches) retried) as [Hquiet Hwrites].
  pose proof (prepare_matches_quiet e wb r (m0 :: matches) retried) as [Hcalls _].
  specialize (Hwrites Hdbg).
  destruct (prepare_matches e wb r (m0 :: matches) retried) as [effs0 enhanced].
  cbn [fst snd] in *. rewrite Hdbg.
  destruct enhanced as [[ms |] | ex]; cbn [fst snd].
  - unfold writes, debug_alerts in *.
    rewrite alerter_calls_app, !omap_app, Hwrites, Hcalls, Hquiet.
    split; [reflexivity |]. split; [reflexivity |].
    intros ms' _ Hms. inversion Hms; subst. split; reflexivity.
  - split; [assumption |]. split; [assumption |]. intros ms' _ Hms. discriminate.
  - split; [assumption |]. split; [assumption |]. intros ms' _ Hms. discriminate.
Qed.

(** One match in debug mode. *)
Lemma send_alert_debug_quiet_witness :
  writes (fst (send_alert (U := flat_util) debug_engine (fun _ => Indexed "id1") [one_match]
                 (rule_alerting [refused; email]) (VTime 1000) false)) = [] /\
  alerter_calls (fst (send_alert (U := flat_util) debug_engine (fun _ => Indexed "id1")
                        [one_match] (rule_alerting [refused; email]) (VTime 1000) false)) = [] /\
  (forall ms,
     [one_match] <> [] ->
     snd (prepare_matches debug_engine (fun _ => Indexed "id1")
            (rule_alerting [refused; email]) [one_match] false) = Ok (Some ms) ->
     debug_alerts (fst (send_alert (U := flat_util) debug_engine (fun _ => Indexed "id1")
                          [one_match] (rule_alerting [refused; email]) (VTime 1000) false))
     = [ms] /\
     snd (send_alert (U := flat_util) debug_engine (fun _ => Indexed "id1") [one_match]
            (rule_alerting [refused; email]) (VTime 1000) false) = Ok 0).
Proof.
  apply (send_alert_debug_quiet (U := flat_util) debug_engine (fun _ => Indexed "id1")
           [one_match] (rule_alerting [refused; email]) (VTime 1000) false).
  reflexivity.
Defined.

(** Outside debug mode the writeback is handed the alert document,
    whether it takes it or not. *)
Lemma writeback_alert_document e wb body :
  debug e = false ->
  alert_documents (snd (writeback e wb "elastalert" (AlertDoc body))) = [body].
Proof.
  intros Hdbg. unfold writeback. rewrite Hdbg.
  destruct (wb (AlertDoc body)); [reflexivity |]. now destruct (notify_all_errors e).
Qed.

(** Once the loop holds the id of a group, every document it writes
    carries it. *)
Lemma write_alerts_in_group {U : Util} e wb r sent time exception id :
  debug e = false ->
  id <> "" ->
  forall ms,
    Forall (in_group id)
      (alert_documents (fst (write_alerts e wb r ms sent time exception (Some id)))).
Proof.
  intros Hdbg Hid. induction ms as [| m ms IH]; [constructor |].
  cbn [write_alerts].
  destruct (get_alert_body e r m sent time exception) as [b |]; [| constructor].
  assert (String.eqb id "" = false) as -> by now apply String.eqb_neq.
  pose proof (writeback_alert_document e wb (<["aggregate_id" := VStr id]> b) Hdbg) as Hdoc.
  destruct (writeback e wb "elastalert" (AlertDoc (<["aggregate_id" := VStr id]> b)))
    as [res effs].
  cbn [snd] in Hdoc.
  assert (Hkeep : match res, Some id with
                  | Some id', None => Some id'
                  | Some id', Some "" => Some id'
                  | _, _ => Some id
                  end = Some id).
  { destruct res; [| reflexivity]. destruct id; [contradiction | reflexivity]. }
  rewrite Hkeep.
  destruct (write_alerts e wb r ms sent time exception (Some id)) as [effs' out].
  cbn [fst] in *. rewrite alert_documents_app, Hdoc.
  constructor; [apply lookup_insert_eq | exact IH].
Qed.

(** Until the writeback has taken a document the loop holds no id; the
    documents after the first one taken carry its id. *)
Lemma write_alerts_first_taken {U : Util} e wb r sent time exception :
  debug e = false ->
  forall ms before first after id,
    alert_documents (fst (write_alerts e wb r ms sent time exception None))
    = before ++ first :: after ->
    Forall (rejected wb) before ->
    wb (AlertDoc first) = Indexed id ->
    id <> "" ->
    Forall (in_group id) after.
Proof.
  intros Hdbg. induction ms as [| m ms IH]; intros before first after id Hdocs Hbefore Hfirst Hid.
  - cbn in Hdocs. now destruct before.
  - cbn [write_alerts] in Hdocs.
    destruct (get_alert_body e r m sent time exception) as [b |];
      [| cbn in Hdocs; now destruct before].
    pose proof (writeback_alert_document e wb b Hdbg) as Hdoc.
    assert (Hres : fst (writeback e wb "elastalert" (AlertDoc b))
                   = match wb (AlertDoc b) with Indexed id' => Some id' | _ => None end).
    { unfold writeback. rewrite Hdbg. now destruct (wb (AlertDoc b)). }
    destruct (writeback e wb "elastalert" (AlertDoc b)) as [res effs].
    cbn [fst snd] in Hdoc, Hres. subst res.
    set (next := match wb (AlertDoc b) with Indexed id' => Some id' | _ => None end) in *.
    assert (Hnext : match next, @None string with
                    | Some id', None => Some id'
                    | Some id', Some "" => Some id'
                    | _, _ => None
                    end = next) by now destruct next.
    rewrite Hnext in Hdocs. clear Hnext.
    assert (Hcons : b :: alert_documents (fst (write_alerts e wb r ms sent time exception next))
                    = before ++ first :: after).
    { destruct (write_alerts e wb r ms sent time exception next) as [effs' out].
      cbn [fst] in *. now rewrite alert_documents_app, Hdoc in Hdocs. }
    clear Hdocs.
    destruct before as [| rejected_one before]; cbn [app] in Hcons; inversion Hcons; subst.
    + (* the first document is the one taken *)
      subst next. rewrite Hfirst. now apply write_alerts_in_group.
    + inversion Hbefore as [| ? ? [msg Hmsg] Hrest]; subst.
      subst next. rewrite Hmsg in *.
      match goal with H : alert_documents _ = _ |- _ => exact (IH _ _ _ _ H Hrest Hfirst Hid) end.
Qed.

(** X24: the documents of one alert form a group. When send_alert
    writes the documents of the matches of an alert (outside debug
    mode, the alerters raising nothing but EAException), the first
    document that the writeback takes gives the group its id: every
    document written after it carries that id as aggregate_id, whether
    the writeback takes it or not. *)
Theorem send_alert_groups_documents {U : Util} e wb matches r alert_time retried ms
    before first after id :
  debug e = false ->
  matches <> [] ->
  snd (prepare_matches e wb r matches retried) = Ok (Some ms) ->
  Forall (raises_only_EAException ms) (ar_alert r) ->
  alert_documents (fst (send_alert e wb matches r alert_time retried))
  = before ++ first :: after ->
  Forall (rejected wb) before ->
  wb (AlertDoc first) = Indexed id ->
  id <> "" ->
  Forall (in_group id) after.
Proof.
  intros Hdbg Hne Hprep Hraise Hdocs Hbefore Hfirst Hid.
  unfold send_alert in Hdocs.
  destruct matches as [| m0 matches]; [congruence |].
  pose proof (prepare_matches_quiet e wb r (m0 :: matches) retried) as [_ Hq].
  destruct (prepare_matches e wb r (m0 :: matches) retried) as [effs0 enhanced].
  cbn [fst snd] in *. subst enhanced. rewrite Hdbg in Hdocs.
  destruct (run_alerters_all_called e wb (ar_name r) ms (ar_alert r) Hraise false VNone 0)
    as (effs1 & count & Hrun & _ & Hquiet).
  rewrite Hrun in Hdocs.
  pose proof (write_alerts_first_taken e wb r
                (false || existsb (ran_without_raising ms) (ar_alert r)) alert_time
                (last_exception ms (ar_alert r) VNone) Hdbg ms before first after id) as Hgroup.
  destruct (write_alerts e wb r ms _ alert_time _ None) as [effs2 out].
  cbn [fst] in *. rewrite !alert_documents_app, Hq, Hquiet in Hdocs. cbn [app] in Hdocs.
  now apply Hgroup.
Qed.

(** Two matches alerted together: the document of the second carries
    the id that the writeback returned for the first. *)
Lemma send_alert_groups_documents_witness :
  Forall (in_group "id1")
    [<["aggregate_id" := VStr "id1"]>
       (rule_alert_body (rule_alerting [email]) match_of_b true (VTime 1000))].
Proof.
  apply (send_alert_groups_documents (U := flat_util) live_engine (fun _ => Indexed "id1")
           [match_of_a; match_of_b] (rule_alerting [email]) (VTime 1000) true
           [match_of_a; match_of_b] []
           (rule_alert_body (rule_alerting [email]) match_of_a true (VTime 1000))
           [<["aggregate_id" := VStr "id1"]>
              (rule_alert_body (rule_alerting [email]) match_of_b true (VTime 1000))]
           "id1").
  - reflexivity.
  - discriminate.
  - reflexivity.
  - repeat constructor; intros ex; discriminate.
  - vm_compute. reflexivity.
  - constructor.
  - reflexivity.
  - discriminate.
Defined.

(** ** Query runner *)

Lemma process_hits_app {U : Util} r pre post :
  process_hits r (pre ++ post)
  = do a <- process_hits r pre; do b <- process_hits r post; Ok (a ++ b).
Proof.
  induction pre as [| h pre IH]; cbn [process_hits app bind].
  - now destruct (process_hits r post).
  - destruct (process_hit r h) as [src |]; cbn [bind]; [| reflexivity].
    rewrite IH. destruct (process_hits r pre) as [a |]; cbn [bind]; [| reflexivity].
    now destruct (process_hits r post).
Qed.

(** C10 (counterexample): a hit that carries the timestamp 0. The
    value is there but falsy, and with _source_enabled false the batch
    is aborted with the EAException all the same. *)
Lemma process_hits_zero_timestamp :
  hit_source (hit_at "H1" 0) = Some {[ "@timestamp" := VInt 0 ]} /\
  found_timestamp (U := flat_util) stored_fields_rule (hit_at "H1" 0) (VInt 0) /\
  process_hits (U := flat_util) stored_fields_rule [hit_at "H1" 0]
  = Raise (EAException no_timestamp_message).
Proof. repeat split. Qed.

(** C10 (amended): process_hits looks up rule['timestamp_field'] in the
    merged _source of each hit it reaches. If the value is falsy (None,
    0, an empty text or list) and _source_enabled is false, it raises
    the EAException and returns no hit of the batch. For a hit whose
    value is truthy the error branch is not taken, whatever
    _source_enabled is, also when the rule has no such key: the hit goes
    on to the conversion of its timestamp, and when that conversion and
    the lookups after it return, the hit is returned with the converted
    timestamp and its metadata fields; a batch of such hits is returned
    whole. *)
Theorem process_hits_missing_timestamp {U : Util} (r : query_rule) :
  (forall pre h post done ts,
     process_hits r pre = Ok done ->
     found_timestamp r h ts ->
     truthy ts = false ->
     qr_source_enabled r = Some false ->
     process_hit r h = Raise (EAException no_timestamp_message) /\
     process_hits r (pre ++ h :: post) = Raise (EAException no_timestamp_message)) /\
  (forall h ts,
     found_timestamp r h ts ->
     truthy ts = true ->
     process_hit r h = finish_hit r h ts /\
     (forall flag, process_hit (with_source_enabled flag r) h = finish_hit r h ts) /\
     (forall dt stored,
        qr_ts_to_dt r ts = Ok dt ->
        lookup_es_key (set_es_key (merged_source h) (qr_timestamp_field r) dt)
          (qr_timestamp_field r) = Ok stored ->
        qr_compound_query_key r = [] ->
        qr_compound_aggregation_key r = [] ->
        process_hit r h
        = Ok (with_metadata (set_es_key (hit_top h) (qr_timestamp_field r) stored)
                (set_es_key (merged_source h) (qr_timestamp_field r) dt)))) /\
  (forall hits srcs flag,
     Forall2 (fun h src => exists ts,
                found_timestamp r h ts /\ truthy ts = true /\ finish_hit r h ts = Ok src)
       hits srcs ->
     process_hits (with_source_enabled flag r) hits = Ok srcs /\
     process_hits r hits = Ok srcs).
Proof.
  assert (Hone : forall h ts,
            found_timestamp r h ts ->
            truthy ts = true ->
            process_hit r h = finish_hit r h ts /\
            forall flag, process_hit (with_source_enabled flag r) h = finish_hit r h ts).
  { intros h ts Hts Htruthy. unfold found_timestamp in Hts. split.
    - unfold process_hit. rewrite Hts. cbn [bind]. now rewrite Htruthy.
    - intros flag. unfold process_hit. cbn [with_source_enabled qr_timestamp_field].
      rewrite Hts. cbn [bind]. now rewrite Htruthy. }
  split; [| split].
  - intros pre h post done ts Hpre Hts Hfalsy Hflag. unfold found_timestamp in Hts.
    assert (Hh : process_hit r h = Raise (EAException no_timestamp_message)).
    { unfold process_hit. rewrite Hts. cbn [bind]. rewrite Hfalsy, Hflag. reflexivity. }
    split; [exact Hh |].
    rewrite process_hits_app, Hpre. cbn [bind process_hits]. now rewrite Hh.
  - intros h ts Hts Htruthy. destruct (Hone h ts Hts Htruthy) as [Hh Hflag].
    split; [exact Hh |]. split; [exact Hflag |].
    intros dt stored Hdt Hstored Hquery Hagg. rewrite Hh.
    unfold finish_hit. rewrite Hdt. cbn [bind]. rewrite Hstored. cbn [bind].
    rewrite Hquery, Hagg. reflexivity.
  - intros hits srcs flag Hall.
    induction Hall as [| h src hits srcs (ts & Hts & Htruthy & Hsrc) _ [IH1 IH2]];
      [split; reflexivity |].
    destruct (Hone h ts Hts Htruthy) as [Hh Hflag].
    cbn [process_hits]. rewrite Hh, (Hflag flag), Hsrc, IH1, IH2. split; reflexivity.
Qed.

(** A batch whose second hit has no timestamp: nothing is returned. *)
Lemma process_hits_missing_timestamp_witness :
  process_hit (U := flat_util) stored_fields_rule (hit_without_timestamp "H2")
  = Raise (EAException no_timestamp_message) /\
  process_hits (U := flat_util) stored_fields_rule
    ([hit_at "H1" 10] ++ hit_without_timestamp "H2" :: [hit_at "H3" 30])
  = Raise (EAException no_timestamp_message).
Proof.
  apply (proj1 (process_hits_missing_timestamp (U := flat_util) stored_fields_rule)
           [hit_at "H1" 10] (hit_without_timestamp "H2") [hit_at "H3" 30]
           [ {[ "@timestamp" := VTime 10; "_id" := VStr "H1" ]} ] VNone).
  - vm_compute. reflexivity.
  - vm_compute. reflexivity.
  - reflexivity.
  - reflexivity.
Defined.

(** A hit with a truthy timestamp is returned although _source_enabled
    is false. *)
Example process_hits_truthy_timestamp :
  process_hits (U := flat_util) stored_fields_rule [hit_at "H1" 10]
  = Ok [ {[ "@timestamp" := VTime 10; "_id" := VStr "H1" ]} ].
Proof. vm_compute. reflexivity. Qed.

(** *** Characters and bytes *)









(** The message of the example ends with the count of what was cut. *)
Example truncated_message_long_text :
  code_points long_text = 1030%nat /\
  String.substring 1045 30 (truncated_message long_text) = "... (6 characters removed)".
Proof. split; vm_compute; reflexivity. Qed.

(** Whitespace around the traceback text, also of several bytes (here
    U+00A0 and U+2028), is stripped before the text is split. *)
Example strip_traceback :
  strip (String (ascii_of_nat 194) (String (ascii_of_nat 160) " a b")
         ++ String newline (String (ascii_of_nat 226) (String (ascii_of_nat 128)
                                      (String (ascii_of_nat 168) EmptyString))))
  = "a b" /\
  split_lines ("a" ++ String newline (String newline "b")) = ["a"; ""; "b"].
Proof. split; vm_compute; reflexivity. Qed.

(** *** Duplicate removal *)
























(** The scenario of the specification: the backend returns "H1" in two
    ticks. The first run hands it to the rule type; the second run hands
    nothing on and counts one duplicate. *)
Example run_query_dedupes_across_ticks :
  let page := SearchReturns (mkSearchResult None 1 [] "" [hit_at "H1" 10]) in
  let '(effs1, st1, out1) :=
    run_query (U := flat_util) 3 live_engine (fun _ => Indexed "e1") (fun _ => page)
      search_rule 0 60 "logs" false fresh_state in
  let st1 := mkQueryState (scroll_id st1) 0 (processed_hits st1) 0 0 (total_hits st1) in
  let '(effs2, st2, out2) :=
    run_query (U := flat_util) 3 live_engine (fun _ => Indexed "e1") (fun _ => page)
      search_rule 60 120 "logs" false st1 in
  length (fed_events effs1) = 1%nat /\ out1 = Ok true /\
  fed_events effs2 = [] /\ out2 = Ok true /\ num_dupes st2 = 1.
Proof. vm_compute. repeat split; reflexivity. Qed.

(** ** List enhancement of the filter *)

Lemma additional_terms_map c terms :
  forall acc, additional_terms (Some c) terms acc = Ok (acc ++ map (term_text c) terms).
Proof.
  induction terms as [| term terms IH]; intros acc; cbn [additional_terms map bind getitem].
  - now rewrite app_nil_r.
  - unfold term_text at 1.
    destruct (String.prefix "/" term), (endswith_slash term); cbn [negb orb andb];
      rewrite IH, <- app_assoc; reflexivity.
Qed.

(** A non-empty list of terms, each negated, joined by AND: the text
    that the whitelist branch builds as "NOT " + " AND NOT ".join. *)
Lemma join_negated (texts : list string) :
  texts <> [] ->
  ("NOT " ++ join " AND NOT " texts)%string
  = join " AND " (map (fun t => "NOT " ++ t)%string texts).
Proof.
  induction texts as [| t texts IH]; [congruence |]. intros _.
  destruct texts as [| t' texts]; [reflexivity |].
  change (join " AND NOT " (t :: t' :: texts))
    with (t ++ " AND NOT " ++ join " AND NOT " (t' :: texts))%string.
  change (join " AND " (map (fun t => "NOT " ++ t)%string (t :: t' :: texts)))
    with (("NOT " ++ t) ++ " AND "
            ++ join " AND " (map (fun t => "NOT " ++ t)%string (t' :: texts)))%string.
  rewrite <- IH by discriminate.
  generalize (join " AND NOT " (t' :: texts)). intros rest.
  reflexivity.
Qed.

(** C9 (counterexample): a rule that holds a blacklist and a whitelist.
    The blacklist is looked for first, so the filter appended is the OR
    query of the blacklist, and no NOT query of the whitelist is
    appended. *)
Lemma enhance_filter_blacklist_first :
  whitelist both_lists_rule = Some ["alice"; "bob"] /\
  compare_key both_lists_rule = Some "user" /\
  filter_by_list both_lists_rule = None /\
  enhance_filter both_lists_rule
  = Ok (Some [query_string_filter ("user:" ++ dquote ++ "root" ++ dquote)]) /\
  enhance_filter both_lists_rule
  <> Ok (Some [query_string_filter
                 ("NOT user:" ++ dquote ++ "alice" ++ dquote
                    ++ " AND NOT user:" ++ dquote ++ "bob" ++ dquote)]).
Proof. repeat split. discriminate. Qed.

(** C9 (amended): for a rule with a compare_key c, a filter and
    filter_by_list not switched off: with a whitelist [t1, ..., tn] and
    no blacklist, enhance_filter appends exactly one query_string
    filter, with the query NOT c:"t1" AND NOT c:"t2" ...; with a
    blacklist, whether the rule has a whitelist too or not, the query is
    c:"t1" OR c:"t2" ... over the terms of the blacklist; a term that
    starts and ends with '/' is written without the quotes. For
    whitelist ["alice", "bob"] and compare_key "user" the query is
    NOT user:"alice" AND NOT user:"bob". *)
Theorem enhance_filter_query (switch : option bool) (other : option (list string)) (c : string)
    (terms : list string) (filters : list value) :
  default true switch = true ->
  enhance_filter (mkListRule switch None (Some terms) (Some c) (Some filters))
  = Ok (Some (filters ++ [query_string_filter
                            ("NOT " ++ join " AND NOT " (map (term_text c) terms))])) /\
  (terms <> [] ->
   ("NOT " ++ join " AND NOT " (map (term_text c) terms))%string
   = join " AND " (map (fun t => "NOT " ++ term_text c t)%string terms)) /\
  enhance_filter (mkListRule switch (Some terms) other (Some c) (Some filters))
  = Ok (Some (filters ++ [query_string_filter (join " OR " (map (term_text c) terms))])) /\
  (forall term,
     (String.prefix "/" term = true /\ endswith_slash term = true ->
      term_text c term = (c ++ ":" ++ term)%string) /\
     (String.prefix "/" term = false \/ endswith_slash term = false ->
      term_text c term = (c ++ ":" ++ dquote ++ term ++ dquote)%string)) /\
  enhance_filter whitelist_rule
  = Ok (Some [query_string_filter
                ("NOT user:" ++ dquote ++ "alice" ++ dquote
                   ++ " AND NOT user:" ++ dquote ++ "bob" ++ dquote)]).
Proof.
  intros Hon. split; [| split; [| split; [| split; [| reflexivity]]]].
  - unfold enhance_filter. cbn [filter_by_list blacklist whitelist compare_key rule_filter].
    rewrite Hon. cbn [negb getitem bind].
    now rewrite additional_terms_map.
  - intros Hne. rewrite join_negated.
    + now rewrite map_map.
    + now destruct terms.
  - unfold enhance_filter. cbn [filter_by_list blacklist whitelist compare_key rule_filter].
    rewrite Hon. cbn [negb getitem bind].
    now rewrite additional_terms_map.
  - intros term. unfold term_text. split.
    + now intros [-> ->].
    + intros [-> | ->]; [reflexivity |]. now rewrite andb_false_r.
Qed.

(** The scenario of the specification, and the same terms as a
    blacklist beside a whitelist. *)
Lemma enhance_filter_query_witness :
  enhance_filter (mkListRule None None (Some ["alice"; "bob"]) (Some "user") (Some []))
  = Ok (Some ([] ++ [query_string_filter
                       ("NOT " ++ join " AND NOT " (map (term_text "user") ["alice"; "bob"]))])) /\
  (["alice"; "bob"] <> [] ->
   ("NOT " ++ join " AND NOT " (map (term_text "user") ["alice"; "bob"]))%string
   = join " AND " (map (fun t => "NOT " ++ term_text "user" t)%string ["alice"; "bob"])) /\
  enhance_filter (mkListRule None (Some ["alice"; "bob"]) (Some ["carol"]) (Some "user") (Some []))
  = Ok (Some ([] ++ [query_string_filter
                       (join " OR " (map (term_text "user") ["alice"; "bob"]))])) /\
  (forall term,
     (String.prefix "/" term = true /\ endswith_slash term = true ->
      term_text "user" term = ("user" ++ ":" ++ term)%string) /\
     (String.prefix "/" term = false \/ endswith_slash term = false ->
      term_text "user" term = ("user" ++ ":" ++ dquote ++ term ++ dquote)%string)) /\
  enhance_filter whitelist_rule
  = Ok (Some [query_string_filter
                ("NOT user:" ++ dquote ++ "alice" ++ dquote
                   ++ " AND NOT user:" ++ dquote ++ "bob" ++ dquote)]).
Proof.
  apply (enhance_filter_query None (Some ["carol"]) "user" ["alice"; "bob"] []). reflexivity.
Defined.

(** A regular expression among the terms of a blacklist. *)
Example enhance_filter_regex :
  enhance_filter (mkListRule None (Some ["/ro+t/"; "admin"]) None (Some "user") (Some []))
  = Ok (Some [query_string_filter ("user:/ro+t/ OR user:" ++ dquote ++ "admin" ++ dquote)]).
Proof. reflexivity. Qed.

(** ** Rule executor *)

(** With a positive segment size the walk over the window ends. *)
Lemma walk_segments_returns {W : Type} (C : collaborators W) segment_size endtime :
  0 < segment_size ->
  forall turns s cumulative w,
    (Z.to_nat ((endtime - s) / segment_size) < turns)%nat ->
    exists effs out,
      walk_segments turns C segment_size endtime s s cumulative w = Some (effs, out).
Proof.
  intros Hpos. induction turns as [| turns IH]; intros s cumulative w Hturns; [lia |].
  cbn [walk_segments].
  destruct (Z.ltb_spec segment_size (endtime - s)) as [Hmore | Hlast]; [| eauto].
  destruct (query C s (s + segment_size) w) as [[ok hits] w1].
  destruct ok; [| eauto].
  destruct (IH (s + segment_size) (cumulative + hits)
              (garbage_collect C (s + segment_size) w1)) as (effs & out & ->); [| eauto].
  replace (endtime - (s + segment_size)) with ((endtime - s) + (-1) * segment_size) by lia.
  rewrite Z.div_add by lia.
  assert (1 <= (endtime - s) / segment_size) by (apply Z.div_le_lower_bound; lia).
  lia.
Qed.

(** The first turn of the walk queries from the start of the window. *)
Lemma walk_segments_first {W : Type} (C : collaborators W) segment_size endtime turns s
    cumulative w effs out :
  walk_segments turns C segment_size endtime s s cumulative w = Some (effs, out) ->
  ~ In (LogWarning future_start_warning) effs /\
  ((exists e' rest, effs = RunQuery s e' :: rest) \/
   effs = [] /\ out = Walked s s cumulative w).
Proof.
  assert (Hquiet : forall turns s t cumulative w effs out,
            walk_segments turns C segment_size endtime s t cumulative w = Some (effs, out) ->
            ~ In (LogWarning future_start_warning) effs).
  { clear. induction turns as [| turns IH]; intros s t cumulative w effs out Hwalk;
      cbn [walk_segments] in Hwalk; [discriminate |].
    destruct (segment_size <? endtime - s); [| inversion Hwalk; subst; now intros []].
    destruct (query C s (t + segment_size) w) as [[ok hits] w1].
    destruct ok; [| inversion Hwalk; subst; intros [? | []]; discriminate].
    destruct (walk_segments turns C segment_size endtime _ _ _ _) as [[effs' out'] |] eqn:Hrest;
      [| discriminate].
    inversion Hwalk; subst. intros [? | Hin]; [discriminate |]. exact (IH _ _ _ _ _ _ Hrest Hin). }
  intros Hwalk. split; [exact (Hquiet _ _ _ _ _ _ _ Hwalk) |].
  destruct turns as [| turns]; cbn [walk_segments] in Hwalk; [discriminate |].
  destruct (segment_size <? endtime - s); [| inversion Hwalk; subst; now right].
  left. destruct (query C s (s + segment_size) w) as [[ok hits] w1].
  destruct ok; [| inversion Hwalk; subst; eauto].
  destruct (walk_segments turns C segment_size endtime _ _ _ _) as [[effs' out'] |];
    [| discriminate].
  inversion Hwalk; subst. eauto.
Qed.

(** C6 (counterexample): the start of the window is the present instant,
    so starttime <= now holds, yet run_rule logs the warning and returns
    0 without a query. *)
Lemma run_rule_skips_present_start :
  100 <= 100 /\
  run_rule 10 five_minute_conf live_engine idle 100 (StatusHits []) 100 (fun _ => Indexed "s1")
    plain_rule second_tick 160 (Some 100) tt
  = Some (mkRunResult [LogWarning future_start_warning]
            (with_original_starttime 100 (with_starttime 100 second_tick)) tt (Ok 0)).
Proof. split; [lia | reflexivity]. Qed.

(** A run whose start is in the past and that comes to an end has not
    logged the warning, and outside aggregation mode its first query
    starts at the start of the window. *)
Lemma run_rule_past_start {W : Type} turns c e (C : collaborators W) now0 last_run now wb r k
    endtime initial_start w k1 s res :
  start_cursor c now0 last_run r k endtime initial_start = Ok (k1, s) ->
  s < now ->
  run_rule turns c e C now0 last_run now wb r k endtime initial_start w = Some res ->
  ~ In (LogWarning future_start_warning) (run_effects res) /\
  (aggregation_query_element r = false -> queries_from s res).
Proof.
  intros Hstart Hlt. unfold run_rule. rewrite Hstart.
  apply Z.leb_gt in Hlt. rewrite Hlt.
  destruct (walk_segments turns C (get_segment_size c r) endtime s s 0
              (add_pending_aggregates C w)) as [[effs out] |] eqn:Hwalk; [| discriminate].
  destruct (walk_segments_first _ _ _ _ _ _ _ _ _ Hwalk) as (Hquiet & Hfirst).
  assert (Hwb : forall body,
            ~ In (LogWarning future_start_warning)
                (snd (writeback e wb "elastalert_status" body))).
  { intros body. unfold writeback. destruct (debug e); [now intros [] |].
    destruct (wb body); [intros [? | []]; discriminate |].
    destruct (notify_all_errors e); cbn; intuition discriminate. }
  destruct out as [start w1 | start tmp_endtime cumulative w1].
  - (* a query of the walk failed *)
    intros [= <-]. cbn [run_effects]. split; [assumption |].
    intros _. split; [assumption |].
    destruct Hfirst as [Hq | [_ ?]]; [assumption | discriminate].
  - destruct (aggregation_query_element r) eqn:Hagg.
    + destruct (Z.eqb (endtime - tmp_endtime) (get_segment_size c r)).
      * destruct (query C tmp_endtime endtime w1) as [[ok hits] w2].
        destruct ok.
        -- destruct (handle_matches C (cumulative + hits) w2) as [n w3].
           intros [= <-]. cbn [run_effects]. split; [| discriminate].
           intros Hin. apply in_app_or in Hin as [Hin | Hin]; [| exact (Hwb _ Hin)].
           apply in_app_or in Hin as [? | [? | []]]; [contradiction | discriminate].
        -- intros [= <-]. cbn [run_effects]. split; [| discriminate].
           intros Hin. apply in_app_or in Hin as [? | [? | []]]; [contradiction | discriminate].
      * destruct (Z.eqb (s - tmp_endtime) 0).
        -- intros [= <-]. cbn [run_effects]. split; [assumption | discriminate].
        -- destruct (handle_matches C cumulative w1) as [n w3].
           intros [= <-]. cbn [run_effects]. split; [| discriminate].
           intros Hin. apply in_app_or in Hin as [Hin | Hin]; [contradiction | exact (Hwb _ Hin)].
    + destruct (query C start endtime w1) as [[ok hits] w2].
      assert (Hhead : exists e' rest, effs ++ [RunQuery start endtime] = RunQuery s e' :: rest).
      { destruct Hfirst as [(e' & rest & ->) | [-> Hout]]; [cbn; eauto |].
        inversion Hout; subst. cbn. eauto. }
      assert (Hq : ~ In (LogWarning future_start_warning) (effs ++ [RunQuery start endtime])).
      { intros Hin. apply in_app_or in Hin as [? | [? | []]]; [contradiction | discriminate]. }
      destruct ok.
      * destruct (handle_matches C (cumulative + hits) (garbage_collect C endtime w2))
          as [n w3].
        intros [= <-]. cbn [run_effects].
        assert (Hall : forall body,
                  ~ In (LogWarning future_start_warning)
                      ((effs ++ [RunQuery start endtime])
                         ++ snd (writeback e wb "elastalert_status" body))).
        { intros body Hin.
          apply in_app_or in Hin as [Hin | Hin]; [contradiction | exact (Hwb _ Hin)]. }
        split; [apply Hall |]. intros _. split; [apply Hall |].
        destruct Hhead as (e' & rest & ->). cbn. eauto.
      * intros [= <-]. cbn [run_effects].
        split; [exact Hq |]. intros _. split; [exact Hq | exact Hhead].
Qed.

(** C6 (amended): run_rule(rule, endtime) takes the early exit, logging
    the warning and returning 0 without a query, exactly when the
    computed starttime is not in the past: now <= starttime. For every
    starttime < now it goes on to the loop over the segments: it cannot
    return before the loop, and every run that comes to an end has
    logged no warning and, unless the rule is an aggregation query, has
    made a query that starts at starttime. With a positive segment size
    the run comes to an end. *)
Theorem run_rule_future_start {W : Type} c e (C : collaborators W) now0 last_run wb r k
    endtime initial_start w k1 s :
  start_cursor c now0 last_run r k endtime initial_start = Ok (k1, s) ->
  (forall now turns,
     now <= s ->
     run_rule turns c e C now0 last_run now wb r k endtime initial_start w
     = Some (mkRunResult [LogWarning future_start_warning] (with_original_starttime s k1)
               (add_pending_aggregates C w) (Ok 0))) /\
  (forall now,
     s < now ->
     run_rule 0 c e C now0 last_run now wb r k endtime initial_start w = None /\
     (forall turns res,
        run_rule turns c e C now0 last_run now wb r k endtime initial_start w = Some res ->
        ~ In (LogWarning future_start_warning) (run_effects res) /\
        (aggregation_query_element r = false -> queries_from s res)) /\
     (0 < get_segment_size c r ->
      exists turns res,
        run_rule turns c e C now0 last_run now wb r k endtime initial_start w = Some res)).
Proof.
  intros Hstart. split.
  - intros now turns Hle. unfold run_rule. rewrite Hstart.
    apply Z.leb_le in Hle. now rewrite Hle.
  - intros now Hlt. split; [| split].
    + unfold run_rule. rewrite Hstart. apply Z.leb_gt in Hlt. now rewrite Hlt.
    + intros turns res Hrun.
      exact (run_rule_past_start turns c e C now0 last_run now wb r k endtime initial_start w
               k1 s res Hstart Hlt Hrun).
    + intros Hseg.
      set (turns := S (Z.to_nat ((endtime - s) / get_segment_size c r))).
      destruct (walk_segments_returns C (get_segment_size c r) endtime Hseg turns s 0
                  (add_pending_aggregates C w)) as (effs & out & Hwalk); [subst turns; lia |].
      exists turns. unfold run_rule. rewrite Hstart.
      apply Z.leb_gt in Hlt. rewrite Hlt, Hwalk.
      destruct out as [start w1 | start tmp_endtime cumulative w1]; [eauto |].
      destruct (aggregation_query_element r).
      * destruct (Z.eqb (endtime - tmp_endtime) (get_segment_size c r)).
        -- destruct (query C tmp_endtime endtime w1) as [[[] hits] w2]; [| eauto].
           destruct (handle_matches C (cumulative + hits) w2) as [n w3]. eauto.
        -- destruct (Z.eqb (s - tmp_endtime) 0); [eauto |].
           destruct (handle_matches C cumulative w1) as [n w3]. eauto.
      * destruct (query C start endtime w1) as [[[] hits] w2]; [| eauto].
        destruct (handle_matches C (cumulative + hits) (garbage_collect C endtime w2))
          as [n w3]. eauto.
Qed.

(** The tick of the search rule with a buffer of 300 whose previous run
    ended at 300: the window starts at 300. A clock at or before 300
    takes the early exit, a later clock runs the queries. *)
Lemma run_rule_future_start_witness :
  (forall now turns,
     now <= 300 ->
     run_rule turns five_minute_conf live_engine idle 1000 (StatusHits []) now
       (fun _ => Indexed "s1") plain_rule second_tick 1000 None tt
     = Some (mkRunResult [LogWarning future_start_warning]
               (with_original_starttime 300 (with_starttime 300 second_tick))
               (add_pending_aggregates idle tt) (Ok 0))) /\
  (forall now,
     300 < now ->
     run_rule 0 five_minute_conf live_engine idle 1000 (StatusHits []) now
       (fun _ => Indexed "s1") plain_rule second_tick 1000 None tt = None /\
     (forall turns res,
        run_rule turns five_minute_conf live_engine idle 1000 (StatusHits []) now
          (fun _ => Indexed "s1") plain_rule second_tick 1000 None tt = Some res ->
        ~ In (LogWarning future_start_warning) (run_effects res) /\
        (aggregation_query_element plain_rule = false -> queries_from 300 res)) /\
     (0 < get_segment_size five_minute_conf plain_rule ->
      exists turns res,
        run_rule turns five_minute_conf live_engine idle 1000 (StatusHits []) now
          (fun _ => Indexed "s1") plain_rule second_tick 1000 None tt = Some res)).
Proof.
  apply (run_rule_future_start five_minute_conf live_engine idle 1000 (StatusHits [])
           (fun _ => Indexed "s1") plain_rule second_tick 1000 None tt
           (with_starttime 300 second_tick) 300).
  reflexivity.
Defined.

(** The start of that window is 300: at the clock 300 the run takes the
    early exit, at 301 it queries from 300. *)
Example run_rule_at_the_start :
  run_rule 5 five_minute_conf live_engine idle 1000 (StatusHits []) 300 (fun _ => Indexed "s1")
    plain_rule second_tick 1000 None tt
  = Some (mkRunResult [LogWarning future_start_warning]
            (with_original_starttime 300 (with_starttime 300 second_tick)) tt (Ok 0)) /\
  option_map run_effects
    (run_rule 5 five_minute_conf live_engine idle 1000 (StatusHits []) 301
       (fun _ => Indexed "s1") plain_rule second_tick 1000 None tt)
  = Some [RunQuery 300 600; RunQuery 600 900; RunQuery 900 1000;
          EsIndex "elastalert_status" (StatusDoc "r" (Some 300) 1000 0 3)].
Proof. split; reflexivity. Qed.

(** The same tick, run: three queries cover the window in segments of
    the buffer size, and the cursor is left at the end of the window. *)
Example run_rule_segments :
  exists res,
    run_rule 5 five_minute_conf live_engine idle 1000 (StatusHits []) 1000 (fun _ => Indexed "s1")
      plain_rule second_tick 1000 None tt = Some res /\
    run_effects res
    = [RunQuery 300 600; RunQuery 600 900; RunQuery 900 1000;
       EsIndex "elastalert_status" (StatusDoc "r" (Some 300) 1000 0 3)] /\
    previous_endtime (run_cursor res) = Some 1000 /\
    run_return res = Ok 0.
Proof. eexists. split; [reflexivity |]. repeat split; reflexivity. Qed.

(** *** The windows of a run, the status document and the cursor *)


Lemma status_documents_app effs effs' :
  status_documents (effs ++ effs') = status_documents effs ++ status_documents effs'.
Proof. apply omap_app. Qed.


(** Outside debug mode the writeback is handed the status document,
    whether it takes it or raises; it asks for no query. *)
Lemma writeback_status e wb body :
  debug e = false ->
  status_documents (snd (writeback e wb "elastalert_status" body)) = [body].
Proof.
  intros Hdbg. unfold writeback. rewrite Hdbg.
  destruct (wb body); [reflexivity |]. now destruct (notify_all_errors e).
Qed.


(** The walk over the segments makes queries and nothing else. *)
Lemma walk_segments_quiet {W : Type} (C : collaborators W) segment_size endtime :
  forall turns s t cumulative w effs out,
    walk_segments turns C segment_size endtime s t cumulative w = Some (effs, out) ->
    status_documents effs = [].
Proof.
  induction turns as [| turns IH]; intros s t cumulative w effs out Hwalk;
    cbn [walk_segments] in Hwalk; [discriminate |].
  destruct (segment_size <? endtime - s); [| now inversion Hwalk; subst].
  destruct (query C s (t + segment_size) w) as [[ok hits] w1].
  destruct ok; [| now inversion Hwalk; subst].
  destruct (walk_segments turns C segment_size endtime _ _ _ _) as [[effs' out'] |] eqn:Hrest;
    [| discriminate].
  inversion Hwalk; subst. cbn. exact (IH _ _ _ _ _ _ Hrest).
Qed.


(** The adjustments of the start and set_starttime leave the end of the
    previous run alone. *)
Lemma set_starttime_keeps_previous_endtime c now last_run r k endtime k' :
  set_starttime c now last_run r k endtime = Ok k' ->
  previous_endtime k' = previous_endtime k.
Proof.
  assert (Hoverlap : forall k1 k2,
            adjust_start_time_for_overlapping_agg_query r k1 = Ok k2 ->
            previous_endtime k2 = previous_endtime k1).
  { intros k1 k2. unfold adjust_start_time_for_overlapping_agg_query.
    destruct (aggregation_query_element r); [| now intros [= <-]].
    destruct (allow_buffer_time_overlap r && negb (use_run_every_query_size r));
      [| now intros [= <-]].
    destruct (buffer_time r) as [bt |]; cbn [getitem bind]; [| discriminate].
    destruct (run_every r <? bt); [| now intros [= <-]].
    destruct (starttime k1); cbn [getitem bind]; [now intros [= <-] | discriminate]. }
  assert (Hsync : forall k1 k2,
            adjust_start_time_for_interval_sync r k1 endtime = Ok k2 ->
            previous_endtime k2 = previous_endtime k1).
  { intros k1 k2. unfold adjust_start_time_for_interval_sync.
    destruct (aggregation_query_element r); [| now intros [= <-]].
    destruct (bucket_interval r); [| now intros [= <-]].
    destruct (starttime k1); cbn [getitem bind]; [| discriminate].
    destruct (sync_bucket_interval r); now intros [= <-]. }
  unfold set_starttime. intros Hrun.
  destruct (match starttime k with
            | None => if negb (scan_entire_timeframe r)
                      then get_starttime c now last_run else None
            | Some _ => None
            end) as [last_run_end |].
  - destruct (adjust_start_time_for_overlapping_agg_query r (with_starttime last_run_end k))
      as [k1 |] eqn:H1; cbn [bind] in Hrun; [| discriminate].
    destruct (adjust_start_time_for_interval_sync r k1 endtime) as [k2 |] eqn:H2;
      cbn [bind] in Hrun; [| discriminate].
    destruct (starttime k2); cbn [getitem bind] in Hrun; [| discriminate].
    inversion Hrun; subst k'. cbn.
    now rewrite (Hsync _ _ H2), (Hoverlap _ _ H1).
  - destruct (negb (use_count_query r) && negb (use_terms_query r)).
    + destruct (if negb (scan_entire_timeframe r) then _ else _) as [buffer_delta |];
        cbn [bind] in Hrun; [| discriminate].
      destruct (if present_and_gt (minimum_starttime k) buffer_delta then _ else _)
        as [k1 |] eqn:H1; cbn [bind] in Hrun; [| discriminate].
      rewrite (Hsync _ _ Hrun).
      destruct (present_and_gt (minimum_starttime k) buffer_delta).
      * destruct (minimum_starttime k); cbn [getitem bind] in H1; [| discriminate].
        now inversion H1; subst.
      * destruct (present_and_lt (previous_endtime k) buffer_delta).
        -- destruct (previous_endtime k) as [p |] eqn:Hp; cbn [getitem bind] in H1;
             [| discriminate].
           rewrite (Hoverlap _ _ H1). cbn. now rewrite Hp.
        -- now inversion H1; subst.
    + destruct (negb (scan_entire_timeframe r)); [now inversion Hrun; subst |].
      destruct (timeframe r); cbn [getitem bind] in Hrun; [| discriminate].
      now inversion Hrun; subst.
Qed.

Lemma start_cursor_keeps_previous_endtime c now0 last_run r k endtime initial_start k1 s :
  start_cursor c now0 last_run r k endtime initial_start = Ok (k1, s) ->
  previous_endtime k1 = previous_endtime k /\ starttime k1 = Some s.
Proof.
  unfold start_cursor. intros Hstart.
  destruct initial_start as [s0 |]; cbn [bind] in Hstart.
  - inversion Hstart; subst. now split.
  - destruct (set_starttime c now0 last_run r k endtime) as [k2 |] eqn:Hset;
      cbn [bind] in Hstart; [| discriminate].
    destruct (starttime k2) as [s2 |] eqn:Hs2; cbn [getitem bind] in Hstart; [| discriminate].
    inversion Hstart; subst. split; [| assumption].
    exact (set_starttime_keeps_previous_endtime _ _ _ _ _ _ _ Hset).
Qed.




(** X4: outside debug mode a run of run_rule either hands exactly one
    status document to the writeback, and then previous_endtime is the
    endtime of that document (the endtime of the run, unless the rule is
    an aggregation query) and the value returned is the number of
    matches in it; or it hands none, and then previous_endtime is what
    it was before the run and the run returned 0 or raised. A run cut
    short by a failed query or by a start in the future therefore leaves
    the period to the next run. *)
Theorem run_rule_status_marks_endtime {W : Type} turns c e (C : collaborators W) now0 last_run
    now wb r k endtime initial_start w res :
  debug e = false ->
  run_rule turns c e C now0 last_run now wb r k endtime initial_start w = Some res ->
  (exists E n hits,
     status_documents (run_effects res)
     = [StatusDoc (name r) (original_starttime (run_cursor res)) E n hits] /\
     previous_endtime (run_cursor res) = Some E /\
     run_return res = Ok n /\
     (aggregation_query_element r = false -> E = endtime)) \/
  (status_documents (run_effects res) = [] /\
   previous_endtime (run_cursor res) = previous_endtime k /\
   (run_return res = Ok 0 \/ exists ex, run_return res = Raise ex)).
Proof.
  intros Hdbg Hrun. unfold run_rule in Hrun.
  destruct (start_cursor c now0 last_run r k endtime initial_start) as [[k1 s] |] eqn:Hstart.
  2: { inversion Hrun; subst res. right. cbn. repeat split. right. eauto. }
  destruct (start_cursor_keeps_previous_endtime _ _ _ _ _ _ _ _ _ Hstart) as [Hprev _].
  destruct (now <=? s).
  { inversion Hrun; subst res. right. cbn. repeat split; [assumption | now left]. }
  destruct (walk_segments turns C (get_segment_size c r) endtime s s 0
              (add_pending_aggregates C w)) as [[effs out] |] eqn:Hwalk; [| discriminate].
  pose proof (walk_segments_quiet _ _ _ _ _ _ _ _ _ _ Hwalk) as Hquiet.
  destruct out as [start w1 | start tmp_endtime cumulative w1].
  { inversion Hrun; subst res. right. cbn. repeat split; [assumption | assumption | now left]. }
  destruct (aggregation_query_element r).
  - destruct (Z.eqb (endtime - tmp_endtime) (get_segment_size c r)).
    + destruct (query C tmp_endtime endtime w1) as [[ok hits] w2]. destruct ok.
      * destruct (handle_matches C (cumulative + hits) w2) as [n w3].
        inversion Hrun; subst res. left. exists endtime, n, (Z.max hits (cumulative + hits)).
        cbn [run_effects run_cursor run_return].
        rewrite !status_documents_app, Hquiet, (writeback_status _ _ _ Hdbg).
        repeat split.
      * inversion Hrun; subst res. right. cbn [run_effects run_cursor run_return].
        rewrite status_documents_app, Hquiet. repeat split; [assumption | now left].
    + destruct (Z.eqb (s - tmp_endtime) 0).
      * inversion Hrun; subst res. right. cbn. repeat split; [assumption | assumption | now left].
      * destruct (handle_matches C cumulative w1) as [n w3].
        inversion Hrun; subst res. left. exists tmp_endtime, n, (Z.max 0 cumulative).
        cbn [run_effects run_cursor run_return].
        rewrite !status_documents_app, Hquiet, (writeback_status _ _ _ Hdbg).
        repeat split. discriminate.
  - destruct (query C start endtime w1) as [[ok hits] w2]. destruct ok.
    + destruct (handle_matches C (cumulative + hits) (garbage_collect C endtime w2)) as [n w3].
      inversion Hrun; subst res. left. exists endtime, n, (Z.max hits (cumulative + hits)).
      cbn [run_effects run_cursor run_return].
      rewrite !status_documents_app, Hquiet, (writeback_status _ _ _ Hdbg).
      repeat split.
    + inversion Hrun; subst res. right. cbn [run_effects run_cursor run_return].
      rewrite status_documents_app, Hquiet. repeat split; [assumption | now left].
Qed.

(** The tick at 1000 of the search rule, every query succeeding. *)
Lemma run_rule_status_marks_endtime_witness :
  (exists E n hits,
     status_documents
       [RunQuery 300 600; RunQuery 600 900; RunQuery 900 1000;
        EsIndex "elastalert_status" (StatusDoc "r" (Some 300) 1000 0 3)]
     = [StatusDoc (name plain_rule) (Some 300) E n hits] /\
     Some 1000 = Some E /\
     Ok 0 = Ok n /\
     (aggregation_query_element plain_rule = false -> E = 1000)) \/
  (status_documents
     [RunQuery 300 600; RunQuery 600 900; RunQuery 900 1000;
      EsIndex "elastalert_status" (StatusDoc "r" (Some 300) 1000 0 3)] = [] /\
   Some 1000 = previous_endtime second_tick /\
   (@Ok Z 0 = Ok 0 \/ exists ex, @Ok Z 0 = Raise ex)).
Proof.
  apply (run_rule_status_marks_endtime 5 five_minute_conf live_engine idle 1000 (StatusHits [])
           1000 (fun _ => Indexed "s1") plain_rule second_tick 1000 None tt
           (mkRunResult
              [RunQuery 300 600; RunQuery 600 900; RunQuery 900 1000;
               EsIndex "elastalert_status" (StatusDoc "r" (Some 300) 1000 0 3)]
              (mkCursor (Some 900) (Some 0) (Some 1000) (Some 300) None) tt (Ok 0))).
  - reflexivity.
  - reflexivity.
Defined.



(** With a segment size that is not positive the walk never gets closer
    to the end of the window. *)
Lemma walk_segments_stuck {W : Type} (C : collaborators W) segment_size endtime :
  queries_succeed C ->
  segment_size <= 0 ->
  forall turns s t cumulative w,
    t <= s ->
    segment_size < endtime - s ->
    walk_segments turns C segment_size endtime s t cumulative w = None.
Proof.
  intros Hok Hseg. induction turns as [| turns IH]; intros s t cumulative w Hts Hmore;
    cbn [walk_segments]; [reflexivity |].
  apply Z.ltb_lt in Hmore as Hmore'. rewrite Hmore'.
  specialize (Hok s (t + segment_size) w).
  destruct (query C s (t + segment_size) w) as [[ok hits] w1]. cbn in Hok. subst ok.
  rewrite IH; [reflexivity | lia | lia].
Qed.

(** X15: a segment size that is not positive (a buffer_time of zero
    seconds) makes the loop over the segments endless. When the window
    is longer than the segment size and every query succeeds, no number
    of turns lets run_rule come to an end: the start of the window never
    moves forward, and the same query is made again at every turn. *)
Theorem run_rule_zero_segment_never_ends {W : Type} c e (C : collaborators W) now0 last_run
    now wb r k endtime initial_start w k1 s :
  queries_succeed C ->
  start_cursor c now0 last_run r k endtime initial_start = Ok (k1, s) ->
  s < now ->
  get_segment_size c r <= 0 ->
  get_segment_size c r < endtime - s ->
  forall turns,
    run_rule turns c e C now0 last_run now wb r k endtime initial_start w = None.
Proof.
  intros Hok Hstart Hlt Hseg Hmore turns. unfold run_rule.
  rewrite Hstart. apply Z.leb_gt in Hlt. rewrite Hlt.
  now rewrite (walk_segments_stuck C _ _ Hok Hseg turns s s 0 _ (Z.le_refl s) Hmore).
Qed.

(** The search rule with a buffer of zero seconds, a minute after its
    previous run. *)
Lemma run_rule_zero_segment_never_ends_witness :
  run_rule 1000 five_minute_conf live_engine idle 360 (StatusHits []) 360
    (fun _ => Indexed "s1")
    (mkRule "z" false false false false (Some 0) 60 None false false false 1%positive false)
    second_tick 360 None tt
  = None.
Proof.
  refine (run_rule_zero_segment_never_ends five_minute_conf live_engine idle 360
            (StatusHits []) 360 (fun _ => Indexed "s1")
            (mkRule "z" false false false false (Some 0) 60 None false false false 1%positive
               false)
            second_tick 360 None tt (with_starttime 300 second_tick) 300 _ _ _ _ _ 1000%nat).
  - intros a b w. reflexivity.
  - reflexivity.
  - lia.
  - cbn. lia.
  - cbn. lia.
Defined.

(** ** Memory cleanup *)

Lemma pop_all_lookup {K : Type} `{Countable K} {A : Type} (keys : list K) :
  forall (d : gmap K A) (k : K),
    pop_all keys d !! k = if bool_decide (k ∈ keys) then None else d !! k.
Proof.
  unfold pop_all. induction keys as [| key keys IH]; intros d k; cbn [foldl].
  - rewrite bool_decide_eq_false_2; [reflexivity | apply not_elem_of_nil].
  - rewrite IH. destruct (decide (k = key)) as [-> | Hne].
    + rewrite lookup_delete_eq, (bool_decide_eq_true_2 (key ∈ key :: keys)) by left.
      now destruct (bool_decide (key ∈ keys)).
    + rewrite lookup_delete_ne by congruence.
      destruct (decide (k ∈ keys)) as [Hin | Hout].
      * rewrite !bool_decide_eq_true_2; [reflexivity | now right | assumption].
      * rewrite !bool_decide_eq_false_2; [reflexivity | | assumption].
        intros Hin. apply elem_of_cons in Hin as [? | ?]; contradiction.
Qed.

(** The keys collected are those of the items that pass the test, and
    the test has answered for every item. *)
Lemma collect_keys_spec {K : Type} (test : value -> result bool) (items : list (K * value)) :
  forall keys,
    collect_keys test items = Ok keys ->
    (forall k, In k keys <-> exists v, In (k, v) items /\ test v = Ok true) /\
    (forall k v, In (k, v) items -> exists b, test v = Ok b).
Proof.
  induction items as [| [key v] items IH]; intros keys Hrun; cbn [collect_keys] in Hrun.
  - inversion Hrun; subst. split; [| intros ? ? []].
    intros k. split; [intros [] | intros (? & [] & _)].
  - destruct (test v) as [hit |] eqn:Hv; cbn [bind] in Hrun; [| discriminate].
    destruct (collect_keys test items) as [keys' |]; cbn [bind] in Hrun; [| discriminate].
    destruct (IH keys' eq_refl) as [Hkeys Hall]. inversion Hrun; subst keys. split.
    + intros k. split.
      * intros Hin. destruct hit.
        -- destruct Hin as [<- | Hin]; [exists v; split; [now left | assumption] |].
           apply Hkeys in Hin as (v' & Hin & Hv'). exists v'. split; [now right | assumption].
        -- apply Hkeys in Hin as (v' & Hin & Hv'). exists v'. split; [now right | assumption].
      * intros (v' & [Heq | Hin] & Hv').
        -- inversion Heq; subst. rewrite Hv in Hv'. inversion Hv'; subst. now left.
        -- assert (In k keys') by (apply Hkeys; eauto). destruct hit; [now right | assumption].
    + intros k v' [Heq | Hin]; [inversion Heq; subst; eauto | eauto].
Qed.

(** The loop returns when the test answers for every item, and raises
    what the test raises when it raises the same for every item it
    does not answer for. *)
Lemma collect_keys_returns {K : Type} (test : value -> result bool) (items : list (K * value)) :
  (forall k v, In (k, v) items -> exists b, test v = Ok b) ->
  exists keys, collect_keys test items = Ok keys.
Proof.
  induction items as [| [key v] items IH]; intros Hall; cbn [collect_keys]; [eauto |].
  destruct (Hall key v (or_introl eq_refl)) as [b ->]. cbn [bind].
  destruct IH as [keys ->]; [intros k v' Hin; apply (Hall k v'); now right |].
  cbn [bind]. eauto.
Qed.

Lemma collect_keys_raises {K : Type} (test : value -> result bool) (items : list (K * value))
    (ex : exn) :
  (forall k v, In (k, v) items -> (exists b, test v = Ok b) \/ test v = Raise ex) ->
  (exists k v, In (k, v) items /\ test v = Raise ex) ->
  collect_keys test items = Raise ex.
Proof.
  induction items as [| [key v] items IH]; intros Hall (k & v' & Hin & Hbad); [contradiction |].
  cbn [collect_keys].
  destruct (Hall key v (or_introl eq_refl)) as [[b Hb] | Hraise].
  - rewrite Hb. cbn [bind]. rewrite IH; [reflexivity | |].
    + intros k0 v0 Hin0. apply (Hall k0 v0). now right.
    + destruct Hin as [Heq | Hin]; [| eauto].
      inversion Heq; subst. rewrite Hb in Hbad. discriminate.
  - now rewrite Hraise.
Qed.

Lemma In_map_to_list {K : Type} `{Countable K} {A : Type} (d : gmap K A) k v :
  In (k, v) (map_to_list d) <-> d !! k = Some v.
Proof. rewrite <- list_elem_of_In. apply elem_of_map_to_list. Qed.

(** Popping the keys of the items that pass a test leaves the items
    that fail it. *)
Lemma pop_filtered_lookup {K : Type} `{Countable K} {A : Type} (test : K * A -> bool)
    (d : gmap K A) (key : K) :
  pop_all (map fst (List.filter test (map_to_list d))) d !! key
  = match d !! key with
    | Some v => if test (key, v) then None else Some v
    | None => None
    end.
Proof.
  rewrite pop_all_lookup.
  destruct (d !! key) as [v |] eqn:Hd.
  - destruct (test (key, v)) eqn:Htest.
    + rewrite bool_decide_eq_true_2; [reflexivity |].
      apply list_elem_of_In, in_map_iff. exists (key, v).
      split; [reflexivity |]. apply filter_In. split; [| assumption].
      now apply In_map_to_list.
    + rewrite bool_decide_eq_false_2; [reflexivity |].
      intros Hin. apply list_elem_of_In, in_map_iff in Hin as ([k v'] & Hk & Hin).
      cbn in Hk. subst k. apply filter_In in Hin as [Hin Htest'].
      apply In_map_to_list in Hin. rewrite Hd in Hin. inversion Hin; subst. congruence.
  - rewrite bool_decide_eq_false_2; [reflexivity |].
    intros Hin. apply list_elem_of_In, in_map_iff in Hin as ([k v'] & Hk & Hin).
    cbn in Hk. subst k. apply filter_In in Hin as [Hin _].
    apply In_map_to_list in Hin. rewrite Hd in Hin. discriminate.
Qed.

(** X7: cleanup_silence_cache removes exactly the entries whose
    deadline has passed: an entry (until, exponent) of a key is kept,
    as it is, when now < until, and is gone when now >= until; no entry
    is added or changed. *)
Theorem cleanup_silence_cache_expired (now : Q) (cache : silence_cache) (key : string) :
  (forall until exponent,
     cache !! key = Some (until, exponent) ->
     ((now < until)%Q -> cleanup_silence_cache now cache !! key = Some (until, exponent)) /\
     ((until <= now)%Q -> cleanup_silence_cache now cache !! key = None)) /\
  (cache !! key = None -> cleanup_silence_cache now cache !! key = None).
Proof.
  unfold cleanup_silence_cache. rewrite pop_filtered_lookup. split.
  - intros u x ->. cbn [fst snd]. split; intros Hnow.
    + apply Qlt_bool_iff in Hnow. unfold Qlt_bool in Hnow.
      apply negb_true_iff in Hnow. now rewrite Hnow.
    + apply Qle_bool_iff in Hnow. now rewrite Hnow.
  - now intros ->.
Qed.

(** What is_silenced answers and does depends on the cache through the
    entry of the key only, and an expired entry counts as none. *)
Lemma is_silenced_entry e now now' res wb key (cache cache' : silence_cache) :
  cache' !! key = cache !! key \/
  (cache' !! key = None /\
   exists until exponent, cache !! key = Some (until, exponent) /\ Qlt_bool now until = false) ->
  same_silence key (is_silenced e now now' res wb key cache)
    (is_silenced e now now' res wb key cache').
Proof.
  intros Hentry. unfold is_silenced.
  assert (Hlive : match cache' !! key with
                  | Some (until, _) => Qlt_bool now until
                  | None => false
                  end
                  = match cache !! key with
                    | Some (until, _) => Qlt_bool now until
                    | None => false
                    end).
  { destruct Hentry as [-> | (-> & u & x & -> & ->)]; reflexivity. }
  rewrite Hlive.
  destruct (match cache !! key with
            | Some (until, _) => Qlt_bool now until
            | None => false
            end) eqn:Hnow.
  - cbn. repeat split. destruct Hentry as [-> | (_ & u & x & Hc & Hexp)];
      [reflexivity |]. rewrite Hc in Hnow. congruence.
  - destruct (debug e); [cbn; repeat split; now rewrite !lookup_delete_eq |].
    destruct res as [msg | [| h hits]]; cbn [same_silence];
      try (repeat split; now rewrite !lookup_delete_eq).
    destruct (hit_until h) as [until_ts |]; cbn [getitem bind same_silence]; [| reflexivity].
    rewrite !lookup_delete_eq. repeat split. now rewrite !lookup_insert_eq.
Qed.

(** X8: the cleanup of the silence cache never changes whether a rule
    is silenced. At a clock that is not before the one of the cleanup,
    is_silenced gives the same answer for a key, asks the writeback the
    same, and leaves the same entry for the key in the cache, whether
    cleanup_silence_cache has run or not. *)
Theorem cleanup_silence_cache_keeps_silences e (now0 now now' : Q) res wb key
    (cache : silence_cache) :
  (now0 <= now)%Q ->
  same_silence key (is_silenced e now now' res wb key cache)
    (is_silenced e now now' res wb key (cleanup_silence_cache now0 cache)).
Proof.
  intros Hclock. apply is_silenced_entry.
  unfold cleanup_silence_cache. rewrite pop_filtered_lookup.
  destruct (cache !! key) as [[u x] |]; [| now left]. cbn [fst snd].
  destruct (Qle_bool u now0) eqn:Hexp; [| now left].
  right. split; [reflexivity |]. exists u, x. split; [reflexivity |].
  apply Qlt_bool_false_iff. apply Qle_not_lt.
  apply Qle_bool_iff in Hexp. exact (Qle_trans _ _ _ Hexp Hclock).
Qed.

(** A cache with an expired entry: the cleanup at 50 removes it, and a
    test of the key at 60 goes to the writeback either way. *)
Lemma cleanup_silence_cache_keeps_silences_witness :
  same_silence "k"
    (is_silenced live_engine (60 # 1)%Q (61 # 1)%Q (SilenceHits [stored_silence])
       (fun _ => Indexed "e1") "k" {[ "k" := ((10 # 1)%Q, 0) ]})
    (is_silenced live_engine (60 # 1)%Q (61 # 1)%Q (SilenceHits [stored_silence])
       (fun _ => Indexed "e1") "k" (cleanup_silence_cache (50 # 1)%Q {[ "k" := ((10 # 1)%Q, 0) ]})).
Proof.
  apply (cleanup_silence_cache_keeps_silences live_engine (50 # 1)%Q (60 # 1)%Q (61 # 1)%Q
           (SilenceHits [stored_silence]) (fun _ => Indexed "e1") "k"
           {[ "k" := ((10 # 1)%Q, 0) ]}).
  discriminate.
Defined.

(** What a successful [remove_old_events] leaves of an entry. *)
Lemma remove_old_events_lookup c now r query_delay (processed processed' : gmap string value) :
  remove_old_events c now r query_delay processed = Ok processed' ->
  forall id,
    processed' !! id
    = match processed !! id with
      | Some (VTime t) =>
          if memory_limit c r query_delay <? now - t then None else Some (VTime t)
      | _ => None
      end.
Proof.
  unfold remove_old_events. intros Hrun id.
  destruct (collect_keys _ _) as [remove |] eqn:Hkeys; cbn [bind] in Hrun; [| discriminate].
  inversion Hrun; subst processed'.
  destruct (collect_keys_spec _ _ _ Hkeys) as [Hremove Hall].
  rewrite pop_all_lookup.
  destruct (processed !! id) as [v |] eqn:Hid.
  - destruct (Hall id v) as [old Hold]; [now apply In_map_to_list |].
    destruct v; try discriminate. cbn in Hold. inversion Hold; subst old.
    destruct (memory_limit c r query_delay <? now - t) eqn:Hage.
    + rewrite bool_decide_eq_true_2; [reflexivity |].
      apply list_elem_of_In, Hremove. exists (VTime t).
      split; [now apply In_map_to_list | cbn; now rewrite Hage].
    + rewrite bool_decide_eq_false_2; [reflexivity |].
      intros Hin. apply list_elem_of_In, Hremove in Hin as (v & Hin & Hv).
      apply In_map_to_list in Hin. rewrite Hid in Hin. inversion Hin; subst v.
      cbn in Hv. congruence.
  - now destruct (bool_decide (id ∈ remove)).
Qed.

Lemma remove_old_events_returns c now r query_delay (processed : gmap string value) :
  (forall id v, processed !! id = Some v -> exists t, v = VTime t) ->
  exists processed', remove_old_events c now r query_delay processed = Ok processed'.
Proof.
  intros Htyped. unfold remove_old_events.
  destruct (collect_keys_returns (older_than (memory_limit c r query_delay) now)
              (map_to_list processed)) as [remove ->]; [| cbn; eauto].
  intros id v Hin. apply In_map_to_list in Hin.
  destruct (Htyped id v Hin) as [t ->]. cbn. eauto.
Qed.

Lemma remove_old_events_raises c now r query_delay (processed : gmap string value) :
  (exists id v, processed !! id = Some v /\ forall t, v <> VTime t) ->
  remove_old_events c now r query_delay processed = Raise (OtherException "TypeError").
Proof.
  intros (id & v & Hid & Hbad). unfold remove_old_events.
  rewrite (collect_keys_raises _ _ (OtherException "TypeError")); [reflexivity | |].
  - intros k v' _. destruct v'; cbn; eauto.
  - exists id, v. split; [now apply In_map_to_list |].
    destruct v; try reflexivity. exfalso. now apply (Hbad t).
Qed.

(** X9: remove_old_events forgets exactly the hits that are older than
    the buffer. With limit = buffer_time of the rule (that of the
    engine when the rule has none) plus query_delay, and every stored
    timestamp a datetime, the call returns; afterwards the id of a hit
    with timestamp t is still in processed_hits, with t, when
    now - t <= limit, and is gone when now - t > limit. When a stored
    timestamp is not a datetime the call raises TypeError. *)
Theorem remove_old_events_forgets_old c now r query_delay (processed : gmap string value) :
  ((forall id v, processed !! id = Some v -> exists t, v = VTime t) ->
   exists processed',
     remove_old_events c now r query_delay processed = Ok processed' /\
     forall id,
       (forall t, processed !! id = Some (VTime t) ->
                  (now - t <= memory_limit c r query_delay ->
                   processed' !! id = Some (VTime t)) /\
                  (memory_limit c r query_delay < now - t -> processed' !! id = None)) /\
       (processed !! id = None -> processed' !! id = None)) /\
  ((exists id v, processed !! id = Some v /\ forall t, v <> VTime t) ->
   remove_old_events c now r query_delay processed = Raise (OtherException "TypeError")).
Proof.
  split; [| apply remove_old_events_raises].
  intros Htyped.
  destruct (remove_old_events_returns c now r query_delay processed Htyped)
    as [processed' Hrun].
  exists processed'. split; [exact Hrun |]. intros id.
  rewrite (remove_old_events_lookup _ _ _ _ _ _ Hrun id). split.
  - intros t ->. split; intros Hage.
    + apply Z.ltb_ge in Hage. now rewrite Hage.
    + apply Z.ltb_lt in Hage. now rewrite Hage.
  - now intros ->.
Qed.

(** X10: the memory of the deduplication is the buffer. Once
    remove_old_events has run, a hit that was seen before and comes
    back is dropped as a duplicate when its stored timestamp t has
    now - t <= limit, and is handed on as a new event, and remembered
    again, when now - t > limit. *)
Theorem remove_old_events_then_duplicates {U : Util} c now r query_delay
    (processed processed' : gmap string value) field event id t ts :
  remove_old_events c now r query_delay processed = Ok processed' ->
  event_id event = Ok id ->
  processed !! id = Some (VTime t) ->
  lookup_es_key event field = Ok ts ->
  remove_duplicate_events [event] field processed'
  = Ok (if memory_limit c r query_delay <? now - t
        then ([event], <[id := ts]> processed')
        else ([], processed')).
Proof.
  intros Hrun Hid Hseen Hts.
  pose proof (remove_old_events_lookup _ _ _ _ _ _ Hrun id) as Hafter.
  rewrite Hseen in Hafter.
  cbn [remove_duplicate_events]. rewrite Hid. cbn [bind]. rewrite Hafter.
  destruct (memory_limit c r query_delay <? now - t); [| reflexivity].
  rewrite Hts. reflexivity.
Qed.

(** The hit "H1" of time 10 at the clock 1000, with a buffer of 300: it
    is forgotten, and when it comes back it is new. *)
Lemma remove_old_events_then_duplicates_witness :
  remove_duplicate_events (U := flat_util) [event_h1] "@timestamp" ∅
  = Ok (if memory_limit five_minute_conf plain_rule None <? 1000 - 10
        then ([event_h1], <["H1" := VTime 10]> ∅)
        else ([], ∅)).
Proof.
  apply (remove_old_events_then_duplicates (U := flat_util) five_minute_conf 1000 plain_rule
           None {[ "H1" := VTime 10 ]} ∅ "@timestamp" event_h1 "H1" 10 (VTime 10));
    reflexivity.
Defined.

(** The ids of two hits, one older than the buffer and one not, and an
    entry that is no datetime. *)
Example remove_old_events_buffer :
  remove_old_events five_minute_conf 1000 plain_rule (Some 60)
    {[ "old" := VTime 600; "recent" := VTime 640 ]}
  = Ok {[ "recent" := VTime 640 ]} /\
  remove_old_events five_minute_conf 1000 plain_rule None
    {[ "old" := VTime 600; "none" := VNone ]}
  = Raise (OtherException "TypeError").
Proof. split; reflexivity. Qed.

(** X11: cleanup_es_clients_cache keeps the client of every rule that
    is running or disabled and drops every other client: afterwards the
    cache holds, for a key, what it held before when the key is the
    name of a rule of one of the two lists, and nothing otherwise. *)
Theorem cleanup_es_clients_cache_stale {A : Type} (rules disabled_rules : list string)
    (es_clients : gmap string A) (key : string) :
  (In key rules \/ In key disabled_rules ->
   cleanup_es_clients_cache rules disabled_rules es_clients !! key = es_clients !! key) /\
  (~ In key rules -> ~ In key disabled_rules ->
   cleanup_es_clients_cache rules disabled_rules es_clients !! key = None).
Proof.
  unfold cleanup_es_clients_cache. rewrite pop_all_lookup.
  set (active := list_to_set rules ∪ list_to_set disabled_rules : gset string).
  assert (Hactive : key ∈ active <-> In key rules \/ In key disabled_rules).
  { subst active. rewrite elem_of_union, !elem_of_list_to_set, !list_elem_of_In. tauto. }
  split.
  - intros Hin. rewrite bool_decide_eq_false_2; [reflexivity |].
    intros Hstale. apply list_elem_of_In, filter_In in Hstale as [_ Hstale].
    apply negb_true_iff, bool_decide_eq_false in Hstale. apply Hstale, Hactive, Hin.
  - intros Hout Hout'.
    destruct (es_clients !! key) as [client |] eqn:Hclient;
      [| now destruct (bool_decide _)].
    rewrite bool_decide_eq_true_2; [reflexivity |].
    apply list_elem_of_In, filter_In. split.
    + apply in_map_iff. exists (key, client). split; [reflexivity |].
      now apply In_map_to_list.
    + apply negb_true_iff, bool_decide_eq_false. rewrite Hactive. tauto.
Qed.

(** The clients of the test of the cleanup: two running rules, one
    disabled rule, two rules that are gone. *)
Example cleanup_es_clients_cache_test :
  cleanup_es_clients_cache ["active_rule1"; "active_rule2"] ["disabled_rule"]
    {[ "active_rule1" := 1; "active_rule2" := 2; "disabled_rule" := 3;
       "old_deleted_rule" := 4; "another_old_rule" := 5 ]}
  = {[ "active_rule1" := 1; "active_rule2" := 2; "disabled_rule" := 3 ]}.
Proof. reflexivity. Qed.

(** What a successful [expire_aggregates] leaves. *)
Lemma expire_aggregates_drops now st st' cleaned :
  expire_aggregates now st = Ok (st', cleaned) ->
  expired_dropped now st st'.
Proof.
  unfold expire_aggregates. intros Hrun.
  destruct (collect_keys _ _) as [expired_keys |] eqn:Hkeys; cbn [bind] in Hrun;
    [| discriminate].
  inversion Hrun; subst st' cleaned. clear Hrun.
  destruct (collect_keys_spec _ _ _ Hkeys) as [Hexpired Hall].
  split; [reflexivity |]. intros K. cbn [aggregate_alert_time current_aggregate_id].
  rewrite !pop_all_lookup.
  destruct (aggregate_alert_time st !! K) as [v |] eqn:HK.
  - destruct (Hall K v) as [passed Hpassed]; [now apply In_map_to_list |].
    destruct v; try discriminate. cbn in Hpassed. inversion Hpassed; subst passed.
    destruct (t <? now) eqn:Hlate.
    + rewrite bool_decide_eq_true_2; [now split |].
      apply list_elem_of_In, Hexpired. exists (VTime t).
      split; [now apply In_map_to_list | cbn; now rewrite Hlate].
    + rewrite bool_decide_eq_false_2; [now split |].
      intros Hin. apply list_elem_of_In, Hexpired in Hin as (v & Hin & Hv).
      apply In_map_to_list in Hin. rewrite HK in Hin. inversion Hin; subst v.
      cbn in Hv. congruence.
  - rewrite bool_decide_eq_false_2; [now split |].
    intros Hin. apply list_elem_of_In, Hexpired in Hin as (v & Hin & _).
    apply In_map_to_list in Hin. rewrite HK in Hin. discriminate.
Qed.

Lemma expire_aggregates_returns now st :
  deadlines_are_datetimes st ->
  exists st' cleaned, expire_aggregates now st = Ok (st', cleaned).
Proof.
  intros Htyped. unfold expire_aggregates.
  destruct (collect_keys_returns (fun alert_time => datetime_lt alert_time (VTime now))
              (map_to_list (aggregate_alert_time st))) as [keys ->]; [| cbn; eauto].
  intros K v Hin. apply In_map_to_list in Hin.
  destruct (Htyped K v Hin) as [t ->]. cbn. eauto.
Qed.

Lemma expire_aggregates_raises now st :
  ~ deadlines_are_datetimes st ->
  expire_aggregates now st = Raise (OtherException "TypeError").
Proof.
  intros Hbad. unfold expire_aggregates.
  destruct (collect_keys _ _) as [keys |] eqn:Hkeys.
  - exfalso. apply Hbad. intros K v HK.
    destruct (collect_keys_spec _ _ _ Hkeys) as [_ Hall].
    destruct (Hall K v) as [b Hb]; [now apply In_map_to_list |].
    destruct v; try discriminate. eauto.
  - cbn [bind]. revert Hkeys. generalize (map_to_list (aggregate_alert_time st)).
    induction l as [| [K v] l IH]; cbn [collect_keys]; [discriminate |].
    destruct v; cbn [datetime_lt bind]; try (now intros [= <-]).
    destruct (collect_keys _ l); cbn [bind]; [discriminate | exact IH].
Qed.

(** X12: cleanup_expired_aggregates drops, rule by rule, the groups
    whose deadline has passed (now > alert_time): such a key leaves
    aggregate_alert_time and current_aggregate_id, every other key keeps
    its deadline and its id, and agg_matches is not touched. When every
    deadline is a datetime the call returns. A deadline that is not a
    datetime (the empty string that a failed computation of the alert
    time leaves) raises TypeError: the rules before the one that holds
    it are cleaned, that rule and the rules after it are left as they
    were. *)
Theorem cleanup_expired_aggregates_drops (now : Z) (rules : list agg_state) :
  (Forall deadlines_are_datetimes rules ->
   exists rules' count,
     cleanup_expired_aggregates now rules = (rules', Ok count) /\
     Forall2 (expired_dropped now) rules rules') /\
  (forall done st rest,
     rules = done ++ st :: rest ->
     Forall deadlines_are_datetimes done ->
     ~ deadlines_are_datetimes st ->
     exists done',
       cleanup_expired_aggregates now rules
       = (done' ++ st :: rest, Raise (OtherException "TypeError")) /\
       Forall2 (expired_dropped now) done done').
Proof.
  split.
  - induction rules as [| st rules IH]; intros Htyped; cbn [cleanup_expired_aggregates].
    + exists [], 0. split; [reflexivity | constructor].
    + inversion Htyped as [| ? ? Hst Hrest]; subst.
      destruct (expire_aggregates_returns now st Hst) as (st' & cleaned & Hrun).
      rewrite Hrun. destruct (IH Hrest) as (rules' & count & -> & Hall). cbn [bind].
      eexists _, _. split; [reflexivity |].
      constructor; [exact (expire_aggregates_drops _ _ _ _ Hrun) | assumption].
  - intros done st rest -> Hdone Hbad.
    induction done as [| first done IH]; cbn [cleanup_expired_aggregates app].
    + rewrite (expire_aggregates_raises _ _ Hbad). exists []. split; [reflexivity | constructor].
    + inversion Hdone as [| ? ? Hfirst Hothers]; subst.
      destruct (expire_aggregates_returns now first Hfirst) as (first' & cleaned & Hrun).
      rewrite Hrun. destruct (IH Hothers) as (done' & -> & Hall). cbn [bind].
      exists (first' :: done'). split; [reflexivity |].
      constructor; [exact (expire_aggregates_drops _ _ _ _ Hrun) | assumption].
Qed.

(** The rule of the cleanup test: the two expired groups go, the active
    one stays. A deadline that is the empty string raises. *)
Example cleanup_expired_aggregates_test :
  cleanup_expired_aggregates 1000 [test_rule1]
  = ([mkAggState {[ Some "active_key" := "id3" ]} {[ Some "active_key" := VTime 4600 ]} []],
     Ok 2) /\
  cleanup_expired_aggregates 1000 [mkAggState ∅ {[ Some "A" := VStr "" ]} []; test_rule1]
  = ([mkAggState ∅ {[ Some "A" := VStr "" ]} []; test_rule1],
     Raise (OtherException "TypeError")).
Proof. split; reflexivity. Qed.

(** X13: cleanup_rule_memory never raises and works in stages: the old
    hits, then the expired groups, then the garbage collection of the
    rule type. With every stored timestamp and deadline a datetime all
    stages run and nothing is logged. A stage that raises ends the
    cleanup and is logged; what the stages before it did stays: a
    timestamp that is no datetime leaves the memory as it was; a
    deadline that is no datetime leaves the hits cleaned, the groups as
    they were and the rule type not collected; and for a rule without
    aggregate_alert_time the garbage collection raises NameError, so
    its rule type is never collected. *)
Theorem cleanup_rule_memory_stages {W : Type} (C : collaborators W) describe c now now' r
    query_delay has_garbage_collect (m : rule_memory) (w : W) :
  let logged ex :=
    [LogError ("Error cleaning up memory for rule " ++ name r ++ ": " ++ describe ex)] in
  ((exists id v, rm_processed_hits m !! id = Some v /\ forall t, v <> VTime t) ->
   cleanup_rule_memory C describe c now now' r query_delay has_garbage_collect m w
   = (m, w, logged (OtherException "TypeError"))) /\
  ((forall id v, rm_processed_hits m !! id = Some v -> exists t, v = VTime t) ->
   exists processed',
     remove_old_events c now r query_delay (rm_processed_hits m) = Ok processed' /\
     (forall st,
        rm_aggregation m = Some st ->
        (deadlines_are_datetimes st ->
         exists st',
           expired_dropped now' st st' /\
           cleanup_rule_memory C describe c now now' r query_delay has_garbage_collect m w
           = (mkRuleMemory processed' (Some st'),
              if has_garbage_collect then garbage_collect C now' w else w, [])) /\
        (~ deadlines_are_datetimes st ->
         cleanup_rule_memory C describe c now now' r query_delay has_garbage_collect m w
         = (mkRuleMemory processed' (Some st), w, logged (OtherException "TypeError")))) /\
     (rm_aggregation m = None ->
      cleanup_rule_memory C describe c now now' r query_delay has_garbage_collect m w
      = (mkRuleMemory processed' None, w,
         if has_garbage_collect then logged (OtherException "NameError") else []))).
Proof.
  cbn zeta. unfold cleanup_rule_memory. split.
  - intros Hbad. now rewrite (remove_old_events_raises _ _ _ _ _ Hbad).
  - intros Htyped.
    destruct (remove_old_events_returns c now r query_delay _ Htyped) as [processed' Hrun].
    exists processed'. rewrite Hrun. split; [reflexivity |]. split.
    + intros st ->. split.
      * intros Hst. destruct (expire_aggregates_returns now' st Hst) as (st' & cleaned & Hexp).
        exists st'. split; [exact (expire_aggregates_drops _ _ _ _ Hexp) |].
        rewrite Hexp. now destruct has_garbage_collect.
      * intros Hst. now rewrite (expire_aggregates_raises _ _ Hst).
    + intros ->. now destruct has_garbage_collect.
Qed.

(** The rule of the test of the cleanup at the clock 10000, with a
    buffer of 1800: the hit and the group that are two hours old go. *)
Example cleanup_rule_memory_test :
  cleanup_rule_memory idle (fun _ => "") five_minute_conf 10000 10000
    (mkRule "test_rule" false false false false (Some 1800) 60 None false false false
       1%positive false)
    None true
    (mkRuleMemory {[ "old_hit" := VTime 2800; "recent_hit" := VTime 10000 ]}
       (Some (mkAggState {[ Some "expired_key" := "old_id"; Some "active_key" := "active_id" ]}
                {[ Some "expired_key" := VTime 2800; Some "active_key" := VTime 13600 ]}
                [])))
    tt
  = (mkRuleMemory {[ "recent_hit" := VTime 10000 ]}
       (Some (mkAggState {[ Some "active_key" := "active_id" ]}
                {[ Some "active_key" := VTime 13600 ]} [])),
     tt, []).
Proof. reflexivity. Qed.

(** ** Terms and aggregation queries *)














(** A value with a comma in it comes back as two values: the filters
    no longer match the fields, and the warning is logged. *)
Example query_key_filters_comma :
  query_key_filters host_user_rule (Some "web1, Smith, Bob")
  = ([LogWarning (key_count_warning 3 2 "web1, Smith, Bob")],
     [VDict [("term", VDict [("host.keyword", VStr "web1")])];
      VDict [("term", VDict [("user.keyword", VStr "Smith")])]]).
Proof. reflexivity. Qed.

Lemma assoc_set_eq key v kv : assoc key (assoc_set key v kv) = Some v.
Proof.
  induction kv as [| [k x] kv IH]; cbn [assoc_set assoc].
  - now rewrite String.eqb_refl.
  - destruct (String.eqb k key) eqn:Hk; cbn [assoc]; now rewrite Hk.
Qed.

Lemma assoc_set_ne key v kv k' :
  k' <> key -> assoc k' (assoc_set key v kv) = assoc k' kv.
Proof.
  intros Hne. induction kv as [| [k x] kv IH]; cbn [assoc_set assoc].
  - apply String.eqb_neq in Hne. rewrite String.eqb_sym. now rewrite Hne.
  - destruct (String.eqb k key) eqn:Hk; cbn [assoc].
    + apply String.eqb_eq in Hk. subst k.
      assert (String.eqb key k' = false) as -> by (apply String.eqb_neq; congruence).
      reflexivity.
    + now rewrite IH.
Qed.

(** The start of the two builders on a query whose element is a dict:
    the element loses its key [sort], every other key of the query
    stays. *)
Lemma without_sort_frame kv qe :
  assoc "query" kv = Some (VDict qe) ->
  exists kv',
    without_sort (VDict kv) = Ok kv' /\
    assoc "query" kv' = Some (VDict (assoc_remove "sort" qe)) /\
    forall k, k <> "query" -> assoc k kv' = assoc k kv.
Proof.
  intros Hq. unfold without_sort. rewrite Hq. cbn [getitem bind pop_sort].
  eexists. split; [reflexivity |]. split; [apply assoc_set_eq |].
  intros k Hk. now apply assoc_set_ne.
Qed.

(** X18: get_terms_query adds the terms aggregation and leaves the
    query alone. On a query whose element query['query'] is a dict, it
    returns the query with aggs set to a terms aggregation named counts
    on the field, with the size and the min_doc_count of the rule (1
    when the rule has none); query['query'] has lost its key sort if it
    had one, and every other key of the query is as it was. The sort
    that get_query puts beside query['query'], at the top of the
    query, is therefore still there. *)
Theorem get_terms_query_frame kv qe min_doc_count size field :
  assoc "query" kv = Some (VDict qe) ->
  exists q,
    get_terms_query (VDict kv) min_doc_count size field = Ok q /\
    dict_get "aggs" q = Some (counts_aggregation field size min_doc_count) /\
    dict_get "query" q = Some (VDict (assoc_remove "sort" qe)) /\
    (forall k, k <> "aggs" -> k <> "query" -> dict_get k q = assoc k kv) /\
    dict_get "sort" q = assoc "sort" kv.
Proof.
  intros Hq. unfold get_terms_query.
  destruct (without_sort_frame kv qe Hq) as (kv' & -> & Hquery & Hframe). cbn [bind].
  eexists. split; [reflexivity |]. cbn [dict_get].
  split; [apply assoc_set_eq |].
  split; [rewrite assoc_set_ne by discriminate; exact Hquery |].
  split.
  - intros k Haggs Hk. rewrite assoc_set_ne by assumption. now apply Hframe.
  - rewrite assoc_set_ne by discriminate. apply Hframe. discriminate.
Qed.

(** The sorted query of a rule without filters, from 1 to 2. *)
Lemma get_terms_query_frame_witness :
  exists q,
    get_terms_query
      (VDict [("query",
               VDict [("bool",
                       VDict [("filter",
                               VDict [("bool",
                                       VDict [("must",
                                               VList [VDict [("range",
                                                 VDict [("@timestamp",
                                                   VDict [("gt", VInt 1);
                                                          ("lte", VInt 2)])])]])])])])]);
              ("sort", VList [VDict [("@timestamp", VDict [("order", VStr "asc")])]])])
      None (VInt 5) "host"
    = Ok q /\
    dict_get "aggs" q = Some (counts_aggregation "host" (VInt 5) None) /\
    dict_get "query" q
    = Some (VDict (assoc_remove "sort"
              [("bool",
                VDict [("filter",
                        VDict [("bool",
                                VDict [("must",
                                        VList [VDict [("range",
                                          VDict [("@timestamp",
                                            VDict [("gt", VInt 1); ("lte", VInt 2)])])]])])])])])) /\
    (forall k, k <> "aggs" -> k <> "query" ->
       dict_get k q
       = assoc k (match get_query [] (VInt 1) (VInt 2) true "@timestamp" false with
                  | VDict kv => kv
                  | _ => []
                  end)) /\
    dict_get "sort" q
    = assoc "sort" (match get_query [] (VInt 1) (VInt 2) true "@timestamp" false with
                    | VDict kv => kv
                    | _ => []
                    end).
Proof.
  apply (get_terms_query_frame
           (match get_query [] (VInt 1) (VInt 2) true "@timestamp" false with
            | VDict kv => kv
            | _ => []
            end)).
  reflexivity.
Defined.

(** The sort stays, on the source's functions: the terms query built
    from a sorted query still has the sort of get_query. *)
Example get_terms_query_keeps_sort :
  bind (get_terms_query (get_query [] (VInt 1) (VInt 2) true "@timestamp" false) None (VInt 5)
          "host")
    (fun q => getitem "sort" (dict_get "sort" q))
  = Ok (VList [VDict [("@timestamp", VDict [("order", VStr "asc")])]]).
Proof. reflexivity. Qed.

Lemma bucket_fields_nest (r : aggregation_rule) (size : value) (base : value) :
  forall keys,
    bucket_fields (length keys)
      (foldr (fun key inner =>
                VDict [("bucket_aggs",
                        VDict [("terms", terms_element key size (agr_min_doc_count r));
                               ("aggs", inner)])])
         base keys)
    = (keys, base).
Proof.
  induction keys as [| key keys IH]; [reflexivity |].
  cbn [length foldr].
  remember (foldr _ base keys) as inner eqn:Hinner.
  remember (length keys) as depth eqn:Hdepth.
  cbn. now rewrite IH.
Qed.

(** X19: get_aggregation_query nests one bucket aggregation per field
    of the query key. On a query whose element query['query'] is a
    dict, it returns the query with aggs set and every key but aggs and
    query['query'] as it was. With a query key, the fields of the
    bucket aggregations read from the outside in are the parts of the
    query key between its commas, in their order, and inside the last
    lies the metric of the rule (within the date histogram when the
    rule has a bucket interval); without a query key aggs is that
    aggregation itself. *)
Theorem get_aggregation_query_nests kv qe (r : aggregation_rule) query_key terms_size
    timestamp_field :
  assoc "query" kv = Some (VDict qe) ->
  exists q aggs,
    get_aggregation_query (VDict kv) r query_key terms_size timestamp_field = Ok q /\
    dict_get "aggs" q = Some aggs /\
    (forall k, k <> "aggs" -> k <> "query" -> dict_get k q = assoc k kv) /\
    match query_key with
    | Some keys =>
        bucket_fields (length (split_on "," "" keys)) aggs
        = (split_on "," "" keys, innermost_aggregation r timestamp_field)
    | None => aggs = innermost_aggregation r timestamp_field
    end.
Proof.
  intros Hq. unfold get_aggregation_query.
  destruct (without_sort_frame kv qe Hq) as (kv' & -> & _ & Hframe). cbn [bind].
  fold (innermost_aggregation r timestamp_field).
  eexists _, _. split; [reflexivity |]. cbn [dict_get].
  split; [apply assoc_set_eq |]. split.
  - intros k Haggs Hk. rewrite assoc_set_ne by assumption. now apply Hframe.
  - destruct query_key as [keys |]; [apply bucket_fields_nest | reflexivity].
Qed.

(** The average of [cpu] per host and user, in buckets of an hour. *)
Lemma get_aggregation_query_nests_witness :
  exists q aggs,
    get_aggregation_query (get_query [] (VInt 1) (VInt 2) false "@timestamp" false)
      average_rule (Some "host,user") (VInt 50) "@timestamp"
    = Ok q /\
    dict_get "aggs" q = Some aggs /\
    (forall k, k <> "aggs" -> k <> "query" ->
       dict_get k q
       = assoc k (match get_query [] (VInt 1) (VInt 2) false "@timestamp" false with
                  | VDict kv => kv
                  | _ => []
                  end)) /\
    bucket_fields (length (split_on "," "" "host,user")) aggs
    = (split_on "," "" "host,user", innermost_aggregation average_rule "@timestamp").
Proof.
  eapply (get_aggregation_query_nests
            (match get_query [] (VInt 1) (VInt 2) false "@timestamp" false with
             | VDict kv => kv
             | _ => []
             end)
            _ average_rule (Some "host,user") (VInt 50) "@timestamp").
  reflexivity.
Defined.

(** The query key [host,user] gives two levels, [host] outside; the
    offset of the buckets is written as a number of seconds. *)
Example get_aggregation_query_two_keys :
  split_on "," "" "host,user" = ["host"; "user"] /\
  innermost_aggregation average_rule "@timestamp"
  = VDict [("interval_aggs",
            VDict [("date_histogram",
                    VDict [("field", VStr "@timestamp"); ("fixed_interval", VStr "1h");
                           ("offset", VStr "+90s")]);
                   ("aggs", metric_agg_element average_rule)])].
Proof. split; reflexivity. Qed.

(** *** The top counts *)

(** The terms query of a rule is always built: the query of get_query
    has a dict as its element. *)
Lemma terms_query_built (r : terms_rule) starttime endtime key qk size :
  exists query,
    snd (terms_query r starttime endtime key qk size) = Ok query.
Proof.
  unfold terms_query. destruct (query_key_filters r qk) as [warned filters]. cbn [snd].
  unfold get_terms_query, get_query. cbn [without_sort assoc String.eqb Ascii.eqb Bool.eqb].
  cbn [getitem bind pop_sort]. eauto.
Qed.

(** The three outcomes of get_hits_terms. *)
Lemma get_hits_terms_cases e wb out (r : terms_rule) starttime endtime index key qk size
    num_hits :
  exists effs,
    get_hits_terms e wb out r starttime endtime index key qk size num_hits
    = (effs,
       match out with
       | TermsReturns (Some buckets) => num_hits + Z.of_nat (length buckets)
       | _ => num_hits
       end,
       Ok match out with
          | TermsRaises _ => None
          | TermsReturns None => Some NoAggregations
          | TermsReturns (Some buckets) => Some (Buckets endtime buckets)
          end).
Proof.
  unfold get_hits_terms.
  destruct (terms_query_built r starttime endtime key qk size) as [query Hquery].
  destruct (terms_query r starttime endtime key qk size) as [warned built].
  cbn [snd] in Hquery. subst built.
  destruct out as [text | [buckets |]]; eauto.
Qed.

Lemma top_events_key_inj (key key' : string) :
  ("top_events_" ++ key)%string = ("top_events_" ++ key')%string -> key = key'.
Proof. apply String.app_inj. Qed.

(** The loop over the keys leaves num_hits as it found it; it raises
    IndexError at the first answer without aggregations, and otherwise
    returns the top counts of every key. *)
Lemma top_counts_loop_outcome e wb backend (r : terms_rule) starttime endtime index number qk :
  forall keys position all_counts num_hits,
    let res := top_counts_loop e wb backend r starttime endtime index number qk position keys
                 all_counts num_hits in
    snd (fst res) = num_hits /\
    ((exists i, (i < length keys)%nat /\ backend (position + i)%nat = TermsReturns None) ->
     snd res = Raise IndexError) /\
    ((forall i, (i < length keys)%nat -> backend (position + i)%nat <> TermsReturns None) ->
     exists all,
       snd res = Ok all /\
       (forall name,
          (forall key, In key keys -> name <> ("top_events_" ++ key)%string) ->
          all !! name = all_counts !! name) /\
       forall i key,
         keys !! i = Some key ->
         (forall j, (i < j)%nat -> keys !! j <> Some key) ->
         all !! ("top_events_" ++ key)%string
         = Some (top_events_of number (backend (position + i)%nat))).
Proof.
  induction keys as [| key keys IH]; intros position all_counts num_hits; cbn zeta.
  - cbn [top_counts_loop fst snd length]. split; [reflexivity |]. split.
    + intros (i & Hi & _). lia.
    + intros _. exists all_counts. split; [reflexivity |]. split; [reflexivity |].
      intros i key Hi. now rewrite lookup_nil in Hi.
  - cbn [top_counts_loop].
    destruct (get_hits_terms_cases e wb (backend position) r starttime endtime index key qk
                (Some number) num_hits) as [effs ->].
    assert (Hshift : forall i, (S position + i)%nat = (position + S i)%nat) by (intros; lia).
    destruct (backend position) as [text | [buckets |]] eqn:Hanswer.
    + (* the query failed: an empty dict for the key *)
      specialize (IH (S position) (<[("top_events_" ++ key)%string := []]> all_counts) num_hits).
      cbn zeta in IH.
      destruct (top_counts_loop e wb backend r starttime endtime index number qk (S position)
                  keys _ num_hits) as [[effs' n'] out].
      cbn [fst snd] in *. destruct IH as (Hn & Hraise & Hreturn).
      split; [exact Hn |]. split.
      * intros (i & Hi & Hnone). destruct i as [| i].
        -- rewrite Nat.add_0_r, Hanswer in Hnone. discriminate.
        -- apply Hraise. exists i. split; [cbn in Hi; lia |]. now rewrite Hshift.
      * intros Hall. destruct Hreturn as (all & -> & Hothers & Hkeys).
        { intros i Hi. rewrite Hshift. apply Hall. cbn. lia. }
        exists all. split; [reflexivity |]. split.
        -- intros name Hname. rewrite Hothers.
           ++ apply lookup_insert_ne. intros Heq. apply (Hname key); [now left | now symmetry].
           ++ intros key' Hin. apply Hname. now right.
        -- intros i key' Hi Hlast. destruct i as [| i].
           ++ cbn in Hi. inversion Hi; subst key'. rewrite Nat.add_0_r, Hanswer. cbn.
              rewrite Hothers; [apply lookup_insert_eq |].
              intros key' Hin Heq. apply top_events_key_inj in Heq. subst key'.
              apply list_elem_of_In, list_elem_of_lookup in Hin as [j Hj].
              apply (Hlast (S j)); [lia | exact Hj].
           ++ rewrite <- Hshift. apply Hkeys; [exact Hi |].
              intros j Hj. apply (Hlast (S j)). lia.
    + (* buckets: their top counts for the key *)
      specialize (IH (S position)
                    (<[("top_events_" ++ key)%string := top_events number buckets]> all_counts)
                    (num_hits + Z.of_nat (length buckets) - Z.of_nat (length buckets))).
      cbn zeta in IH.
      destruct (top_counts_loop e wb backend r starttime endtime index number qk (S position)
                  keys _ _) as [[effs' n'] out].
      cbn [fst snd] in *. destruct IH as (Hn & Hraise & Hreturn).
      split; [lia |]. split.
      * intros (i & Hi & Hnone). destruct i as [| i].
        -- rewrite Nat.add_0_r, Hanswer in Hnone. discriminate.
        -- apply Hraise. exists i. split; [cbn in Hi; lia |]. now rewrite Hshift.
      * intros Hall. destruct Hreturn as (all & -> & Hothers & Hkeys).
        { intros i Hi. rewrite Hshift. apply Hall. cbn. lia. }
        exists all. split; [reflexivity |]. split.
        -- intros name Hname. rewrite Hothers.
           ++ apply lookup_insert_ne. intros Heq. apply (Hname key); [now left | now symmetry].
           ++ intros key' Hin. apply Hname. now right.
        -- intros i key' Hi Hlast. destruct i as [| i].
           ++ cbn in Hi. inversion Hi; subst key'. rewrite Nat.add_0_r, Hanswer. cbn.
              rewrite Hothers; [apply lookup_insert_eq |].
              intros key' Hin Heq. apply top_events_key_inj in Heq. subst key'.
              apply list_elem_of_In, list_elem_of_lookup in Hin as [j Hj].
              apply (Hlast (S j)); [lia | exact Hj].
           ++ rewrite <- Hshift. apply Hkeys; [exact Hi |].
              intros j Hj. apply (Hlast (S j)). lia.
    + (* no aggregations in the answer *)
      cbn [fst snd]. split; [reflexivity |]. split; [reflexivity |].
      intros Hall. exfalso. apply (Hall 0%nat); [cbn; lia |]. now rewrite Nat.add_0_r.
Qed.

(** X20: get_top_counts does not count its own queries and stops at an
    answer without aggregations. Whatever the backend answers, and also
    when the call raises, thread_data.num_hits is afterwards what it
    was before. An answer without aggregations to the terms query of
    one of the keys raises IndexError. Otherwise the call returns, and
    under top_events_<key> the result holds, for every key, the top
    counts of the buckets of the last query for that key: none when
    that query failed. *)
Theorem get_top_counts_outcome e wb backend (r : terms_rule) starttime endtime index keys
    number qk num_hits :
  let res := get_top_counts e wb backend r starttime endtime index keys number qk num_hits in
  snd (fst res) = num_hits /\
  ((exists i, (i < length keys)%nat /\ backend i = TermsReturns None) ->
   snd res = Raise IndexError) /\
  ((forall i, (i < length keys)%nat -> backend i <> TermsReturns None) ->
   exists all,
     snd res = Ok all /\
     forall i key,
       keys !! i = Some key ->
       (forall j, (i < j)%nat -> keys !! j <> Some key) ->
       all !! ("top_events_" ++ key)%string
       = Some (top_events_of (top_count_number r number) (backend i))).
Proof.
  cbn zeta. unfold get_top_counts. fold (top_count_number r number).
  destruct (top_counts_loop_outcome e wb backend r starttime endtime index
              (top_count_number r number) qk keys 0%nat ∅ num_hits) as (Hn & Hraise & Hreturn).
  split; [exact Hn |]. split; [exact Hraise |].
  intros Hall. destruct (Hreturn Hall) as (all & Hout & _ & Hkeys). eauto.
Qed.









(** The same call, run: of the two buckets of count 7 the first one
    returned is kept; a query that fails gives no counts, and an answer
    without aggregations raises. *)
Example get_top_counts_three_buckets :
  snd (get_top_counts live_engine (fun _ => Indexed "e1")
         (fun _ => TermsReturns (Some three_buckets)) host_user_rule 0 60 "logs" ["host"]
         (Some 2) None 0)
  = Ok {[ "top_events_host" := [("web2", 12); ("web1", 7)] ]} /\
  snd (get_top_counts live_engine (fun _ => Indexed "e1") (fun _ => TermsRaises "timeout")
         host_user_rule 0 60 "logs" ["host"] None None 0)
  = Ok {[ "top_events_host" := [] ]} /\
  snd (get_top_counts live_engine (fun _ => Indexed "e1") (fun _ => TermsReturns None)
         host_user_rule 0 60 "logs" ["host"] None None 0)
  = Raise IndexError.
Proof. repeat split; reflexivity. Qed.

(** ** The tick of a rule *)

(** X25: for a rule limited to a cron schedule, when the tick after this
    one would end more than 59 seconds before the next scheduled time,
    the schedule step of the tick and reset_rule_schedule move the job
    of the rule to that time. With limit_execution_coverage they also
    set minimum_starttime and previous_endtime to it, so that the first
    window after the pause (no resume from a status document, no
    aggregation query, scan_entire_timeframe unset) starts exactly at
    the scheduled time, whatever buffer_time is: the time outside the
    schedule is not queried. Without it the cursor is left as it was.
    When the next tick is inside the schedule nothing is rescheduled. *)
Theorem reset_rule_schedule_skips_pause c r sch k exec_next endtime :
  limited sch = true ->
  (endtime + run_every r < exec_next - 59 ->
   exists k',
     reset_rule_schedule r (fst (apply_execution_limit exec_next r endtime sch)) k
       = Ok (k', [ModifyJob (name r) exec_next]) /\
     (limit_execution_coverage sch = false -> k' = k) /\
     (limit_execution_coverage sch = true ->
      minimum_starttime k' = Some exec_next /\
      previous_endtime k' = Some exec_next /\
      starttime k' = starttime k /\
      forall now last_run endtime',
        no_resume c now last_run k' ->
        aggregation_query_element r = false ->
        scan_entire_timeframe r = false ->
        set_starttime c now last_run r k' endtime' = Ok (with_starttime exec_next k'))) /\
  (exec_next - 59 <= endtime + run_every r ->
   reset_rule_schedule r (fst (apply_execution_limit exec_next r endtime sch)) k = Ok (k, [])).
Proof.
  intros Hlim. unfold apply_execution_limit. rewrite Hlim. split.
  - intros Hlt.
    destruct (Z.ltb_spec (endtime + run_every r) (exec_next - 59)) as [_ | ?]; [| lia].
    cbn [fst]. unfold reset_rule_schedule, limited in *. cbn.
    rewrite Hlim. cbn.
    destruct (limit_execution_coverage sch) eqn:Hcov; cbn.
    + eexists. split; [reflexivity |]. split; [discriminate |]. intros _.
      cbn. repeat split.
      intros now last_run endtime' Hres Hagg Hscan.
      destruct (negb (use_count_query r) && negb (use_terms_query r)) eqn:Hmode.
      * apply andb_prop in Hmode as [Hc Ht].
        apply negb_true_iff in Hc, Ht.
        rewrite (set_starttime_plain_search c now last_run r _ endtime' exec_next exec_next);
          [| repeat split; assumption | assumption | reflexivity | reflexivity].
        unfold search_start.
        destruct (Z.ltb_spec (endtime' - default (conf_buffer_time c) (buffer_time r)) exec_next);
          [reflexivity |].
        now replace (Z.min exec_next _) with exec_next by lia.
      * unfold set_starttime.
        assert (Hno : match starttime k with
                      | None => if negb (scan_entire_timeframe r)
                                then get_starttime c now last_run else None
                      | Some _ => None
                      end = None).
        { destruct Hres as [[s Hk] | Hg].
          - cbn in Hk. now rewrite Hk.
          - destruct (starttime k); [reflexivity |]. now rewrite Hscan. }
        cbn. rewrite Hno, Hmode, Hscan. reflexivity.
    + eexists. split; [reflexivity |]. split; [reflexivity | discriminate].
  - intros Hge.
    destruct (Z.ltb_spec (endtime + run_every r) (exec_next - 59)) as [? | _]; [lia |].
    cbn [fst]. unfold reset_rule_schedule, limited in *. cbn.
    rewrite Hlim. reflexivity.
Qed.

Lemma reset_rule_schedule_skips_pause_witness :
  (61200 + run_every plain_rule < 118800 - 59 ->
   exists k',
     reset_rule_schedule plain_rule
       (fst (apply_execution_limit 118800 plain_rule 61200 office_hours)) second_tick
       = Ok (k', [ModifyJob (name plain_rule) 118800]) /\
     (limit_execution_coverage office_hours = false -> k' = second_tick) /\
     (limit_execution_coverage office_hours = true ->
      minimum_starttime k' = Some 118800 /\
      previous_endtime k' = Some 118800 /\
      starttime k' = starttime second_tick /\
      forall now last_run endtime',
        no_resume five_minute_conf now last_run k' ->
        aggregation_query_element plain_rule = false ->
        scan_entire_timeframe plain_rule = false ->
        set_starttime five_minute_conf now last_run plain_rule k' endtime'
          = Ok (with_starttime 118800 k'))) /\
  (118800 - 59 <= 61200 + run_every plain_rule ->
   reset_rule_schedule plain_rule
     (fst (apply_execution_limit 118800 plain_rule 61200 office_hours)) second_tick
     = Ok (second_tick, [])).
Proof.
  apply (reset_rule_schedule_skips_pause five_minute_conf plain_rule office_hours second_tick
           118800 61200).
  reflexivity.
Defined.

(** The rule of the example, paused at 17:00 until 09:00 of the next day
    (118800): the tick at 09:01 searches from 09:00, although the
    previous window ended at 300 and the buffer is five minutes. *)
Example reset_rule_schedule_next_morning :
  (do paused <- reset_rule_schedule plain_rule
                  (fst (apply_execution_limit 118800 plain_rule 61200 office_hours)) second_tick;
   do k <- set_starttime five_minute_conf 118860 (StatusHits []) plain_rule (fst paused) 118860;
   Ok (snd paused, starttime k))
  = Ok ([ModifyJob "r" 118800], Some 118800).
Proof. reflexivity. Qed.

(** *** Exceptions that no handler of the rule catches *)

(** The walk over the alerters ends at the first one that raises an
    exception that is not an [EAException]. *)
Lemma run_alerters_stops e wb rule ms pre a post text :
  Forall (raises_only_EAException ms) pre ->
  alert a ms = RaisesOther text ->
  forall st,
  exists effs,
    run_alerters e wb rule (pre ++ a :: post) ms st = (effs, Raise (OtherException text)) /\
    alerter_calls effs = map get_info (pre ++ [a]) /\
    alert_documents effs = [].
Proof.
  intros Hpre Ha. induction Hpre as [| b pre Hb Hpre IH]; intros [[sent exception] count].
  - cbn. rewrite Ha. eexists. repeat split.
  - cbn [app run_alerters].
    destruct (alert b ms) as [| msg | msg] eqn:Hout.
    + destruct (IH (true, exception, count + 1)) as (effs & -> & Hcalls & Hdocs).
      eexists. split; [reflexivity |].
      unfold alerter_calls, alert_documents in *. cbn. now rewrite Hcalls, Hdocs.
    + destruct (IH (sent, VStr msg, count)) as (effs & -> & Hcalls & Hdocs).
      eexists. split; [reflexivity |].
      destruct (handle_error_quiet e wb
                  ("Error while running alert " ++ info_type b ++ ": " ++ msg)
                  (Some (VDict [("rule", VStr rule)]))) as [Hq1 Hq2].
      change (AlerterCalled (get_info b) ms :: ?x) with ([AlerterCalled (get_info b) ms] ++ x).
      rewrite !alerter_calls_app, !alert_documents_app, Hq1, Hq2, Hcalls, Hdocs.
      split; reflexivity.
    + now destruct (Hb msg).
Qed.

(** An error report is logged, and written unless the engine is in
    debug mode. *)
Lemma handle_error_reports e wb message data :
  debug e = false ->
  In (LogError message) (handle_error e wb message (Some data)) /\
  In (EsIndex "elastalert_error" (ErrorDoc message (if truthy data then Some data else None)))
     (handle_error e wb message (Some data)).
Proof.
  intros Hdbg. unfold handle_error, writeback. rewrite Hdbg.
  split; [now left |]. right. apply in_or_app. left.
  destruct (wb _); now left.
Qed.

(** X26: alert never lets an exception of send_alert out. When an
    alerter raises an exception that is not an EAException (the earlier
    ones raising at most EAExceptions), the alerters after it are not
    called, no elastalert document is written and alert returns nothing;
    the exception is logged, written as an elastalert_error document
    with the name of the rule, and notified. With
    disable_rules_on_error the rule leaves the running rules, joins the
    disabled ones, its job is paused and its memory is cleaned; without
    it the rule keeps running and nothing else changes. *)
Theorem alert_disables_rule {U : Util} {W : Type} (C : collaborators W) describe traceback
    disable_rules_on_error e wb c now now' r query_delay has_garbage_collect matches ar
    alert_time retried lists m w ms pre a post text :
  debug e = false ->
  matches <> [] ->
  snd (prepare_matches e wb ar matches retried) = Ok (Some ms) ->
  ar_alert ar = pre ++ a :: post ->
  Forall (raises_only_EAException ms) pre ->
  alert a ms = RaisesOther text ->
  let '(lists', m', w', effs, jobs, sent) :=
    ElastAlerter.alert C describe traceback disable_rules_on_error e wb c now now' r
      query_delay has_garbage_collect matches ar alert_time retried lists m w in
  let msg := uncaught_message describe r (OtherException text) in
  sent = None /\
  alerter_calls effs = map get_info (pre ++ [a]) /\
  alert_documents effs = [] /\
  In (LogError msg) effs /\
  In (EsIndex "elastalert_error" (ErrorDoc msg (Some (VDict [("rule", VStr (name r))])))) effs /\
  In (Notify msg) effs /\
  (disable_rules_on_error = true ->
   el_rules lists' = without_rule (name r) (el_rules lists) /\
   ~ In (name r) (el_rules lists') /\
   el_disabled_rules lists' = el_disabled_rules lists ++ [name r] /\
   jobs = [PauseJob (name r)] /\
   (m', w') = fst (cleanup_rule_memory C describe c now now' r query_delay
                     has_garbage_collect m w)) /\
  (disable_rules_on_error = false ->
   lists' = lists /\ m' = m /\ w' = w /\ jobs = []).
Proof.
  intros Hdbg Hne Hprep Halerters Hpre Ha.
  unfold ElastAlerter.alert, send_alert.
  destruct matches as [| m0 matches]; [congruence |].
  pose proof (prepare_matches_quiet e wb ar (m0 :: matches) retried) as [Hq1 Hq2].
  destruct (prepare_matches e wb ar (m0 :: matches) retried) as [effs0 enhanced].
  cbn [fst snd] in *. subst enhanced. rewrite Hdbg, Halerters.
  destruct (run_alerters_stops e wb (ar_name ar) ms pre a post text Hpre Ha (false, VNone, 0))
    as (effs1 & -> & Hcalls & Hdocs).
  unfold handle_uncaught_exception.
  fold (uncaught_message describe r (OtherException text)).
  set (msg := uncaught_message describe r (OtherException text)).
  set (data := VDict [("rule", VStr (name r))]).
  destruct (handle_error_quiet e wb msg (Some data)) as [Hh1 Hh2].
  destruct (handle_error_reports e wb msg data Hdbg) as [Hlog Hdoc].
  change (truthy data) with true in Hdoc. cbn iota in Hdoc.
  destruct disable_rules_on_error.
  - destruct (cleanup_rule_memory C describe c now now' r query_delay has_garbage_collect m w)
      as [[m' w'] cleaned] eqn:Hclean.
    assert (Hcleaned : alerter_calls cleaned = [] /\ alert_documents cleaned = []).
    { revert Hclean. unfold cleanup_rule_memory.
      repeat match goal with
             | |- context [match ?x with _ => _ end] => destruct x
             end; intros [= <- <- <-]; split; reflexivity. }
    destruct Hcleaned as [Hc1 Hc2].
    split; [reflexivity |].
    split.
    { rewrite !alerter_calls_app. cbn [alerter_calls omap list_omap].
      change (omap _ (handle_error e wb msg (Some data)))
        with (alerter_calls (handle_error e wb msg (Some data))).
      rewrite Hq1, Hcalls, Hh1, Hc1. cbn. now rewrite app_nil_r. }
    split.
    { rewrite !alert_documents_app. cbn [alert_documents omap list_omap].
      change (omap _ (handle_error e wb msg (Some data)))
        with (alert_documents (handle_error e wb msg (Some data))).
      rewrite Hq2, Hdocs, Hh2, Hc2. reflexivity. }
    split; [rewrite !in_app_iff; cbn [In]; tauto |].
    split; [rewrite !in_app_iff; cbn [In]; tauto |].
    split; [rewrite !in_app_iff; cbn [In]; tauto |].
    split; [| discriminate]. intros _. cbn [el_rules el_disabled_rules fst].
    repeat split.
    intros Hin. apply filter_In in Hin as [_ Hneq].
    now rewrite String.eqb_refl in Hneq.
  - split; [reflexivity |].
    split.
    { rewrite !alerter_calls_app. cbn [alerter_calls omap list_omap].
      change (omap _ (handle_error e wb msg (Some data)))
        with (alerter_calls (handle_error e wb msg (Some data))).
      rewrite Hq1, Hcalls, Hh1. cbn. now rewrite app_nil_r. }
    split.
    { rewrite !alert_documents_app. cbn [alert_documents omap list_omap].
      change (omap _ (handle_error e wb msg (Some data)))
        with (alert_documents (handle_error e wb msg (Some data))).
      rewrite Hq2, Hdocs, Hh2. reflexivity. }
    split; [rewrite !in_app_iff; cbn [In]; tauto |].
    split; [rewrite !in_app_iff; cbn [In]; tauto |].
    split; [rewrite !in_app_iff; cbn [In]; tauto |].
    split; [discriminate |]. intros _. repeat split.
Qed.

Lemma alert_disables_rule_witness :
  let '(lists', m', w', effs, jobs, sent) :=
    ElastAlerter.alert (U := flat_util) idle describe_class "Traceback" true live_engine
      (fun _ => Indexed "id1") five_minute_conf 10000 10000 plain_rule None false [one_match]
      failing_alert_rule (VTime 1000) true two_running empty_memory tt in
  let msg := uncaught_message describe_class plain_rule (OtherException "ConnectionResetError") in
  sent = None /\
  alerter_calls effs = map get_info ([refused] ++ [broken]) /\
  alert_documents effs = [] /\
  In (LogError msg) effs /\
  In (EsIndex "elastalert_error" (ErrorDoc msg (Some (VDict [("rule", VStr (name plain_rule))]))))
     effs /\
  In (Notify msg) effs /\
  (true = true ->
   el_rules lists' = without_rule (name plain_rule) (el_rules two_running) /\
   ~ In (name plain_rule) (el_rules lists') /\
   el_disabled_rules lists' = el_disabled_rules two_running ++ [name plain_rule] /\
   jobs = [PauseJob (name plain_rule)] /\
   (m', w') = fst (cleanup_rule_memory idle describe_class five_minute_conf 10000 10000
                     plain_rule None false empty_memory tt)) /\
  (true = false ->
   lists' = two_running /\ m' = empty_memory /\ w' = tt /\ jobs = []).
Proof.
  apply (alert_disables_rule (U := flat_util) idle describe_class "Traceback" true live_engine
           (fun _ => Indexed "id1") five_minute_conf 10000 10000 plain_rule None false
           [one_match] failing_alert_rule (VTime 1000) true two_running empty_memory tt
           [one_match] [refused] broken [email] "ConnectionResetError").
  - reflexivity.
  - discriminate.
  - reflexivity.
  - reflexivity.
  - repeat constructor; intros ex; discriminate.
  - reflexivity.
Defined.

(** The same call: the third alerter is not reached, the rule "r" is
    disabled and its job paused. *)
Example alert_disables_rule_r :
  let '(lists', _, _, effs, jobs, sent) :=
    ElastAlerter.alert (U := flat_util) idle describe_class "Traceback" true live_engine
      (fun _ => Indexed "id1") five_minute_conf 10000 10000 plain_rule None false [one_match]
      failing_alert_rule (VTime 1000) true two_running empty_memory tt in
  lists' = mkRuleLists ["q"] ["r"] /\
  jobs = [PauseJob "r"] /\
  sent = None /\
  alerter_calls effs = [get_info refused; get_info broken].
Proof. vm_compute. repeat split. Qed.

(** *** Rule parameters in matches *)

Lemma rule_param_inj param param' : rule_param param = rule_param param' -> param = param'.
Proof. unfold rule_param. apply String.app_inj. Qed.

Lemma add_rule_params rule_get params (m : doc) :
  carries_rule_params rule_get params m
    (foldl (fun m param =>
              <[("rule_param_" ++ param)%string := default VNone (rule_get param)]> m)
       m params).
Proof.
  induction params as [| param params IH] using rev_ind.
  - split; [intros ? [] | reflexivity].
  - rewrite foldl_app. cbn [foldl]. destruct IH as [IHin IHout].
    fold (rule_param param). split.
    + intros q Hq. destruct (decide (q = param)) as [-> | Hne].
      * apply lookup_insert_eq.
      * rewrite lookup_insert_ne by (intros Heq; apply Hne; symmetry; now apply rule_param_inj).
        apply IHin. apply in_app_or in Hq as [Hq | [Hq | []]]; [assumption | congruence].
    + intros key Hkey.
      rewrite lookup_insert_ne
        by (intros Heq; apply (Hkey param); [apply in_or_app; right; now left | now symmetry]).
      apply IHout. intros q Hq. apply Hkey. apply in_or_app. now left.
Qed.

(** X27: include_rule_params_in_matches copies each listed parameter
    of the rule into the matches under the key rule_param_<name>, with
    None for a parameter the rule does not have, and changes no other
    key. It does so in every match, or with
    include_rule_params_in_first_match_only in the first match alone,
    the others being left as they are; with that option and no match it
    raises an IndexError. Without a list, or with an empty one, the
    matches are not touched. *)
Theorem include_rule_params_in_matches_copies rule_get param params m matches first_only :
  (exists matches',
     include_rule_params_in_matches (Some (param :: params)) false rule_get matches
       = Ok matches' /\
     Forall2 (carries_rule_params rule_get (param :: params)) matches matches') /\
  (exists m',
     include_rule_params_in_matches (Some (param :: params)) true rule_get (m :: matches)
       = Ok (m' :: matches) /\
     carries_rule_params rule_get (param :: params) m m') /\
  include_rule_params_in_matches (Some (param :: params)) true rule_get [] = Raise IndexError /\
  include_rule_params_in_matches None first_only rule_get matches = Ok matches /\
  include_rule_params_in_matches (Some []) first_only rule_get matches = Ok matches.
Proof.
  unfold include_rule_params_in_matches. cbn [default from_option id].
  split; [| split; [| repeat split]].
  - eexists. split; [reflexivity |].
    induction matches as [| m0 matches IH]; constructor; [apply add_rule_params | exact IH].
  - eexists. split; [reflexivity |]. apply add_rule_params.
Qed.

(** The owner of the rule is copied; the priority, which the rule does
    not have, is copied as None. *)
Example include_rule_params_in_matches_owner :
  include_rule_params_in_matches (Some ["owner"; "priority"]) false owned_rule
    [{[ "host" := VStr "A" ]}]
  = Ok [{[ "host" := VStr "A"; "rule_param_owner" := VStr "ops";
           "rule_param_priority" := VNone ]}].
Proof. vm_compute. reflexivity. Qed.

(** ** The index of a rule *)


Lemma find_none ch (s : string) : free_of ch s -> find ch s = -1.
Proof.
  induction s as [| c s IH]; intros Hfree; [reflexivity |].
  destruct Hfree as [Hne Hfree]. cbn [find].
  destruct (Ascii.eqb_spec c ch) as [-> | _]; [congruence |].
  now rewrite (IH Hfree).
Qed.










(** A pattern without any format token is cut all the same: find gives
    -1 and rfind + 2 gives 1, so the last character goes before the star
    and the first one after it. *)
Example get_index_without_token :
  get_index no_format_index "logs" false true None None = "log*ogs".
Proof. reflexivity. Qed.

(** ** Matches kept in memory for another try *)

Lemma pop_app {A : Type} (l : list A) (x : A) : pop (l ++ [x]) = Ok (l, x).
Proof.
  induction l as [| y l IH]; [reflexivity |].
  cbn [app pop]. rewrite IH. cbn.
  destruct (l ++ [x]) eqn:E; [now destruct l | reflexivity].
Qed.

Lemma pop_inv {A : Type} (l rest : list A) (x : A) : pop l = Ok (rest, x) -> l = rest ++ [x].
Proof.
  destruct l as [| y l]; [discriminate |].
  destruct (exists_last (l := y :: l)) as (l' & z & Heq); [discriminate |].
  rewrite Heq, pop_app. now intros [= <- <-].
Qed.

(** What [add_aggregated_alert] does to the matches in memory: the match
    is appended exactly when the writeback did not take its document,
    which is the only alert document of the call. *)
Lemma add_aggregated_alert_queue {U : Util} e wb pending cron now m r st res st' effs :
  add_aggregated_alert e wb pending cron now m r st = Ok (res, st', effs) ->
  exists body effs0,
    res = fst (writeback e wb "elastalert" (AlertDoc body)) /\
    effs = effs0 ++ snd (writeback e wb "elastalert" (AlertDoc body)) /\
    alert_documents effs0 = [] /\
    agg_matches st' = agg_matches st ++ match res with Some _ => [] | None => [m] end.
Proof.
  unfold add_aggregated_alert.
  destruct (get_aggregation_key_value r m) as [K |]; [| discriminate]. cbn [bind].
  destruct (if ar_compared_with_timestamp_field r then _ else _) as [compare_dt |];
    [| discriminate].
  cbn [bind].
  set (open_group := match current_aggregate_id st !! K with
                     | Some id => negb (String.eqb id "")
                     | None => false
                     end).
  destruct (if open_group then _ else _) as [expired |]; [| discriminate]. cbn [bind].
  match goal with
  | |- context [bind ?opened _] =>
      destruct opened as [[[[alert_time agg_id] st1] effs1] |] eqn:Hopened; [| discriminate]
  end.
  cbn [bind].
  assert (Hst1 : agg_matches st1 = agg_matches st /\ alert_documents effs1 = []).
  { destruct expired.
    - destruct (find_pending_aggregate_alert e wb pending r K) as [hit found] eqn:Hfind.
      assert (Hfound : alert_documents found = []).
      { revert Hfind. unfold find_pending_aggregate_alert.
        destruct pending as [msg | [| hit0 hits]]; intros [= <- <-]; try reflexivity.
        change (alert_documents (?a :: ?l)) with (alert_documents ([a] ++ l)).
        rewrite alert_documents_app. apply handle_error_quiet. }
      destruct hit as [hit |].
      + destruct (getitem "alert_time" (pending_alert_time hit)) as [raw |]; [| discriminate].
        cbn [bind] in Hopened.
        destruct (ts_to_dt raw) as [time |]; [| discriminate].
        cbn [bind] in Hopened. injection Hopened as <- <- <- <-. now split.
      + destruct (new_alert_time e wb cron now r m) as [time effs'] eqn:Hnew.
        injection Hopened as <- <- <- <-. split; [reflexivity |].
        rewrite alert_documents_app, Hfound. cbn [app].
        revert Hnew. unfold new_alert_time.
        repeat match goal with
               | |- context [match ?x with _ => _ end] => destruct x
               end;
          intros [= <- <-]; try reflexivity; apply handle_error_quiet.
    - injection Hopened as <- <- <- <-. now split. }
  destruct Hst1 as [Hqueue Hquiet].
  destruct (get_alert_body e r m false alert_time VNone) as [body |]; [| discriminate].
  cbn [bind].
  match goal with
  | |- context [writeback e wb "elastalert" (AlertDoc ?b)] =>
      set (written := b);
      destruct (writeback e wb "elastalert" (AlertDoc written)) as [res0 effs'] eqn:Hwb
  end.
  intros [= <- <- <-]. exists written, effs1. rewrite Hwb. cbn [fst snd].
  repeat split; [assumption |].
  destruct res0 as [id |].
  - rewrite app_nil_r, <- Hqueue.
    destruct agg_id as [id0 |]; [destruct (negb (String.eqb id0 "")) |]; reflexivity.
  - cbn. now rewrite Hqueue.
Qed.

(** The document of a match is not taken in debug mode or when the
    writeback is down, and is taken when it is up. *)
Lemma writeback_not_taken e wb body :
  debug e = true \/ writeback_down wb ->
  fst (writeback e wb "elastalert" (AlertDoc body)) = None.
Proof.
  intros Hdown. unfold writeback. destruct (debug e); [reflexivity |].
  destruct Hdown as [? | Hdown]; [discriminate |].
  destruct (Hdown (AlertDoc body)) as [msg ->]. reflexivity.
Qed.

Lemma writeback_taken e wb body :
  debug e = false -> writeback_up wb ->
  fst (writeback e wb "elastalert" (AlertDoc body)) <> None /\
  alert_documents (snd (writeback e wb "elastalert" (AlertDoc body))) = [body].
Proof.
  intros Hdbg Hup. unfold writeback. rewrite Hdbg.
  destruct (Hup (AlertDoc body)) as [id ->]. now split.
Qed.

Lemma retry_agg_matches_kept {U : Util} e wb pending cron now r :
  debug e = true \/ writeback_down wb ->
  forall turns x st st' effs,
    retry_agg_matches e wb pending cron now r turns x st = Ok (st', effs) ->
    agg_matches st' = agg_matches st.
Proof.
  intros Hdown. induction turns as [| turns IH]; intros x st st' effs.
  - now intros [= <- <-].
  - cbn [retry_agg_matches].
    destruct (pop (agg_matches st)) as [[queue m] |] eqn:Hpop; [| discriminate].
    cbn [bind fst snd]. apply pop_inv in Hpop.
    destruct (add_aggregated_alert _ _ _ _ _ _ _ _) as [[[res st1] effs1] |] eqn:Hadd;
      [| discriminate].
    cbn [bind].
    destruct (retry_agg_matches e wb pending cron now r turns (S x) st1)
      as [[st2 effs2] |] eqn:Hrest; [| discriminate].
    cbn [bind fst snd]. intros [= <- <-].
    apply add_aggregated_alert_queue in Hadd as (body & effs0 & Hres & _ & _ & Hqueue).
    rewrite (writeback_not_taken e wb body Hdown) in Hres. subst res.
    cbn [agg_matches] in Hqueue.
    rewrite (IH _ _ _ _ Hrest), Hqueue. now symmetry.
Qed.

Lemma retry_agg_matches_written {U : Util} e wb pending cron now r :
  debug e = false -> writeback_up wb ->
  forall turns x st st' effs,
    (turns <= length (agg_matches st))%nat ->
    retry_agg_matches e wb pending cron now r turns x st = Ok (st', effs) ->
    agg_matches st' = take (length (agg_matches st) - turns) (agg_matches st) /\
    length (alert_documents effs) = turns.
Proof.
  intros Hdbg Hup. induction turns as [| turns IH]; intros x st st' effs Hlen.
  - intros [= <- <-]. rewrite Nat.sub_0_r, firstn_all. now split.
  - cbn [retry_agg_matches].
    destruct (pop (agg_matches st)) as [[queue m] |] eqn:Hpop; [| discriminate].
    cbn [bind fst snd]. apply pop_inv in Hpop.
    destruct (add_aggregated_alert _ _ _ _ _ _ _ _) as [[[res st1] effs1] |] eqn:Hadd;
      [| discriminate].
    cbn [bind].
    destruct (retry_agg_matches e wb pending cron now r turns (S x) st1)
      as [[st2 effs2] |] eqn:Hrest; [| discriminate].
    cbn [bind fst snd]. intros [= <- <-].
    apply add_aggregated_alert_queue in Hadd as (body & effs0 & Hres & -> & Hquiet & Hqueue).
    destruct (writeback_taken e wb body Hdbg Hup) as [Htaken Hdoc].
    destruct res as [id |]; [| now rewrite <- Hres in Htaken].
    cbn [agg_matches] in Hqueue. rewrite app_nil_r in Hqueue.
    rewrite Hpop in Hlen |- *. rewrite length_app in Hlen |- *. cbn [length] in Hlen |- *.
    destruct (IH (S x) st1 st2 effs2) as [Hkept Hdocs]; [rewrite Hqueue; lia | assumption |].
    split.
    + rewrite Hkept, Hqueue.
      replace (length queue + 1 - S turns)%nat with (length queue - turns)%nat by lia.
      rewrite take_app_le by lia. reflexivity.
    + rewrite !alert_documents_app, Hquiet, Hdoc, !length_app, Hdocs. reflexivity.
Qed.

(** X29: the matches that wait in memory, at the head of run_rule. When
    the loop over them returns: in debug mode, or while the writeback
    takes no document, the matches in memory afterwards are those
    before, in the same order; once the writeback takes every document,
    one document is written for each match and no match is left in
    memory. *)
Theorem retry_pending_matches_queue {U : Util} e wb pending cron now r st st' effs :
  retry_pending_matches e wb pending cron now r st = Ok (st', effs) ->
  (debug e = true \/ writeback_down wb -> agg_matches st' = agg_matches st) /\
  (debug e = false -> writeback_up wb ->
   agg_matches st' = [] /\
   length (alert_documents effs) = length (agg_matches st)).
Proof.
  unfold retry_pending_matches. intros Hrun. split.
  - intros Hdown. exact (retry_agg_matches_kept e wb pending cron now r Hdown _ _ _ _ _ Hrun).
  - intros Hdbg Hup.
    destruct (retry_agg_matches_written e wb pending cron now r Hdbg Hup _ _ _ _ _
                (Nat.le_refl _) Hrun) as [Hkept Hdocs].
    rewrite Nat.sub_diag in Hkept. now split.
Qed.

Lemma retry_pending_matches_queue_witness :
  (debug live_engine = true \/ writeback_down (fun _ => Indexed "id1") ->
   agg_matches (state_after (retry_two (fun _ => Indexed "id1"))) = agg_matches two_waiting) /\
  (debug live_engine = false -> writeback_up (fun _ => Indexed "id1") ->
   agg_matches (state_after (retry_two (fun _ => Indexed "id1"))) = [] /\
   length (alert_documents (effects_of (retry_two (fun _ => Indexed "id1"))))
   = length (agg_matches two_waiting)).
Proof.
  apply (retry_pending_matches_queue (U := flat_util) live_engine (fun _ => Indexed "id1")
           (fun _ => PendingHits []) (fun _ _ => None) (fun x => 1200 + Z.of_nat x) host_rule
           two_waiting).
  vm_compute. reflexivity.
Defined.

(** While the writeback is down each turn pops the match that the turn
    before put back: of the two matches in memory the last one is
    offered twice and the first one not at all. *)
Example retry_pending_matches_same_match :
  matches_offered (effects_of (retry_two (fun _ => IndexRaises "down")))
  = [Some (of_doc second_match_of_b); Some (of_doc second_match_of_b)] /\
  agg_matches (state_after (retry_two (fun _ => IndexRaises "down")))
  = [match_of_a; second_match_of_b].
Proof. vm_compute. split; reflexivity. Qed.

(** ** Count queries *)

Lemma counts_fed_app effs effs' : counts_fed (effs ++ effs') = counts_fed effs ++ counts_fed effs'.
Proof. apply omap_app. Qed.

Lemma count_requests_app effs effs' :
  count_requests (effs ++ effs') = count_requests effs ++ count_requests effs'.
Proof. apply omap_app. Qed.

Lemma counts_fed_core effs : counts_fed (map Core effs) = [].
Proof. induction effs as [| ef effs IH]; [reflexivity | exact IH]. Qed.

Lemma count_requests_core effs : count_requests (map Core effs) = [].
Proof. induction effs as [| ef effs IH]; [reflexivity | exact IH]. Qed.

Lemma total_app counts counts' : total (counts ++ counts') = total counts + total counts'.
Proof.
  induction counts as [| p counts IH]; [reflexivity |].
  cbn [app total foldr] in *. fold (total (counts ++ counts')). fold (total counts). lia.
Qed.

(** Clearing the scroll leaves the counters and the memory of the rule. *)
Lemma cleanup_scroll_id_counters st :
  num_hits (snd (cleanup_scroll_id st)) = num_hits st /\
  num_dupes (snd (cleanup_scroll_id st)) = num_dupes st /\
  processed_hits (snd (cleanup_scroll_id st)) = processed_hits st.
Proof. unfold cleanup_scroll_id. destruct (scroll_id st); repeat split. Qed.

(** One call of [get_hits_count]: one request; the count, if any, is added
    to [num_hits]. *)
Lemma get_hits_count_counters {U : Util} e wb out r start endtime index st :
  let '(effs, st', data) := get_hits_count e wb out r start endtime index st in
  counts_fed effs = [] /\
  count_requests effs = [(index, count_query r start endtime)] /\
  num_hits st' = num_hits st + match data with Some (_, n) => n | None => 0 end /\
  num_dupes st' = num_dupes st /\
  processed_hits st' = processed_hits st /\
  scroll_id st' = scroll_id st /\
  match out with
  | CountReturns n => data = Some (endtime, n)
  | CountRaises _ => data = None
  end.
Proof.
  unfold get_hits_count. destruct out as [text | n].
  - cbn [counts_fed count_requests omap list_omap].
    change (omap _ (map Core ?l)) with (counts_fed (map Core l)) at 1.
    change (omap _ (map Core ?l)) with (count_requests (map Core l)).
    rewrite counts_fed_core, count_requests_core. cbn. repeat split. lia.
  - cbn. repeat split.
Qed.

(** X30: a query of a rule with use_count_query. Whatever the backend
    answers, and however often run_query calls itself, every request
    asks for the count of the filters of the rule within (start, end],
    without a sort; every count the backend returns, also a count of
    zero, is handed to the rule type once, under the end of the window;
    num_hits grows by the total of the counts handed over; and the
    events remembered against duplicates and num_dupes are not touched.
    With no scroll open, a count is answered by true and one call of
    add_count_data, and an error of the backend by false, no call of
    add_count_data and a report of the error. *)
Theorem run_query_count_totals {U : Util} e wb backend r start endtime index depth st :
  let '(effs, st', out) := run_query_count depth e wb backend r start endtime index st in
  Forall (fun request => request = (index, count_query r start endtime)) (count_requests effs) /\
  Forall (fun fed => fst fed = endtime) (counts_fed effs) /\
  num_hits st' = num_hits st + total (counts_fed effs) /\
  num_dupes st' = num_dupes st /\
  processed_hits st' = processed_hits st /\
  (scroll_id st = None ->
   forall depth', depth = S depth' ->
     match backend (scrolling_cycle st + 1) with
     | CountReturns n =>
         out = Ok true /\
         effs = [EsCount index (count_query r start endtime); AddCountData endtime n]
     | CountRaises text =>
         out = Ok false /\
         counts_fed effs = [] /\
         In (Core (LogError ("Error running count query: " ++ truncate_error text))) effs
     end).
Proof.
  revert st. induction depth as [| depth IH]; intros st.
  - cbn. repeat split; try constructor; try lia.
  - cbn [run_query_count].
    set (st0 := mkQueryState (scroll_id st) (scrolling_cycle st + 1) (processed_hits st)
                  (num_hits st) (num_dupes st) (total_hits st)).
    pose proof (get_hits_count_counters e wb (backend (scrolling_cycle st + 1)) r start endtime
                  index st0) as Hget.
    destruct (get_hits_count e wb (backend (scrolling_cycle st + 1)) r start endtime index st0)
      as [[effs st1] data] eqn:Hcall.
    destruct Hget as (Hfed & Hreq & Hhits & Hdupes & Hseen & Hscroll & Hdata).
    cbn [num_hits num_dupes processed_hits scroll_id st0] in Hhits, Hdupes, Hseen, Hscroll.
    destruct data as [[timestamp count] |].
    + assert (Htime : timestamp = endtime /\ backend (scrolling_cycle st + 1) = CountReturns count).
      { destruct (backend (scrolling_cycle st + 1)); [discriminate |].
        now injection Hdata as <- <-. }
      destruct Htime as [-> Hout].
      destruct (scroll_on r st1) eqn:Hon.
      * specialize (IH st1).
        destruct (run_query_count depth e wb backend r start endtime index st1)
          as [[effs' st2] inner].
        destruct IH as (IHreq & IHfed & IHhits & IHdupes & IHseen & _).
        destruct (cleanup_scroll_id_counters st2) as (Hc1 & Hc2 & Hc3).
        assert (Hall : forall tail st3 out,
                  num_hits st3 = num_hits st2 -> num_dupes st3 = num_dupes st2 ->
                  processed_hits st3 = processed_hits st2 ->
                  let '(effs0, st', out0) :=
                    (effs ++ [AddCountData endtime count] ++ effs' ++ map Core tail, st3, out)
                  in
                  Forall (fun request => request = (index, count_query r start endtime))
                    (count_requests effs0) /\
                  Forall (fun fed => fst fed = endtime) (counts_fed effs0) /\
                  num_hits st' = num_hits st + total (counts_fed effs0) /\
                  num_dupes st' = num_dupes st /\
                  processed_hits st' = processed_hits st /\
                  (scroll_id st = None ->
                   forall depth', S depth = S depth' ->
                     match backend (scrolling_cycle st + 1) with
                     | CountReturns n =>
                         out0 = Ok true /\
                         effs0 = [EsCount index (count_query r start endtime);
                                  AddCountData endtime n]
                     | CountRaises text =>
                         out0 = Ok false /\
                         counts_fed effs0 = [] /\
                         In (Core (LogError ("Error running count query: "
                                               ++ truncate_error text))) effs0
                     end)).
        { intros tail st3 out H1 H2 H3.
          rewrite !count_requests_app, !counts_fed_app, Hreq, Hfed, counts_fed_core,
            count_requests_core, !app_nil_r.
          cbn [counts_fed count_requests omap list_omap app].
          split; [constructor; [reflexivity | exact IHreq] |].
          split; [constructor; [reflexivity | exact IHfed] |].
          split; [cbn [total foldr snd]; fold (total (counts_fed effs')); lia |].
          split; [congruence |].
          split; [congruence |].
          intros Hnone. exfalso. unfold scroll_on in Hon.
          rewrite Hscroll, Hnone in Hon. discriminate. }
        destruct inner as [[|] | ex].
        -- destruct (cleanup_scroll_id st2) as [clean st3]. cbn [snd] in *.
           now apply (Hall clean st3 (Ok true)).
        -- destruct (cleanup_scroll_id st2) as [clean st3] eqn:Hclean. cbn [snd] in *.
           destruct (cleanup_scroll_id_counters st3) as (Hd1 & Hd2 & Hd3).
           destruct (cleanup_scroll_id st3) as [clean' st4]. cbn [snd] in *.
           apply (Hall (clean ++ clean') st4 (Ok false)); congruence.
        -- destruct (cleanup_scroll_id st2) as [clean st3]. cbn [snd] in *.
           destruct ex; now apply (Hall clean st3).
      * destruct (cleanup_scroll_id_counters st1) as (Hc1 & Hc2 & Hc3).
        assert (Hquiet : scroll_id st = None -> cleanup_scroll_id st1 = ([], st1)).
        { intros Hnone. unfold cleanup_scroll_id. now rewrite Hscroll, Hnone. }
        destruct (cleanup_scroll_id st1) as [clean st2]. cbn [snd] in *.
        rewrite !count_requests_app, !counts_fed_app, Hreq, Hfed, counts_fed_core,
          count_requests_core, !app_nil_r.
        cbn [counts_fed count_requests omap list_omap app].
        split; [repeat constructor |].
        split; [repeat constructor |].
        split; [cbn; lia |].
        split; [congruence |].
        split; [congruence |].
        intros Hnone depth' _. rewrite Hout. split; [reflexivity |].
        specialize (Hquiet Hnone). injection Hquiet as -> ->.
        cbn [map].
        revert Hcall. unfold get_hits_count. rewrite Hout. now intros [= <- _].
    + rewrite Hreq, Hfed.
      split; [repeat constructor |].
      split; [constructor |].
      split; [cbn; lia |].
      split; [assumption |].
      split; [assumption |].
      intros _ depth' _.
      destruct (backend (scrolling_cycle st + 1)) as [text | n]; [| discriminate].
      split; [reflexivity |]. split; [reflexivity |].
      revert Hcall. unfold get_hits_count. intros [= <- _]. right.
      now left.
Qed.

(** A window without events: the count 0 is handed to the rule type. *)
Example run_query_count_zero :
  run_query_count (U := flat_util) 10 live_engine (fun _ => Indexed "id1")
    (fun _ => CountReturns 0) stored_fields_rule 0 300 "logs" fresh_state
  = ([EsCount "logs" (count_query stored_fields_rule 0 300); AddCountData 300 0],
     mkQueryState None 1 ∅ 0 0 0, Ok true).
Proof. reflexivity. Qed.
